(** * FinanzaSim: the quarterly financial engine and the session state machine

    A shallow embedding of [finanzasim/constants.py],
    [finanzasim/financial_calculator.py], [finanzasim/cfa_questions.py],
    [finanzasim/session_service.py] and the session endpoints of [main.py],
    followed by the properties the specification states about them.

    Conventions of the embedding.
    - Python numbers (the [float] fields, and the [int] literals mixed with
      them) are exact rationals [Qc]: arithmetic is the field arithmetic of
      the source with no rounding, and [==] on numbers is Leibniz equality.
      The only non-finite value the source builds, [float("inf")], lives in
      the type [xnum] of the liquidity ratio. The interpreter rounds every
      operation to binary64, so a statement about the numbers is written
      with the operations and the operation order of the source, and uses
      of the rationals no more than the order and the neutral elements,
      which finite binary64 values share; where the order of a sum
      decides, the module [Binary64] evaluates the same lines in binary64.
    - Python [int] ([quarter], [current_quarter], timestamps) is [Z].
    - A [dict] keyed by strings (a decision, an option's impact, the question
      index, the session store) is a [gmap string _]; the companies of a
      session, which the source iterates in insertion order while drawing
      random numbers, are an association list.
    - An entry of [Company.financials] is a [FinancialSnapshot] record: the
      source stores [result.__dict__], the dictionary of exactly those
      fields; [simulate_quarter] reads four of them.
    - A raised exception is the [Raise] case of [res]; the random generator
      is an explicit stream of draws threaded through the calls. *)

From stdpp Require Import gmap strings list fin_maps pretty.
From Stdlib Require Import QArith Qcanon ZArith Lqa Floats.

Local Open Scope Qc_scope.

(** ** Numbers *)

(** A decimal literal of the source, as the rational it denotes. *)
Definition num (q : Q) : Qc := Q2Qc q.

(** A float that may be [float("inf")]. *)
Inductive xnum : Type :=
  | Fin (q : Qc)
  | PosInf.

(** [max(a, b)] and [min(a, b)] of Python on two arguments: the first
    argument is kept unless the second is strictly greater (smaller). *)
Definition py_max (a b : Qc) : Qc := if decide (a < b) then b else a.
Definition py_min (a b : Qc) : Qc := if decide (b < a) then b else a.

(** ** Exceptions *)

Inductive exn : Type :=
  | TypeError
  | ValueError (msg : string)
  | IndexError
  | ZeroDivisionError
  | HTTPException (status_code : Z) (detail : string).

Inductive res (A : Type) : Type :=
  | Ok (a : A)
  | Raise (e : exn).
Arguments Ok {A} a.
Arguments Raise {A} e.

Global Instance res_ret : MRet res := λ A a, Ok a.
Global Instance res_bind : MBind res := λ A B f m,
  match m with
  | Ok a => f a
  | Raise e => Raise e
  end.
Global Instance res_fmap : FMap res := λ A B f m,
  match m with
  | Ok a => Ok (f a)
  | Raise e => Raise e
  end.

(** [a / b] of Python: a zero divisor raises. *)
Definition py_div (a b : Qc) : res Qc :=
  if decide (b = 0) then Raise ZeroDivisionError else Ok (a / b).

(** ** The random generator

    The generator is a stream of natural numbers and a cursor;
    [random.choice(seq)] consumes one draw and returns the element at that
    draw reduced modulo [len(seq)], so every element can be returned and
    nothing else can. On an empty sequence it raises [IndexError]. *)
Record rng : Type := mk_rng { draws : nat → nat; cursor : nat }.

Definition advance (g : rng) : rng :=
  {| draws := draws g; cursor := S (cursor g) |}.

Definition random_choice {A : Type} (seq : list A) (g : rng) : res (A * rng) :=
  match seq !! (draws g (cursor g) `mod` length seq)%nat with
  | Some x => Ok (x, advance g)
  | None => Raise IndexError
  end.

(** ** constants.py *)

Module SimulationConstants.
Record t : Type := mk {
  cost_per_unit : Qc;
  fixed_opex : Qc;
  tax_rate : Qc;
  base_demand : Qc;
  marketing_effect_per_dollar : Qc;
  price_elasticity : Qc;
  reference_price : Qc;
}.
End SimulationConstants.

Definition SIMULATION_CONSTANTS : SimulationConstants.t :=
  {| SimulationConstants.cost_per_unit := num 25;
     SimulationConstants.fixed_opex := num 10000;
     SimulationConstants.tax_rate := num 0.20;
     SimulationConstants.base_demand := num 1200;
     SimulationConstants.marketing_effect_per_dollar := num 0.1;
     SimulationConstants.price_elasticity := num 20;
     SimulationConstants.reference_price := num 50 |}.

(** ** financial_calculator.py *)

Module Decision.
Record t : Type := mk {
  production : Qc;
  price : Qc;
  marketing : Qc;
}.
End Decision.

(** Building a [Decision] from the keyword arguments held in a dictionary
    (the double-star call of the source): the call succeeds exactly when
    the keys of the dictionary are the three field names; a missing or an
    unexpected keyword raises [TypeError]. *)
Definition Decision_of_kwargs (decision : gmap string Qc) : res Decision.t :=
  match decision !! "production", decision !! "price", decision !! "marketing" with
  | Some production, Some price, Some marketing =>
      if decide (size decision = 3%nat)
      then Ok (Decision.mk production price marketing)
      else Raise TypeError
  | _, _, _ => Raise TypeError
  end.

Module FinancialSnapshot.
Record t : Type := mk {
  quarter : Z;
  cash : Qc;
  inventory : Qc;
  equity : Qc;
  debt : Qc;
  revenue : Qc;
  cogs : Qc;
  gross_profit : Qc;
  operating_expenses : Qc;
  ebit : Qc;
  taxes : Qc;
  net_income : Qc;
  units_sold : Qc;
  liquidity_ratio : xnum;
  net_margin : Qc;
  price : Qc;
  marketing : Qc;
  production : Qc;
}.

Definition set_ratios (liquidity_ratio' : xnum) (net_margin' : Qc) (s : t) : t :=
  mk (quarter s) (cash s) (inventory s) (equity s) (debt s) (revenue s)
     (cogs s) (gross_profit s) (operating_expenses s) (ebit s) (taxes s)
     (net_income s) (units_sold s) liquidity_ratio' net_margin'
     (price s) (marketing s) (production s).

Definition set_debt (debt' : Qc) (s : t) : t :=
  mk (quarter s) (cash s) (inventory s) (equity s) debt' (revenue s)
     (cogs s) (gross_profit s) (operating_expenses s) (ebit s) (taxes s)
     (net_income s) (units_sold s) (liquidity_ratio s) (net_margin s)
     (price s) (marketing s) (production s).
End FinancialSnapshot.

Definition calculate_demand (decision : Decision.t) : Qc :=
  let price_effect :=
    (SimulationConstants.reference_price SIMULATION_CONSTANTS - Decision.price decision)
    * SimulationConstants.price_elasticity SIMULATION_CONSTANTS in
  let marketing_effect :=
    Decision.marketing decision
    * SimulationConstants.marketing_effect_per_dollar SIMULATION_CONSTANTS in
  let raw_demand :=
    SimulationConstants.base_demand SIMULATION_CONSTANTS + price_effect + marketing_effect in
  py_max 0 raw_demand.

Definition calculate_ratios (financial_snapshot : FinancialSnapshot.t) : res (xnum * Qc) :=
  let current_assets :=
    FinancialSnapshot.cash financial_snapshot + FinancialSnapshot.inventory financial_snapshot in
  let current_liabilities := FinancialSnapshot.debt financial_snapshot in
  liquidity_ratio ←
    (if decide (current_liabilities = 0) then Ok PosInf
     else Fin <$> py_div current_assets current_liabilities);
  net_margin ←
    (if decide (FinancialSnapshot.revenue financial_snapshot = 0) then Ok 0
     else py_div (FinancialSnapshot.net_income financial_snapshot)
                 (FinancialSnapshot.revenue financial_snapshot));
  Ok (liquidity_ratio, net_margin).

Definition simulate_quarter (previous : FinancialSnapshot.t) (decision : gmap string Qc)
    : res FinancialSnapshot.t :=
  decision_obj ← Decision_of_kwargs decision;
  let demand := calculate_demand decision_obj in
  let available_units := Decision.production decision_obj + FinancialSnapshot.inventory previous in
  let units_sold := py_min demand available_units in

  let revenue := units_sold * Decision.price decision_obj in
  let cogs := units_sold * SimulationConstants.cost_per_unit SIMULATION_CONSTANTS in
  let gross_profit := revenue - cogs in

  let operating_expenses :=
    SimulationConstants.fixed_opex SIMULATION_CONSTANTS + Decision.marketing decision_obj in
  let ebit := gross_profit - operating_expenses in
  let taxes := py_max 0 (ebit * SimulationConstants.tax_rate SIMULATION_CONSTANTS) in
  let net_income := ebit - taxes in

  let cash_change :=
    revenue
    - (Decision.production decision_obj * SimulationConstants.cost_per_unit SIMULATION_CONSTANTS)
    - operating_expenses in
  let new_cash := FinancialSnapshot.cash previous + cash_change in
  let debt := py_max 0 (- new_cash) in
  let adjusted_cash := py_max 0 new_cash in
  let new_inventory :=
    FinancialSnapshot.inventory previous + Decision.production decision_obj - units_sold in
  let new_equity := FinancialSnapshot.equity previous + net_income in

  let snapshot :=
    {| FinancialSnapshot.quarter := FinancialSnapshot.quarter previous + 1;
       FinancialSnapshot.revenue := revenue;
       FinancialSnapshot.cogs := cogs;
       FinancialSnapshot.gross_profit := gross_profit;
       FinancialSnapshot.operating_expenses := operating_expenses;
       FinancialSnapshot.ebit := ebit;
       FinancialSnapshot.taxes := taxes;
       FinancialSnapshot.net_income := net_income;
       FinancialSnapshot.cash := adjusted_cash;
       FinancialSnapshot.inventory := new_inventory;
       FinancialSnapshot.debt := debt;
       FinancialSnapshot.equity := new_equity;
       FinancialSnapshot.units_sold := units_sold;
       FinancialSnapshot.production := Decision.production decision_obj;
       FinancialSnapshot.price := Decision.price decision_obj;
       FinancialSnapshot.marketing := Decision.marketing decision_obj;
       FinancialSnapshot.liquidity_ratio := Fin 0;
       FinancialSnapshot.net_margin := 0 |} in

  '(liquidity_ratio, net_margin) ← calculate_ratios snapshot;
  Ok (FinancialSnapshot.set_ratios liquidity_ratio net_margin snapshot).

(** ** financial_calculator.py in binary64 arithmetic

    The numbers of the source are Python floats, that is IEEE 754 binary64
    values, and every [+], [-], [*], [/] and comparison of the source
    rounds as binary64 does. The module below is the same transcription of
    [financial_calculator.py] with the binary64 numbers of the kernel in
    place of the rationals: it is the place where a sum can be evaluated
    as the interpreter evaluates it. An [int] of the source (the [0] of
    [max(0, ...)], the defaults of [SimulationConstants]) is the double of
    the same value, to which Python converts it in mixed arithmetic. *)
Module Binary64.
#[local] Set Warnings "-inexact-float".
#[local] Open Scope float_scope.

Definition py_max (a b : float) : float := if a <? b then b else a.
Definition py_min (a b : float) : float := if b <? a then b else a.

Definition py_div (a b : float) : res float :=
  if b =? 0 then Raise ZeroDivisionError else Ok (a / b).

Module SimulationConstants.
Record t : Type := mk {
  cost_per_unit : float;
  fixed_opex : float;
  tax_rate : float;
  base_demand : float;
  marketing_effect_per_dollar : float;
  price_elasticity : float;
  reference_price : float;
}.
End SimulationConstants.

Definition SIMULATION_CONSTANTS : SimulationConstants.t :=
  {| SimulationConstants.cost_per_unit := 25;
     SimulationConstants.fixed_opex := 10000;
     SimulationConstants.tax_rate := 0.20;
     SimulationConstants.base_demand := 1200;
     SimulationConstants.marketing_effect_per_dollar := 0.1;
     SimulationConstants.price_elasticity := 20;
     SimulationConstants.reference_price := 50 |}.

Module Decision.
Record t : Type := mk {
  production : float;
  price : float;
  marketing : float;
}.
End Decision.

Definition Decision_of_kwargs (decision : gmap string float) : res Decision.t :=
  match decision !! "production", decision !! "price", decision !! "marketing" with
  | Some production, Some price, Some marketing =>
      if decide (size decision = 3%nat)
      then Ok (Decision.mk production price marketing)
      else Raise TypeError
  | _, _, _ => Raise TypeError
  end.

Module FinancialSnapshot.
Record t : Type := mk {
  quarter : Z;
  cash : float;
  inventory : float;
  equity : float;
  debt : float;
  revenue : float;
  cogs : float;
  gross_profit : float;
  operating_expenses : float;
  ebit : float;
  taxes : float;
  net_income : float;
  units_sold : float;
  liquidity_ratio : float;
  net_margin : float;
  price : float;
  marketing : float;
  production : float;
}.

Definition set_ratios (liquidity_ratio' net_margin' : float) (s : t) : t :=
  mk (quarter s) (cash s) (inventory s) (equity s) (debt s) (revenue s)
     (cogs s) (gross_profit s) (operating_expenses s) (ebit s) (taxes s)
     (net_income s) (units_sold s) liquidity_ratio' net_margin'
     (price s) (marketing s) (production s).

Definition set_debt (debt' : float) (s : t) : t :=
  mk (quarter s) (cash s) (inventory s) (equity s) debt' (revenue s)
     (cogs s) (gross_profit s) (operating_expenses s) (ebit s) (taxes s)
     (net_income s) (units_sold s) (liquidity_ratio s) (net_margin s)
     (price s) (marketing s) (production s).
End FinancialSnapshot.

Definition calculate_demand (decision : Decision.t) : float :=
  let price_effect :=
    (SimulationConstants.reference_price SIMULATION_CONSTANTS - Decision.price decision)
    * SimulationConstants.price_elasticity SIMULATION_CONSTANTS in
  let marketing_effect :=
    Decision.marketing decision
    * SimulationConstants.marketing_effect_per_dollar SIMULATION_CONSTANTS in
  let raw_demand :=
    SimulationConstants.base_demand SIMULATION_CONSTANTS + price_effect + marketing_effect in
  py_max 0 raw_demand.

Definition calculate_ratios (financial_snapshot : FinancialSnapshot.t) : res (float * float) :=
  let current_assets :=
    FinancialSnapshot.cash financial_snapshot + FinancialSnapshot.inventory financial_snapshot in
  let current_liabilities := FinancialSnapshot.debt financial_snapshot in
  liquidity_ratio ←
    (if current_liabilities =? 0 then Ok infinity
     else py_div current_assets current_liabilities);
  net_margin ←
    (if FinancialSnapshot.revenue financial_snapshot =? 0 then Ok 0
     else py_div (FinancialSnapshot.net_income financial_snapshot)
                 (FinancialSnapshot.revenue financial_snapshot));
  Ok (liquidity_ratio, net_margin).

Definition simulate_quarter (previous : FinancialSnapshot.t) (decision : gmap string float)
    : res FinancialSnapshot.t :=
  decision_obj ← Decision_of_kwargs decision;
  let demand := calculate_demand decision_obj in
  let available_units := Decision.production decision_obj + FinancialSnapshot.inventory previous in
  let units_sold := py_min demand available_units in

  let revenue := units_sold * Decision.price decision_obj in
  let cogs := units_sold * SimulationConstants.cost_per_unit SIMULATION_CONSTANTS in
  let gross_profit := revenue - cogs in

  let operating_expenses :=
    SimulationConstants.fixed_opex SIMULATION_CONSTANTS + Decision.marketing decision_obj in
  let ebit := gross_profit - operating_expenses in
  let taxes := py_max 0 (ebit * SimulationConstants.tax_rate SIMULATION_CONSTANTS) in
  let net_income := ebit - taxes in

  let cash_change :=
    revenue
    - (Decision.production decision_obj * SimulationConstants.cost_per_unit SIMULATION_CONSTANTS)
    - operating_expenses in
  let new_cash := FinancialSnapshot.cash previous + cash_change in
  let debt := py_max 0 (- new_cash) in
  let adjusted_cash := py_max 0 new_cash in
  let new_inventory :=
    FinancialSnapshot.inventory previous + Decision.production decision_obj - units_sold in
  let new_equity := FinancialSnapshot.equity previous + net_income in

  let snapshot :=
    {| FinancialSnapshot.quarter := FinancialSnapshot.quarter previous + 1;
       FinancialSnapshot.revenue := revenue;
       FinancialSnapshot.cogs := cogs;
       FinancialSnapshot.gross_profit := gross_profit;
       FinancialSnapshot.operating_expenses := operating_expenses;
       FinancialSnapshot.ebit := ebit;
       FinancialSnapshot.taxes := taxes;
       FinancialSnapshot.net_income := net_income;
       FinancialSnapshot.cash := adjusted_cash;
       FinancialSnapshot.inventory := new_inventory;
       FinancialSnapshot.debt := debt;
       FinancialSnapshot.equity := new_equity;
       FinancialSnapshot.units_sold := units_sold;
       FinancialSnapshot.production := Decision.production decision_obj;
       FinancialSnapshot.price := Decision.price decision_obj;
       FinancialSnapshot.marketing := Decision.marketing decision_obj;
       FinancialSnapshot.liquidity_ratio := 0;
       FinancialSnapshot.net_margin := 0 |} in

  '(liquidity_ratio, net_margin) ← calculate_ratios snapshot;
  Ok (FinancialSnapshot.set_ratios liquidity_ratio net_margin snapshot).

(** A previous state and a decision on which the order of the additions
    shows: the cash at hand, 28629.75, is what the quarter costs, up to the
    rounding of the revenue. *)
Definition tight_state : FinancialSnapshot.t :=
  FinancialSnapshot.mk 0 28629.75 1000 28629.75 0 0 0 0 0 0 0 0 0 0 0 0 0 0.

Definition tight_decision : gmap string float :=
  {[ "production" := 3000; "price" := 40.625; "marketing" := 1 ]}.
End Binary64.

(** ** cfa_questions.py *)

Module QuestionOption.
Record t : Type := mk {
  id : string;
  text : string;
  impact : gmap string Qc;
}.
End QuestionOption.

Module Question.
Record t : Type := mk {
  id : string;
  prompt : string;
  options : list QuestionOption.t;
}.
End Question.

(** [d.get(key, default)] on a dictionary of numbers. *)
Definition dict_get (d : gmap string Qc) (key : string) (dflt : Qc) : Qc :=
  default dflt (d !! key).

(** Return a new decision dict adjusted by the option's impact factors. *)
Definition apply_option_impact (decision : gmap string Qc) (option_ : QuestionOption.t)
    : gmap string Qc :=
  let production :=
    py_max 0
      (dict_get decision "production" 0
         * dict_get (QuestionOption.impact option_) "production_multiplier" 1
       + dict_get (QuestionOption.impact option_) "production_delta" 0) in
  let price :=
    py_max 0
      (dict_get decision "price" 0
         * dict_get (QuestionOption.impact option_) "price_multiplier" 1
       + dict_get (QuestionOption.impact option_) "price_delta" 0) in
  let marketing :=
    py_max 0
      (dict_get decision "marketing" 0
         * dict_get (QuestionOption.impact option_) "marketing_multiplier" 1
       + dict_get (QuestionOption.impact option_) "marketing_delta" 0) in
  {[ "production" := production; "price" := price; "marketing" := marketing ]}.

Definition QUESTION_BANK : list Question.t :=
  [
    Question.mk "q01"
      "Un comité de riesgos propone cubrir la exposición cambiaria elevando el precio en 2%. ¿Cómo respondes?"
      [
        QuestionOption.mk "A" "Aceptas el aumento para proteger margen"
          ({[ "price_delta" := num 1.0 ]});
        QuestionOption.mk "B" "Mantienes precio y refuerzas marketing para ganar cuota"
          ({[ "marketing_multiplier" := num 1.25 ]});
        QuestionOption.mk "C" "Reducir producción para priorizar liquidez"
          ({[ "production_multiplier" := num 0.9 ]})
      ];
    Question.mk "q02"
      "El equipo de ventas pide un descuento táctico del 5% por trimestre para cerrar contratos grandes."
      [
        QuestionOption.mk "A" "Aprobado: descuento completo"
          ({[ "price_multiplier" := num 0.95 ]});
        QuestionOption.mk "B" "Descuento parcial y más volumen"
          ({[ "price_multiplier" := num 0.97; "production_multiplier" := num 1.05 ]});
        QuestionOption.mk "C" "Sin descuento, en su lugar branding"
          ({[ "marketing_multiplier" := num 1.2 ]})
      ];
    Question.mk "q03"
      "Finanzas advierte sobre capital de trabajo tensionado. Se sugiere recortar marketing un 20%."
      [
        QuestionOption.mk "A" "Aceptas el recorte para liberar caja"
          ({[ "marketing_multiplier" := num 0.8 ]});
        QuestionOption.mk "B" "Mantienes marketing pero bajas producción"
          ({[ "production_multiplier" := num 0.9 ]});
        QuestionOption.mk "C" "Contrarrestas con subida de precio"
          ({[ "price_delta" := num 2.0 ]})
      ];
    Question.mk "q04"
      "Un proveedor ofrece pago anticipado con 3% de descuento en costo unitario si produces más."
      [
        QuestionOption.mk "A" "Incrementas producción para capturar descuento"
          ({[ "production_multiplier" := num 1.15 ]});
        QuestionOption.mk "B" "Mantienes producción y reservas liquidez"
          ({[ "production_multiplier" := num 1.0 ]});
        QuestionOption.mk "C" "Bajas precio para rotar inventario"
          ({[ "price_multiplier" := num 0.98 ]})
      ];
    Question.mk "q05"
      "Marketing propone campaña digital adicional. Requiere +$500 y promete +8% en demanda."
      [
        QuestionOption.mk "A" "Apruebas la campaña completa"
          ({[ "marketing_delta" := num 500.0 ]});
        QuestionOption.mk "B" "Aprobación parcial y subes precio 1%"
          ({[ "marketing_delta" := num 250.0; "price_multiplier" := num 1.01 ]});
        QuestionOption.mk "C" "Rechazas y reasignas a producción"
          ({[ "production_multiplier" := num 1.05 ]})
      ];
    Question.mk "q06"
      "Se detecta obsolescencia en inventario. Se propone rebaja temporal del 3% en precio."
      [
        QuestionOption.mk "A" "Aplicar rebaja total"
          ({[ "price_multiplier" := num 0.97 ]});
        QuestionOption.mk "B" "Rebaja parcial y más marketing de liquidación"
          ({[ "price_multiplier" := num 0.985; "marketing_multiplier" := num 1.15 ]});
        QuestionOption.mk "C" "Sin rebaja, ajustas producción a la baja"
          ({[ "production_multiplier" := num 0.9 ]})
      ];
    Question.mk "q07"
      "El director comercial sugiere producir 10% más para evitar roturas de stock en Q4."
      [
        QuestionOption.mk "A" "Sigues la recomendación"
          ({[ "production_multiplier" := num 1.1 ]});
        QuestionOption.mk "B" "Producción neutra y refuerzo de marketing"
          ({[ "marketing_multiplier" := num 1.1 ]});
        QuestionOption.mk "C" "Moderación: +5% producción y precio +1"
          ({[ "production_multiplier" := num 1.05; "price_delta" := num 1.0 ]})
      ];
    Question.mk "q08"
      "Una auditoría ESG sugiere invertir en eficiencia, reduciendo OPEX futuro pero elevando marketing ahora."
      [
        QuestionOption.mk "A" "Incrementas marketing para visibilidad ESG"
          ({[ "marketing_multiplier" := num 1.3 ]});
        QuestionOption.mk "B" "Subes precio 2% para financiar la iniciativa"
          ({[ "price_multiplier" := num 1.02 ]});
        QuestionOption.mk "C" "Aplazas la iniciativa y mantienes estructura actual"
          ∅
      ];
    Question.mk "q09"
      "Competencia lanza producto sustituto 4% más barato. ¿Cuál es tu respuesta?"
      [
        QuestionOption.mk "A" "Igualas el precio y subes marketing"
          ({[ "price_multiplier" := num 0.96; "marketing_multiplier" := num 1.2 ]});
        QuestionOption.mk "B" "Mantienes precio, refuerzas valor percibido"
          ({[ "marketing_multiplier" := num 1.1 ]});
        QuestionOption.mk "C" "Reduces producción para evitar excedentes"
          ({[ "production_multiplier" := num 0.92 ]})
      ];
    Question.mk "q10"
      "El CFO sugiere priorizar flujo de caja, proponiendo bajar marketing 10% y precio +1%."
      [
        QuestionOption.mk "A" "Sigues la recomendación"
          ({[ "marketing_multiplier" := num 0.9; "price_delta" := num 1.0 ]});
        QuestionOption.mk "B" "Solo aplicas la subida de precio"
          ({[ "price_delta" := num 1.0 ]});
        QuestionOption.mk "C" "Prefieres impulsar volumen con más producción"
          ({[ "production_multiplier" := num 1.08 ]})
      ];
    Question.mk "q11"
      "Recibes una línea de crédito barata para financiar crecimiento. ¿Cómo la usas?"
      [
        QuestionOption.mk "A" "Escalas producción 15%"
          ({[ "production_multiplier" := num 1.15 ]});
        QuestionOption.mk "B" "Campaña masiva de marketing"
          ({[ "marketing_multiplier" := num 1.4 ]});
        QuestionOption.mk "C" "Equilibrio: +5% precio y +5% marketing"
          ({[ "price_multiplier" := num 1.05; "marketing_multiplier" := num 1.05 ]})
      ];
    Question.mk "q12"
      "Clientes corporativos piden contratos a plazo con descuento pero pagos adelantados."
      [
        QuestionOption.mk "A" "Aceptas descuento 2% para asegurar volumen"
          ({[ "price_multiplier" := num 0.98; "production_multiplier" := num 1.07 ]});
        QuestionOption.mk "B" "Rechazas descuento y mantienes mix actual"
          ∅;
        QuestionOption.mk "C" "Compensas con campaña de upselling"
          ({[ "marketing_multiplier" := num 1.15 ]})
      ];
    Question.mk "q13"
      "El comité de auditoría sugiere construir inventario defensivo ante riesgo de supply chain."
      [
        QuestionOption.mk "A" "Construyes inventario: +12% producción"
          ({[ "production_multiplier" := num 1.12 ]});
        QuestionOption.mk "B" "Producción neutra, reservas liquidez"
          ∅;
        QuestionOption.mk "C" "Optimización: +5% producción y +1 en precio"
          ({[ "production_multiplier" := num 1.05; "price_delta" := num 1.0 ]})
      ];
    Question.mk "q14"
      "Se detecta caída en ROI de marketing. Se proponen recortes y reorientación a pricing."
      [
        QuestionOption.mk "A" "Recortas 15% marketing y subes precio 1%"
          ({[ "marketing_multiplier" := num 0.85; "price_multiplier" := num 1.01 ]});
        QuestionOption.mk "B" "Mantienes marketing y subes producción"
          ({[ "production_multiplier" := num 1.08 ]});
        QuestionOption.mk "C" "Experimentas: +5% marketing con storytelling ESG"
          ({[ "marketing_multiplier" := num 1.05 ]})
      ];
    Question.mk "q15"
      "El consejo pide acelerar ROE mediante mayor apalancamiento operativo."
      [
        QuestionOption.mk "A" "Subes producción 18%"
          ({[ "production_multiplier" := num 1.18 ]});
        QuestionOption.mk "B" "Subes precio 3% para mejorar margen"
          ({[ "price_multiplier" := num 1.03 ]});
        QuestionOption.mk "C" "Blend: +8% producción y +1% precio"
          ({[ "production_multiplier" := num 1.08; "price_multiplier" := num 1.01 ]})
      ];
    Question.mk "q16"
      "Se plantea reducción táctica de inventario para liberar capital de trabajo."
      [
        QuestionOption.mk "A" "Bajas producción 12%"
          ({[ "production_multiplier" := num 0.88 ]});
        QuestionOption.mk "B" "Aumentas precio 2% para frenar ventas menos rentables"
          ({[ "price_multiplier" := num 1.02 ]});
        QuestionOption.mk "C" "Más marketing para acelerar rotación"
          ({[ "marketing_multiplier" := num 1.18 ]})
      ];
    Question.mk "q17"
      "Una encuesta revela sensibilidad al precio menor a la estimada. ¿Cómo capturas valor?"
      [
        QuestionOption.mk "A" "Incrementas precio 4%"
          ({[ "price_multiplier" := num 1.04 ]});
        QuestionOption.mk "B" "Mantienes precio y elevas marketing premium"
          ({[ "marketing_multiplier" := num 1.25 ]});
        QuestionOption.mk "C" "Subes producción para aprovechar demanda"
          ({[ "production_multiplier" := num 1.1 ]})
      ];
    Question.mk "q18"
      "La tesorería detecta exceso de caja no asignada. Se sugiere invertir en crecimiento orgánico."
      [
        QuestionOption.mk "A" "Financias marketing intensivo"
          ({[ "marketing_multiplier" := num 1.35 ]});
        QuestionOption.mk "B" "Rebajas precio 2% para impulsar volumen"
          ({[ "price_multiplier" := num 0.98 ]});
        QuestionOption.mk "C" "Balanceas: +6% producción y +1% precio"
          ({[ "production_multiplier" := num 1.06; "price_multiplier" := num 1.01 ]})
      ];
    Question.mk "q19"
      "La Junta evalúa expandir a un nicho premium con menor elasticidad de precio."
      [
        QuestionOption.mk "A" "Estrategia premium: +6% precio, marketing +10%"
          ({[ "price_multiplier" := num 1.06; "marketing_multiplier" := num 1.1 ]});
        QuestionOption.mk "B" "Piloto moderado: +3% precio y producción estable"
          ({[ "price_multiplier" := num 1.03 ]});
        QuestionOption.mk "C" "Esperas datos, priorizas liquidez"
          ({[ "production_multiplier" := num 0.95 ]})
      ];
    Question.mk "q20"
      "Un comité de supply chain recomienda horas extra para aprovechar capacidad ociosa."
      [
        QuestionOption.mk "A" "Aumentas producción 20%"
          ({[ "production_multiplier" := num 1.2 ]});
        QuestionOption.mk "B" "Producción +10% y marketing +5%"
          ({[ "production_multiplier" := num 1.1; "marketing_multiplier" := num 1.05 ]});
        QuestionOption.mk "C" "No cambias producción, subes precio 1%"
          ({[ "price_multiplier" := num 1.01 ]})
      ]
  ].

(** [not exclude_ids]: the argument is [None] or an empty sequence. *)
Definition falsy_ids (exclude_ids : option (list string)) : Prop :=
  exclude_ids = None ∨ exclude_ids = Some [].

(** The condition of the comprehension in [pick_random_question]:
    [not exclude_ids or q.id not in exclude_ids]. *)
Definition not_excluded (exclude_ids : option (list string)) (q : Question.t) : Prop :=
  falsy_ids exclude_ids ∨ Question.id q ∉ default [] exclude_ids.

Global Instance not_excluded_dec exclude_ids q : Decision (not_excluded exclude_ids q).
Proof. unfold not_excluded, falsy_ids. apply _. Defined.

Definition pick_random_question (exclude_ids : option (list string)) (g : rng)
    : res (Question.t * rng) :=
  let available := filter (not_excluded exclude_ids) QUESTION_BANK in
  let available := if decide (available = []) then QUESTION_BANK else available in
  random_choice available g.

(** [{q.id: q for q in QUESTION_BANK}]: a later question with the same id
    would replace an earlier one. *)
Definition QUESTION_INDEX : gmap string Question.t :=
  foldl (λ index q, <[Question.id q := q]> index) ∅ QUESTION_BANK.

(** ** session_service.py *)

Module Company.
Record t : Type := mk {
  name : string;
  financials : list FinancialSnapshot.t;
  decisions : gmap string Qc;
  agent_chat : list string;
  active_question_id : option string;
  selected_option_id : option string;
  question_history : option (list string);
}.
End Company.

(** [Session.companies] is a Python dict: the list holds its items in
    insertion order and its keys are pairwise distinct. *)
Module Session.
Record t : Type := mk {
  id : string;
  game_code : string;
  game_status : string;
  current_quarter : Z;
  last_update_time : Z;
  companies : list (string * Company.t);
}.
End Session.

(** [d.get(key)] and [d[key] = value] on a dict kept as the list of its
    items: an existing key keeps its position, a new key goes last. *)
Fixpoint items_get {A : Type} (key : string) (items : list (string * A)) : option A :=
  match items with
  | [] => None
  | (k, v) :: rest => if decide (k = key) then Some v else items_get key rest
  end.

Fixpoint items_set {A : Type} (key : string) (value : A) (items : list (string * A))
    : list (string * A) :=
  match items with
  | [] => [(key, value)]
  | (k, v) :: rest =>
      if decide (k = key) then (k, value) :: rest else (k, v) :: items_set key value rest
  end.

Module InMemorySessionRepository.
Record t : Type := mk { sessions : gmap string Session.t }.

Definition get_by_id (self : t) (session_id : string) : option Session.t :=
  sessions self !! session_id.

Definition save (self : t) (session : Session.t) : Session.t * t :=
  (session, mk (<[Session.id session := session]> (sessions self))).
End InMemorySessionRepository.

(** [company.question_history or []]. *)
Definition history_or_empty (question_history : option (list string)) : list string :=
  default [] question_history.

(** The body of the loop of [assign_quarter_questions]. *)
Definition assign_company (company : Company.t) (g : rng) : res (Company.t * rng) :=
  let history := history_or_empty (Company.question_history company) in
  '(question, g) ← pick_random_question (Some history) g;
  let history := history ++ [Question.id question] in
  Ok ({| Company.name := Company.name company;
         Company.financials := Company.financials company;
         Company.decisions := Company.decisions company;
         Company.agent_chat := Company.agent_chat company;
         Company.active_question_id := Some (Question.id question);
         Company.selected_option_id := None;
         Company.question_history := Some history |}, g).

(** [question_id = company.active_question_id or pick_random_question().id]:
    [None] and the empty string are falsy. *)
Definition resolve_question_id (company : Company.t) (g : rng) : res (string * rng) :=
  match Company.active_question_id company with
  | Some question_id =>
      if decide (question_id = "") then
        '(question, g) ← pick_random_question None g; Ok (Question.id question, g)
      else Ok (question_id, g)
  | None =>
      '(question, g) ← pick_random_question None g; Ok (Question.id question, g)
  end.

(** The first option of the question [question_id] whose id equals
    [selected_option_id]; [None] when the question is unknown or no option
    matches. *)
Definition resolve_selected_option (question_id : string) (selected_option_id : option string)
    : option QuestionOption.t :=
  match QUESTION_INDEX !! question_id with
  | Some question =>
      snd <$> list_find (λ option_, Some (QuestionOption.id option_) = selected_option_id)
                        (Question.options question)
  | None => None
  end.

Definition resolve_effective_decision (base_decision : gmap string Qc)
    (selected_option : option QuestionOption.t) : gmap string Qc :=
  match selected_option with
  | Some option_ => apply_option_impact base_decision option_
  | None => base_decision
  end.

(** The body of the loop of [close_quarter]. *)
Definition close_company (company : Company.t) (g : rng) : res (Company.t * rng) :=
  previous_financials ←
    match last (Company.financials company) with
    | Some previous => Ok previous
    | None => Raise IndexError
    end;
  let base_decision := Company.decisions company in

  '(question_id, g) ← resolve_question_id company g;
  let selected_option :=
    resolve_selected_option question_id (Company.selected_option_id company) in

  let effective_decision := resolve_effective_decision base_decision selected_option in

  result ← simulate_quarter previous_financials effective_decision;
  let history := history_or_empty (Company.question_history company) in
  let history :=
    if decide (history = [] ∨ last history ≠ Some question_id)
    then history ++ [question_id] else history in
  Ok ({| Company.name := Company.name company;
         Company.financials := Company.financials company ++ [result];
         Company.decisions := ∅;
         Company.agent_chat := Company.agent_chat company;
         Company.active_question_id := None;
         Company.selected_option_id := None;
         Company.question_history := Some history |}, g).

(** [for company_id, company in session.companies.items(): ...
    updated_companies[company_id] = body(company)]: the companies are
    visited in order, the generator is threaded through, the first
    exception aborts the loop. *)
Fixpoint for_each_company (body : Company.t → rng → res (Company.t * rng))
    (items : list (string * Company.t)) (g : rng)
    : res (list (string * Company.t) * rng) :=
  match items with
  | [] => Ok ([], g)
  | (company_id, company) :: rest =>
      '(updated, g) ← body company g;
      '(updated_rest, g) ← for_each_company body rest g;
      Ok ((company_id, updated) :: updated_rest, g)
  end.

(** The status string computed by [close_quarter]. *)
Definition status_of_quarter (next_quarter : Z) : string :=
  if decide (next_quarter > 4)%Z then "Finished" else "Q" +:+ pretty next_quarter.

Module SessionService.
Definition not_found (session_id : string) : exn :=
  ValueError ("Session " +:+ session_id +:+ " not found").

Definition assign_quarter_questions (repository : InMemorySessionRepository.t)
    (session_id : string) (g : rng)
    : res (Session.t * InMemorySessionRepository.t * rng) :=
  match InMemorySessionRepository.get_by_id repository session_id with
  | None => Raise (not_found session_id)
  | Some session =>
      '(updated_companies, g) ←
        for_each_company assign_company (Session.companies session) g;
      let updated_session :=
        {| Session.id := Session.id session;
           Session.game_code := Session.game_code session;
           Session.game_status := Session.game_status session;
           Session.current_quarter := Session.current_quarter session;
           Session.last_update_time := Session.last_update_time session;
           Session.companies := updated_companies |} in
      let '(saved, repository) :=
        InMemorySessionRepository.save repository updated_session in
      Ok (saved, repository, g)
  end.

Definition close_quarter (repository : InMemorySessionRepository.t)
    (session_id : string) (g : rng)
    : res (Session.t * InMemorySessionRepository.t * rng) :=
  match InMemorySessionRepository.get_by_id repository session_id with
  | None => Raise (not_found session_id)
  | Some session =>
      '(updated_companies, g) ←
        for_each_company close_company (Session.companies session) g;
      let next_quarter := (Session.current_quarter session + 1)%Z in
      let game_status := status_of_quarter next_quarter in
      let updated_session :=
        {| Session.id := Session.id session;
           Session.game_code := Session.game_code session;
           Session.game_status := game_status;
           Session.current_quarter := next_quarter;
           Session.last_update_time := Session.last_update_time session;
           Session.companies := updated_companies |} in
      let '(saved, repository) :=
        InMemorySessionRepository.save repository updated_session in
      Ok (saved, repository, g)
  end.
End SessionService.

(** ** main.py: the session endpoints

    The values the endpoints take from their environment (the two
    [uuid.uuid4()] strings, [time.time()]) are arguments. An endpoint that
    raises leaves the repository as it was: every [save] of a handler comes
    after the last call that can raise. *)

(** Initial state for a new company *)
Definition INITIAL_FINANCIALS : list FinancialSnapshot.t :=
  [ {| FinancialSnapshot.quarter := 0;
       FinancialSnapshot.cash := num 50000;
       FinancialSnapshot.inventory := num 1000;
       FinancialSnapshot.equity := num 50000;
       FinancialSnapshot.debt := num 0.0;
       FinancialSnapshot.revenue := num 0.0;
       FinancialSnapshot.cogs := num 0.0;
       FinancialSnapshot.gross_profit := num 0.0;
       FinancialSnapshot.operating_expenses := num 0.0;
       FinancialSnapshot.ebit := num 0.0;
       FinancialSnapshot.taxes := num 0.0;
       FinancialSnapshot.net_income := num 0.0;
       FinancialSnapshot.units_sold := num 0.0;
       FinancialSnapshot.liquidity_ratio := Fin (num 0.0);
       FinancialSnapshot.net_margin := num 0.0;
       FinancialSnapshot.price := num 0.0;
       FinancialSnapshot.marketing := num 0.0;
       FinancialSnapshot.production := num 0.0 |} ].

(** [name.lower().replace(" ", "_")] on names written in ASCII: [lower]
    maps the letters A to Z; the letters outside ASCII that [str.lower]
    also maps are not modelled. *)
Definition lower_char (c : Ascii.ascii) : Ascii.ascii :=
  let n := Ascii.nat_of_ascii c in
  if ((65 <=? n) && (n <=? 90))%nat then Ascii.ascii_of_nat (n + 32) else c.

Fixpoint company_id_of_name (name : string) : string :=
  match name with
  | String.EmptyString => String.EmptyString
  | String.String c rest =>
      String.String (if decide (c = Ascii.Space) then Ascii.ascii_of_nat 95 else lower_char c)
             (company_id_of_name rest)
  end.

Module Api.
Definition http_404 (detail : string) : exn := HTTPException 404 detail.

Definition get_question (question_id : string) : res Question.t :=
  match QUESTION_INDEX !! question_id with
  | Some question => Ok question
  | None => Raise (http_404 "Question not found")
  end.

Definition create_session (repository : InMemorySessionRepository.t)
    (company_names : list string) (session_id game_code : string) (now : Z) (g : rng)
    : res (Session.t * InMemorySessionRepository.t * rng) :=
  let companies :=
    foldl (λ companies name,
             items_set (company_id_of_name name)
               {| Company.name := name;
                  Company.financials := INITIAL_FINANCIALS;
                  Company.decisions := ∅;
                  Company.agent_chat := [];
                  Company.active_question_id := None;
                  Company.selected_option_id := None;
                  Company.question_history := Some [] |}
               companies)
          [] company_names in
  let new_session :=
    {| Session.id := session_id;
       Session.game_code := game_code;
       Session.game_status := "Q1";
       Session.current_quarter := 1;
       Session.last_update_time := now;
       Session.companies := companies |} in
  let '(_, repository) := InMemorySessionRepository.save repository new_session in
  SessionService.assign_quarter_questions repository session_id g.

Definition get_session (repository : InMemorySessionRepository.t) (session_id : string)
    : res Session.t :=
  match InMemorySessionRepository.get_by_id repository session_id with
  | Some session => Ok session
  | None => Raise (http_404 "Session not found")
  end.

Definition company_not_found (company_id : string) : exn :=
  http_404 ("Company '" +:+ company_id +:+ "' not found in session").

Definition with_companies (session : Session.t) (companies : list (string * Company.t))
    : Session.t :=
  {| Session.id := Session.id session;
     Session.game_code := Session.game_code session;
     Session.game_status := Session.game_status session;
     Session.current_quarter := Session.current_quarter session;
     Session.last_update_time := Session.last_update_time session;
     Session.companies := companies |}.

Definition submit_decision (repository : InMemorySessionRepository.t)
    (session_id company_id : string) (production price marketing : Qc)
    : res (Session.t * InMemorySessionRepository.t) :=
  session ← get_session repository session_id;
  match items_get company_id (Session.companies session) with
  | None => Raise (company_not_found company_id)
  | Some company =>
      let company :=
        {| Company.name := Company.name company;
           Company.financials := Company.financials company;
           Company.decisions :=
             {[ "production" := production; "price" := price; "marketing" := marketing ]};
           Company.agent_chat := Company.agent_chat company;
           Company.active_question_id := Company.active_question_id company;
           Company.selected_option_id := Company.selected_option_id company;
           Company.question_history := Company.question_history company |} in
      Ok (InMemorySessionRepository.save repository
            (with_companies session (items_set company_id company (Session.companies session))))
  end.

Definition submit_answer (repository : InMemorySessionRepository.t)
    (session_id company_id option_id : string)
    : res (Session.t * InMemorySessionRepository.t) :=
  session ← get_session repository session_id;
  match items_get company_id (Session.companies session) with
  | None => Raise (company_not_found company_id)
  | Some company =>
      let company :=
        {| Company.name := Company.name company;
           Company.financials := Company.financials company;
           Company.decisions := Company.decisions company;
           Company.agent_chat := Company.agent_chat company;
           Company.active_question_id := Company.active_question_id company;
           Company.selected_option_id := Some option_id;
           Company.question_history := Company.question_history company |} in
      Ok (InMemorySessionRepository.save repository
            (with_companies session (items_set company_id company (Session.companies session))))
  end.

(** [except ValueError as e: raise HTTPException(status_code=404, ...)];
    any other exception propagates. *)
Definition value_error_to_404 {A : Type} (r : res A) : res A :=
  match r with
  | Raise (ValueError msg) => Raise (http_404 msg)
  | _ => r
  end.

Definition close_quarter (repository : InMemorySessionRepository.t)
    (session_id : string) (now : Z) (g : rng)
    : res (Session.t * InMemorySessionRepository.t * rng) :=
  value_error_to_404 (
    '(updated_session, repository, g) ← SessionService.close_quarter repository session_id g;
    if decide (Session.game_status updated_session ≠ "Finished") then
      '(session_with_new_questions, repository, g) ←
        SessionService.assign_quarter_questions repository session_id g;
      let session_with_new_questions :=
        {| Session.id := Session.id session_with_new_questions;
           Session.game_code := Session.game_code session_with_new_questions;
           Session.game_status := Session.game_status session_with_new_questions;
           Session.current_quarter := Session.current_quarter session_with_new_questions;
           Session.last_update_time := now;
           Session.companies := Session.companies session_with_new_questions |} in
      let '(saved, repository) :=
        InMemorySessionRepository.save repository session_with_new_questions in
      Ok (saved, repository, g)
    else Ok (updated_session, repository, g)).
End Api.

(** ** Vocabulary of the specification *)

(** The minimum and the maximum of the order on the rationals, in which the
    specification states its formulas. *)
Definition Qc_min (a b : Qc) : Qc := if decide (a ≤ b) then a else b.
Definition Qc_max (a b : Qc) : Qc := if decide (a ≤ b) then b else a.

(** A decision with its three fields, as the dictionary the callers pass
    ([submit_decision] builds exactly this one). *)
Definition decision_dict (production price marketing : Qc) : gmap string Qc :=
  {[ "production" := production; "price" := price; "marketing" := marketing ]}.

(** A [Decision] of the data model: the three fields, none negative. *)
Definition well_formed_decision (decision : gmap string Qc) : Prop :=
  ∃ production price marketing,
    decision = decision_dict production price marketing
    ∧ 0 ≤ production ∧ 0 ≤ price ∧ 0 ≤ marketing.

(** The decision that [close_quarter] hands to [simulate_quarter] for a
    company: the lines of [close_company] up to [effective_decision]. *)
Definition fed_decision (company : Company.t) (g : rng) : res (gmap string Qc) :=
  '(question_id, _) ← resolve_question_id company g;
  Ok (resolve_effective_decision (Company.decisions company)
        (resolve_selected_option question_id (Company.selected_option_id company))).

(** The effective decision in the words of the specification: look up the
    active question; if found, search its options for one matching
    [selected_option_id]; if a match exists, transform the base decision
    with it; otherwise the base decision unchanged. *)
Definition spec_effective_decision (company : Company.t) : gmap string Qc :=
  let base_decision := Company.decisions company in
  match Company.active_question_id company with
  | None => base_decision
  | Some question_id =>
      match QUESTION_INDEX !! question_id with
      | None => base_decision
      | Some question =>
          match list_find (λ option_, Some (QuestionOption.id option_)
                                      = Company.selected_option_id company)
                          (Question.options question) with
          | Some (_, option_) => apply_option_impact base_decision option_
          | None => base_decision
          end
      end
  end.

(** The quarter closes for a company with the decision [decision]: the
    snapshot appended to its history is the engine's result on its latest
    snapshot and [decision]. *)
Definition closes_with (company : Company.t) (g : rng) (decision : gmap string Qc) : Prop :=
  ∃ previous result updated g',
    last (Company.financials company) = Some previous
    ∧ simulate_quarter previous decision = Ok result
    ∧ close_company company g = Ok (updated, g')
    ∧ Company.financials updated = Company.financials company ++ [result].

(** The position of a status on the line Q1, Q2, Q3, Q4, Finished; [0] for
    any other string. *)
Definition status_rank (game_status : string) : nat :=
  if decide (game_status = "Q1") then 1
  else if decide (game_status = "Q2") then 2
  else if decide (game_status = "Q3") then 3
  else if decide (game_status = "Q4") then 4
  else if decide (game_status = "Finished") then 5
  else 0.

(** ** The session state machine

    The operations that change the repository: the endpoints of [main.py]
    and the two methods of [SessionService] called on their own. *)
Inductive request : Type :=
  | CreateSession (company_names : list string) (session_id game_code : string) (now : Z)
  | AssignQuarterQuestions (session_id : string)
  | SubmitDecision (session_id company_id : string) (production price marketing : Qc)
  | SubmitAnswer (session_id company_id option_id : string)
  | ServiceCloseQuarter (session_id : string)
  | CloseQuarter (session_id : string) (now : Z).

Definition handle (req : request) (repository : InMemorySessionRepository.t) (g : rng)
    : res (InMemorySessionRepository.t * rng) :=
  match req with
  | CreateSession company_names session_id game_code now =>
      '(_, repository, g) ←
        Api.create_session repository company_names session_id game_code now g;
      Ok (repository, g)
  | AssignQuarterQuestions session_id =>
      '(_, repository, g) ← SessionService.assign_quarter_questions repository session_id g;
      Ok (repository, g)
  | SubmitDecision session_id company_id production price marketing =>
      '(_, repository) ←
        Api.submit_decision repository session_id company_id production price marketing;
      Ok (repository, g)
  | SubmitAnswer session_id company_id option_id =>
      '(_, repository) ← Api.submit_answer repository session_id company_id option_id;
      Ok (repository, g)
  | ServiceCloseQuarter session_id =>
      '(_, repository, g) ← SessionService.close_quarter repository session_id g;
      Ok (repository, g)
  | CloseQuarter session_id now =>
      '(_, repository, g) ← Api.close_quarter repository session_id now g;
      Ok (repository, g)
  end.

(** The session a request addresses, and whether the request closes the
    quarter of that session. *)
Definition target (req : request) : string :=
  match req with
  | CreateSession _ session_id _ _
  | AssignQuarterQuestions session_id
  | SubmitDecision session_id _ _ _ _
  | SubmitAnswer session_id _ _
  | ServiceCloseQuarter session_id
  | CloseQuarter session_id _ => session_id
  end.

Definition closes (req : request) : bool :=
  match req with
  | ServiceCloseQuarter _ | CloseQuarter _ _ => true
  | _ => false
  end.

(** [uuid.uuid4()] does not return the id of a stored session. *)
Definition fresh (req : request) (repository : InMemorySessionRepository.t) : Prop :=
  match req with
  | CreateSession _ session_id _ _ =>
      InMemorySessionRepository.get_by_id repository session_id = None
  | _ => True
  end.

(** The repositories the operations can build from the empty one. *)
Inductive reachable : InMemorySessionRepository.t → Prop :=
  | reachable_empty : reachable (InMemorySessionRepository.mk ∅)
  | reachable_handle req repository g repository' g' :
      reachable repository →
      fresh req repository →
      handle req repository g = Ok (repository', g') →
      reachable repository'.

(** What every stored session satisfies: it is stored under its id, its
    quarter counter is at least 1 and its status is the one of its quarter. *)
Definition session_ok (session_id : string) (session : Session.t) : Prop :=
  Session.id session = session_id
  ∧ (1 ≤ Session.current_quarter session)%Z
  ∧ Session.game_status session = status_of_quarter (Session.current_quarter session).

Definition repository_ok (repository : InMemorySessionRepository.t) : Prop :=
  ∀ session_id session,
    InMemorySessionRepository.get_by_id repository session_id = Some session →
    session_ok session_id session.

(** What the requests keep true of every company of a session whose
    quarter counter is [current_quarter]: the snapshots of its financial
    history are numbered from 0 to [current_quarter - 1]; its pending
    decision is empty or has the three fields; its active question and the
    questions of its history are questions of the catalog. *)
Definition company_ok (current_quarter : Z) (company : Company.t) : Prop :=
  FinancialSnapshot.quarter <$> Company.financials company = seqZ 0 current_quarter
  ∧ (Company.decisions company = ∅
     ∨ ∃ production price marketing,
         Company.decisions company = decision_dict production price marketing)
  ∧ (∀ question_id, Company.active_question_id company = Some question_id →
       question_id ∈ Question.id <$> QUESTION_BANK)
  ∧ Forall (λ question_id, question_id ∈ Question.id <$> QUESTION_BANK)
      (history_or_empty (Company.question_history company)).

(** The companies of a session: a dict, so the keys are pairwise
    distinct. *)
Definition companies_ok (session : Session.t) : Prop :=
  NoDup (Session.companies session).*1
  ∧ Forall (λ kc, company_ok (Session.current_quarter session) kc.2)
      (Session.companies session).

Definition repository_companies_ok (repository : InMemorySessionRepository.t) : Prop :=
  ∀ session_id session,
    InMemorySessionRepository.get_by_id repository session_id = Some session →
    companies_ok session.

(** A company whose quarter can be closed: it has a pending decision, or
    it has selected one of the options "A", "B", "C". *)
Definition can_close (company : Company.t) : Prop :=
  Company.decisions company ≠ ∅
  ∨ Company.selected_option_id company ∈ [Some "A"; Some "B"; Some "C"].

(** ** Concrete inputs used by the examples below *)

(** A generator whose n-th draw is n, and one that always draws 0. *)
Definition counting_rng : rng := mk_rng (λ n, n) 0.
Definition zero_rng : rng := mk_rng (λ _, 0%nat) 0.

Definition empty_repository : InMemorySessionRepository.t :=
  InMemorySessionRepository.mk ∅.


(** A company with a full pending decision and a selected option "A" but
    no active question. *)
Definition company_without_question : Company.t :=
  {| Company.name := "Gamma";
     Company.financials := INITIAL_FINANCIALS;
     Company.decisions := decision_dict (num 1000) (num 50) (num 2000);
     Company.agent_chat := [];
     Company.active_question_id := None;
     Company.selected_option_id := Some "A";
     Company.question_history := Some [] |}.

(** The game of one company right after [POST /sessions]: a question is
    assigned, no decision has been submitted. *)
Definition new_game : res (Session.t * InMemorySessionRepository.t * rng) :=
  Api.create_session empty_repository ["Alpha Corp"] "s1" "ABC123" 0 counting_rng.

(** One full turn through the endpoints: the company submits a decision,
    then the quarter is closed. *)
Definition play_quarter (state : Session.t * InMemorySessionRepository.t * rng)
    : res (Session.t * InMemorySessionRepository.t * rng) :=
  let '(_, repository, g) := state in
  '(_, repository) ←
    Api.submit_decision repository "s1" "alpha_corp" (num 1500) (num 55) (num 2000);
  Api.close_quarter repository "s1" 0 g.

(** The same game after its four quarters have been played. *)
Definition finished_game : res (Session.t * InMemorySessionRepository.t * rng) :=
  state ← new_game;
  state ← play_quarter state;
  state ← play_quarter state;
  state ← play_quarter state;
  play_quarter state.

(** The state after a list of requests, the most recent one first, handled
    from the empty repository with the generator [counting_rng]. *)
Fixpoint after (requests : list request) : res (InMemorySessionRepository.t * rng) :=
  match requests with
  | [] => Ok (empty_repository, counting_rng)
  | req :: earlier => '(repository, g) ← after earlier; handle req repository g
  end.

Definition repository_after (requests : list request) : InMemorySessionRepository.t :=
  match after requests with
  | Ok (repository, _) => repository
  | Raise _ => empty_repository
  end.

Definition rng_after (requests : list request) : rng :=
  match after requests with
  | Ok (_, g) => g
  | Raise _ => counting_rng
  end.

(** The game of one company in its fourth quarter, the decision of the
    quarter submitted. *)
Definition fourth_quarter : list request :=
  [ SubmitDecision "s1" "alpha_corp" (num 1500) (num 55) (num 2000);
    CloseQuarter "s1" 0;
    SubmitDecision "s1" "alpha_corp" (num 1500) (num 55) (num 2000);
    CloseQuarter "s1" 0;
    SubmitDecision "s1" "alpha_corp" (num 1500) (num 55) (num 2000);
    CloseQuarter "s1" 0;
    SubmitDecision "s1" "alpha_corp" (num 1500) (num 55) (num 2000);
    CreateSession ["Alpha Corp"] "s1" "ABC123" 0 ].

(** The game of two companies right after its creation, and the same game
    once the first company has answered its question with option "A" and
    the second one has submitted a decision. *)
Definition first_quarter : list request :=
  [ CreateSession ["Alpha Corp"; "Beta Inc"] "s1" "ABC123" 0 ].

Definition first_quarter_played : list request :=
  SubmitDecision "s1" "beta_inc" (num 1200) (num 48) (num 2500)
  :: SubmitAnswer "s1" "alpha_corp" "A"
  :: first_quarter.

(** The same game after the endpoint has closed its first quarter. *)
Definition second_quarter : list request :=
  CloseQuarter "s1" 0 :: first_quarter_played.

(** * Properties *)

(** ** Arithmetic of the rationals, [py_max] and [py_min] *)

(** Two canonical rationals are equal when their values are: closed goals
    are settled by evaluation. *)
Ltac qc_eval := apply Qc_is_canon; vm_compute; reflexivity.

(** Inequalities between canonical rationals are inequalities between their
    values, where linear arithmetic applies. *)
Ltac qc_to_q :=
  unfold Qcle, Qclt, Qcplus, Qcmult, Qcminus, Qcopp in *;
  cbn [this Q2Qc] in *;
  repeat (setoid_rewrite Qred_correct);
  repeat match goal with H : _ |- _ => setoid_rewrite Qred_correct in H end.

Lemma Qcopp_0 : - 0 = 0.
Proof. qc_eval. Qed.

Lemma Qcopp_pos_of_neg (x : Qc) : x < 0 → 0 < - x.
Proof.
  intros H. apply Qcnot_le_lt. intros Hle.
  apply Qcopp_le_compat in Hle. rewrite Qcopp_involutive, Qcopp_0 in Hle.
  exact (Qclt_not_le _ _ H Hle).
Qed.

Lemma Qcopp_neg_of_pos (x : Qc) : 0 < - x → x < 0.
Proof.
  intros H. apply Qcnot_le_lt. intros Hle.
  apply Qcopp_le_compat in Hle. rewrite Qcopp_0 in Hle.
  exact (Qclt_not_le _ _ H Hle).
Qed.

Lemma py_max_Qc_max (a b : Qc) : py_max a b = Qc_max a b.
Proof.
  unfold py_max, Qc_max. destruct (decide (a < b)) as [Hlt|Hnlt], (decide (a ≤ b)) as [Hle|Hnle].
  - reflexivity.
  - destruct Hnle. by apply Qclt_le_weak.
  - apply Qcle_antisym; [done | by apply Qcnot_lt_le].
  - reflexivity.
Qed.

Lemma py_min_Qc_min (a b : Qc) : py_min a b = Qc_min a b.
Proof.
  unfold py_min, Qc_min. destruct (decide (b < a)) as [Hlt|Hnlt], (decide (a ≤ b)) as [Hle|Hnle].
  - destruct (Qclt_not_le _ _ Hlt Hle).
  - reflexivity.
  - reflexivity.
  - destruct Hnlt. by apply Qcnot_le_lt.
Qed.

(** [Qc_min] is the greatest lower bound and [Qc_max] the least upper bound
    of their arguments. *)
Lemma Qc_min_glb (a b c : Qc) : c ≤ Qc_min a b ↔ c ≤ a ∧ c ≤ b.
Proof.
  unfold Qc_min. destruct (decide (a ≤ b)) as [Hle|Hnle]; split.
  - intros H. split; [done | by apply Qcle_trans with a].
  - by intros [H _].
  - intros H. split; [|done].
    apply Qcle_trans with b; [done|]. apply Qclt_le_weak. by apply Qcnot_le_lt.
  - by intros [_ H].
Qed.

Lemma Qc_max_lub (a b c : Qc) : Qc_max a b ≤ c ↔ a ≤ c ∧ b ≤ c.
Proof.
  unfold Qc_max. destruct (decide (a ≤ b)) as [Hle|Hnle]; split.
  - intros H. split; [by apply Qcle_trans with b | done].
  - by intros [_ H].
  - intros H. split; [done|].
    apply Qcle_trans with a; [|done]. apply Qclt_le_weak. by apply Qcnot_le_lt.
  - by intros [H _].
Qed.

Lemma py_max_0_nonneg (x : Qc) : 0 ≤ py_max 0 x.
Proof.
  rewrite py_max_Qc_max. unfold Qc_max. destruct (decide (0 ≤ x)); [done | apply Qcle_refl].
Qed.

Lemma py_max_0_of_pos (x : Qc) : 0 < x → py_max 0 x = x.
Proof. intros H. unfold py_max. by destruct (decide (0 < x)). Qed.

Lemma py_max_0_of_nonpos (x : Qc) : ¬ 0 < x → py_max 0 x = 0.
Proof. intros H. unfold py_max. by destruct (decide (0 < x)). Qed.

(** ** The financial engine *)

Lemma Decision_of_kwargs_dict (production price marketing : Qc) :
  Decision_of_kwargs (decision_dict production price marketing)
  = Ok (Decision.mk production price marketing).
Proof. reflexivity. Qed.

(** A dictionary that [simulate_quarter] accepts is a decision with its
    three fields. *)
Lemma Decision_of_kwargs_inv (decision : gmap string Qc) (d : Decision.t) :
  Decision_of_kwargs decision = Ok d →
  decision = decision_dict (Decision.production d) (Decision.price d) (Decision.marketing d).
Proof.
  unfold Decision_of_kwargs.
  destruct (decision !! "production") as [p|] eqn:Hp; [|by destruct (decision !! "price")].
  destruct (decision !! "price") as [pr|] eqn:Hpr; [|done].
  destruct (decision !! "marketing") as [m|] eqn:Hm; [|done].
  case_decide as Hsize; [|done]. intros [= <-]. simpl.
  assert (Hsub : decision_dict p pr m ⊆ decision).
  { unfold decision_dict. apply map_subseteq_spec. intros k v Hk.
    rewrite !lookup_insert_Some, lookup_singleton_Some in Hk.
    destruct Hk as [[<- <-]|[_ [[<- <-]|[_ [<- <-]]]]]; done. }
  symmetry. apply (map_subseteq_size_eq _ _ Hsub). by rewrite Hsize.
Qed.

Lemma calculate_ratios_total (s : FinancialSnapshot.t) :
  ∃ liquidity_ratio net_margin,
    calculate_ratios s = Ok (liquidity_ratio, net_margin)
    ∧ (FinancialSnapshot.revenue s = 0 → net_margin = 0)
    ∧ (FinancialSnapshot.revenue s ≠ 0 →
       net_margin = FinancialSnapshot.net_income s / FinancialSnapshot.revenue s)
    ∧ (FinancialSnapshot.debt s = 0 → liquidity_ratio = PosInf)
    ∧ (FinancialSnapshot.debt s ≠ 0 →
       liquidity_ratio
       = Fin ((FinancialSnapshot.cash s + FinancialSnapshot.inventory s)
              / FinancialSnapshot.debt s)).
Proof.
  unfold calculate_ratios, py_div.
  destruct (decide (FinancialSnapshot.debt s = 0)) as [Hd|Hd],
           (decide (FinancialSnapshot.revenue s = 0)) as [Hr|Hr];
    cbn; eexists _, _; (split; [reflexivity|]); repeat split; intros; congruence.
Qed.

(** The fields of the snapshot that [simulate_quarter] returns, one
    equation per assignment of the source. *)
Lemma simulate_quarter_inv (previous : FinancialSnapshot.t) (decision : gmap string Qc)
    (s : FinancialSnapshot.t) :
  simulate_quarter previous decision = Ok s →
  ∃ d, Decision_of_kwargs decision = Ok d
    ∧ FinancialSnapshot.quarter s = (FinancialSnapshot.quarter previous + 1)%Z
    ∧ FinancialSnapshot.units_sold s
      = py_min (calculate_demand d)
               (Decision.production d + FinancialSnapshot.inventory previous)
    ∧ FinancialSnapshot.revenue s = FinancialSnapshot.units_sold s * Decision.price d
    ∧ FinancialSnapshot.cogs s
      = FinancialSnapshot.units_sold s * SimulationConstants.cost_per_unit SIMULATION_CONSTANTS
    ∧ FinancialSnapshot.gross_profit s = FinancialSnapshot.revenue s - FinancialSnapshot.cogs s
    ∧ FinancialSnapshot.operating_expenses s
      = SimulationConstants.fixed_opex SIMULATION_CONSTANTS + Decision.marketing d
    ∧ FinancialSnapshot.ebit s
      = FinancialSnapshot.gross_profit s - FinancialSnapshot.operating_expenses s
    ∧ FinancialSnapshot.taxes s
      = py_max 0 (FinancialSnapshot.ebit s * SimulationConstants.tax_rate SIMULATION_CONSTANTS)
    ∧ FinancialSnapshot.net_income s = FinancialSnapshot.ebit s - FinancialSnapshot.taxes s
    ∧ (let new_cash :=
         FinancialSnapshot.cash previous
         + (FinancialSnapshot.revenue s
            - Decision.production d * SimulationConstants.cost_per_unit SIMULATION_CONSTANTS
            - FinancialSnapshot.operating_expenses s) in
       FinancialSnapshot.debt s = py_max 0 (- new_cash)
       ∧ FinancialSnapshot.cash s = py_max 0 new_cash)
    ∧ FinancialSnapshot.inventory s
      = FinancialSnapshot.inventory previous + Decision.production d
        - FinancialSnapshot.units_sold s
    ∧ FinancialSnapshot.equity s
      = FinancialSnapshot.equity previous + FinancialSnapshot.net_income s
    ∧ FinancialSnapshot.production s = Decision.production d
    ∧ FinancialSnapshot.price s = Decision.price d
    ∧ FinancialSnapshot.marketing s = Decision.marketing d
    ∧ calculate_ratios s
      = Ok (FinancialSnapshot.liquidity_ratio s, FinancialSnapshot.net_margin s).
Proof.
  unfold simulate_quarter. destruct (Decision_of_kwargs decision) as [d|e]; [|done].
  cbn -[calculate_ratios calculate_demand py_min py_max SIMULATION_CONSTANTS].
  match goal with |- context [calculate_ratios ?snap] =>
    destruct (calculate_ratios snap) as [[lr nm]|e] eqn:Hr; [|done] end.
  cbn -[calculate_ratios calculate_demand py_min py_max SIMULATION_CONSTANTS].
  intros [= <-]. exists d. cbn -[calculate_ratios calculate_demand py_min py_max SIMULATION_CONSTANTS].
  repeat split; try reflexivity. exact Hr.
Qed.

Lemma simulate_quarter_total (previous : FinancialSnapshot.t) (production price marketing : Qc) :
  ∃ s, simulate_quarter previous (decision_dict production price marketing) = Ok s.
Proof.
  unfold simulate_quarter. rewrite Decision_of_kwargs_dict.
  cbn -[calculate_ratios calculate_demand py_min py_max SIMULATION_CONSTANTS].
  match goal with |- context [calculate_ratios ?snap] =>
    destruct (calculate_ratios_total snap) as (lr & nm & -> & _) end.
  eexists. reflexivity.
Qed.

(** [simulate_quarter] raises nothing but the [TypeError] of a dictionary
    that is not a decision. *)
Lemma simulate_quarter_raises (previous : FinancialSnapshot.t) (decision : gmap string Qc)
    (e : exn) :
  simulate_quarter previous decision = Raise e →
  e = TypeError ∧ Decision_of_kwargs decision = Raise TypeError.
Proof.
  unfold simulate_quarter. destruct (Decision_of_kwargs decision) as [d|e'] eqn:Hd.
  - cbn -[calculate_ratios calculate_demand py_min py_max SIMULATION_CONSTANTS].
    match goal with |- context [calculate_ratios ?snap] =>
      destruct (calculate_ratios_total snap) as (lr & nm & -> & _) end.
    done.
  - cbn. intros [= <-]. revert Hd. unfold Decision_of_kwargs.
    repeat case_match; intros [= <-]; done.
Qed.

(** C1. [simulate_quarter] reproduces the two worked examples of the
    specification: from quarter 0 with cash 50000, inventory 1000, equity
    50000 and no debt, the decision production 1500, price 55, marketing
    2000 gives quarter 1, 1300 units sold, revenue 71500, cogs 32500,
    operating expenses 12000, ebit 27000, taxes 5400, net income 21600,
    cash 72000, inventory 1200, debt 0 and equity 71600; from cash 1000,
    no inventory, equity 1000 and no debt, the decision production 0, price
    30, marketing 0 gives 0 units sold, net income -10000, cash 0, debt
    9000, equity -9000, liquidity ratio 0 and net margin 0. The fields of
    the previous snapshot that the examples do not name are arbitrary. *)
Theorem simulate_quarter_worked_examples (previous : FinancialSnapshot.t) :
  FinancialSnapshot.quarter previous = 0%Z →
  FinancialSnapshot.debt previous = num 0 →
  (FinancialSnapshot.cash previous = num 50000 →
   FinancialSnapshot.inventory previous = num 1000 →
   FinancialSnapshot.equity previous = num 50000 →
   ∃ s, simulate_quarter previous (decision_dict (num 1500) (num 55) (num 2000)) = Ok s
     ∧ FinancialSnapshot.quarter s = 1%Z
     ∧ FinancialSnapshot.units_sold s = num 1300
     ∧ FinancialSnapshot.revenue s = num 71500
     ∧ FinancialSnapshot.cogs s = num 32500
     ∧ FinancialSnapshot.operating_expenses s = num 12000
     ∧ FinancialSnapshot.ebit s = num 27000
     ∧ FinancialSnapshot.taxes s = num 5400
     ∧ FinancialSnapshot.net_income s = num 21600
     ∧ FinancialSnapshot.cash s = num 72000
     ∧ FinancialSnapshot.inventory s = num 1200
     ∧ FinancialSnapshot.debt s = num 0
     ∧ FinancialSnapshot.equity s = num 71600)
  ∧ (FinancialSnapshot.cash previous = num 1000 →
     FinancialSnapshot.inventory previous = num 0 →
     FinancialSnapshot.equity previous = num 1000 →
     ∃ s, simulate_quarter previous (decision_dict (num 0) (num 30) (num 0)) = Ok s
       ∧ FinancialSnapshot.units_sold s = num 0
       ∧ FinancialSnapshot.net_income s = num (-10000)
       ∧ FinancialSnapshot.cash s = num 0
       ∧ FinancialSnapshot.debt s = num 9000
       ∧ FinancialSnapshot.equity s = num (-9000)
       ∧ FinancialSnapshot.liquidity_ratio s = Fin (num 0)
       ∧ FinancialSnapshot.net_margin s = num 0).
Proof.
  intros Hquarter Hdebt. split; intros Hcash Hinventory Hequity.
  - destruct (simulate_quarter_total previous (num 1500) (num 55) (num 2000)) as [s Hs].
    exists s. split; [exact Hs|].
    apply simulate_quarter_inv in Hs as (d & Hd & Hs).
    rewrite Decision_of_kwargs_dict in Hd. injection Hd as <-.
    cbn [Decision.production Decision.price Decision.marketing] in Hs.
    rewrite Hquarter, Hcash, Hinventory, Hequity in Hs.
    destruct Hs as (Hq & Hu & Hrev & Hcogs & Hgp & Hopex & Hebit & Htax & Hni
                    & [Hdebt' Hcash'] & Hinv & Heq & _).
    rewrite Hu in *. rewrite Hrev in *. rewrite Hcogs in *. rewrite Hgp in *.
    rewrite Hopex in *. rewrite Hebit in *. rewrite Htax in *. rewrite Hni in *.
    rewrite Hq, Hdebt', Hcash', Hinv, Heq.
    repeat split; try reflexivity; qc_eval.
  - destruct (simulate_quarter_total previous (num 0) (num 30) (num 0)) as [s Hs].
    exists s. split; [exact Hs|].
    apply simulate_quarter_inv in Hs as (d & Hd & Hs).
    rewrite Decision_of_kwargs_dict in Hd. injection Hd as <-.
    cbn [Decision.production Decision.price Decision.marketing] in Hs.
    rewrite Hcash, Hinventory, Hequity in Hs.
    destruct Hs as (Hq & Hu & Hrev & Hcogs & Hgp & Hopex & Hebit & Htax & Hni
                    & [Hdebt' Hcash'] & Hinv & Heq & _ & _ & _ & Hratios).
    rewrite Hu in *. rewrite Hrev in *. rewrite Hcogs in *. rewrite Hgp in *.
    rewrite Hopex in *. rewrite Hebit in *. rewrite Htax in *. rewrite Hni in *.
    assert (Hd9000 : FinancialSnapshot.debt s = num 9000) by (rewrite Hdebt'; qc_eval).
    assert (Hc0 : FinancialSnapshot.cash s = num 0) by (rewrite Hcash'; qc_eval).
    assert (Hi0 : FinancialSnapshot.inventory s = num 0) by (rewrite Hinv; qc_eval).
    destruct (calculate_ratios_total s) as (lr & nm & Hr & Hnm0 & _ & _ & Hlr).
    rewrite Hratios in Hr. injection Hr as <- <-.
    assert (Hn0 : FinancialSnapshot.net_margin s = num 0).
    { apply Hnm0. rewrite Hrev. qc_eval. }
    assert (Hl0 : FinancialSnapshot.liquidity_ratio s = Fin (num 0)).
    { rewrite Hlr.
      - rewrite Hd9000, Hc0, Hi0. f_equal. qc_eval.
      - rewrite Hd9000. intros H. apply (f_equal this) in H. vm_compute in H. discriminate H. }
    split; [qc_eval|]. split; [qc_eval|]. split; [exact Hc0|]. split; [exact Hd9000|].
    split; [rewrite Heq; qc_eval|]. split; [exact Hl0 | exact Hn0].
Qed.

(** The first example, on the seeded quarter-0 snapshot of [main.py]. *)
Lemma simulate_quarter_worked_examples_witness :
  ∃ s, simulate_quarter
         (FinancialSnapshot.mk 0 (num 50000) (num 1000) (num 50000) (num 0) 0 0 0 0 0 0 0 0
            (Fin 0) 0 0 0 0)
         (decision_dict (num 1500) (num 55) (num 2000)) = Ok s
    ∧ FinancialSnapshot.units_sold s = num 1300.
Proof.
  destruct (simulate_quarter_worked_examples
              (FinancialSnapshot.mk 0 (num 50000) (num 1000) (num 50000) (num 0)
                 0 0 0 0 0 0 0 0 (Fin 0) 0 0 0 0) eq_refl eq_refl) as [H _].
  destruct (H eq_refl eq_refl eq_refl) as (s & Hs & _ & Hu & _).
  exists s. split; [exact Hs | exact Hu].
Defined.

(** C2. For every previous state with non-negative inventory and every
    decision with non-negative production, price and marketing,
    [simulate_quarter] returns a snapshot whose [units_sold] is the minimum
    of the demand and of production plus previous inventory, where the
    demand is the maximum of 0 and
    [base_demand + (reference_price - price) * price_elasticity
     + marketing * marketing_effect_per_dollar]; and [units_sold] is not
    negative. *)
Theorem units_sold_min_demand_supply (previous : FinancialSnapshot.t)
    (production price marketing : Qc) :
  0 ≤ FinancialSnapshot.inventory previous →
  0 ≤ production → 0 ≤ price → 0 ≤ marketing →
  ∃ s, simulate_quarter previous (decision_dict production price marketing) = Ok s
    ∧ (let demand :=
         Qc_max 0
           (SimulationConstants.base_demand SIMULATION_CONSTANTS
            + (SimulationConstants.reference_price SIMULATION_CONSTANTS - price)
              * SimulationConstants.price_elasticity SIMULATION_CONSTANTS
            + marketing * SimulationConstants.marketing_effect_per_dollar SIMULATION_CONSTANTS) in
       FinancialSnapshot.units_sold s
       = Qc_min demand (production + FinancialSnapshot.inventory previous))
    ∧ 0 ≤ FinancialSnapshot.units_sold s.
Proof.
  intros Hinventory Hproduction _ _.
  destruct (simulate_quarter_total previous production price marketing) as [s Hs].
  exists s. split; [exact Hs|].
  apply simulate_quarter_inv in Hs as (d & Hd & _ & Hu & _).
  rewrite Decision_of_kwargs_dict in Hd. injection Hd as <-.
  cbn [Decision.production Decision.price Decision.marketing] in Hu.
  rewrite Hu, py_min_Qc_min. unfold calculate_demand.
  cbn [Decision.production Decision.price Decision.marketing].
  rewrite py_max_Qc_max. split; [reflexivity|].
  apply Qc_min_glb. split.
  - rewrite <- py_max_Qc_max. apply py_max_0_nonneg.
  - by apply Qcplus_nonneg_nonneg.
Qed.

Lemma units_sold_min_demand_supply_witness :
  ∃ s, simulate_quarter
         (FinancialSnapshot.mk 0 (num 50000) (num 1000) (num 50000) (num 0) 0 0 0 0 0 0 0 0
            (Fin 0) 0 0 0 0)
         (decision_dict (num 1500) (num 55) (num 2000)) = Ok s
    ∧ 0 ≤ FinancialSnapshot.units_sold s.
Proof.
  destruct (units_sold_min_demand_supply
              (FinancialSnapshot.mk 0 (num 50000) (num 1000) (num 50000) (num 0)
                 0 0 0 0 0 0 0 0 (Fin 0) 0 0 0 0)
              (num 1500) (num 55) (num 2000))
    as (s & Hs & _ & Hu); [vm_compute; discriminate ..|].
  exists s. split; [exact Hs | exact Hu].
Defined.

(** ** The cash flow in binary64

    The order of binary64 numbers around 0, from the specification of the
    comparisons and of the opposite. *)
Lemma float_negative (x : float) :
  (x <? 0)%float = true → (0 <? - x)%float = true ∧ (0 <? x)%float = false.
Proof.
  rewrite !ltb_spec, opp_spec. change (Prim2SF 0) with (S754_zero false).
  destruct (Prim2SF x) as [sign|sign| |sign m e]; try destruct sign; cbn;
    intuition congruence.
Qed.

Lemma float_positive (x : float) :
  (0 <? x)%float = true → (0 <? - x)%float = false ∧ (0 <=? x)%float = true.
Proof.
  rewrite !ltb_spec, leb_spec, opp_spec. change (Prim2SF 0) with (S754_zero false).
  destruct (Prim2SF x) as [sign|sign| |sign m e]; try destruct sign; cbn;
    intuition congruence.
Qed.

Lemma float_zero (x : float) :
  (x =? 0)%float = true → (0 <? x)%float = false ∧ (0 <? - x)%float = false.
Proof.
  rewrite !ltb_spec, eqb_spec, opp_spec. change (Prim2SF 0) with (S754_zero false).
  destruct (Prim2SF x) as [sign|sign| |sign m e]; try destruct sign; cbn;
    intuition congruence.
Qed.

(** [max(0, x)] is never below 0, also when [x] is not a number. *)
Lemma Binary64_py_max_0_nonneg (x : float) : (0 <=? Binary64.py_max 0 x)%float = true.
Proof.
  unfold Binary64.py_max. destruct (0 <? x)%float eqn:Hpos.
  - by apply float_positive.
  - reflexivity.
Qed.

Lemma Binary64_Decision_of_kwargs_inv (decision : gmap string float)
    (d : Binary64.Decision.t) :
  Binary64.Decision_of_kwargs decision = Ok d →
  decision
  = {[ "production" := Binary64.Decision.production d;
       "price" := Binary64.Decision.price d;
       "marketing" := Binary64.Decision.marketing d ]}.
Proof.
  unfold Binary64.Decision_of_kwargs.
  destruct (decision !! "production") as [p|] eqn:Hp; [|by destruct (decision !! "price")].
  destruct (decision !! "price") as [pr|] eqn:Hpr; [|done].
  destruct (decision !! "marketing") as [m|] eqn:Hm; [|done].
  case_decide as Hsize; [|done]. intros [= <-]. simpl.
  assert (Hsub : ({[ "production" := p; "price" := pr; "marketing" := m ]}
                  : gmap string float) ⊆ decision).
  { apply map_subseteq_spec. intros k v Hk.
    rewrite !lookup_insert_Some, lookup_singleton_Some in Hk.
    destruct Hk as [[<- <-]|[_ [[<- <-]|[_ [<- <-]]]]]; assumption. }
  symmetry. apply (map_subseteq_size_eq _ _ Hsub). by rewrite Hsize.
Qed.

Lemma Binary64_calculate_ratios_total (s : Binary64.FinancialSnapshot.t) :
  ∃ liquidity_ratio net_margin,
    Binary64.calculate_ratios s = Ok (liquidity_ratio, net_margin).
Proof.
  unfold Binary64.calculate_ratios, Binary64.py_div.
  destruct (Binary64.FinancialSnapshot.debt s =? 0)%float,
           (Binary64.FinancialSnapshot.revenue s =? 0)%float;
    cbn; eexists _, _; reflexivity.
Qed.

(** The lines of the cash flow, one equation per assignment of the
    source. *)
Lemma Binary64_simulate_quarter_inv (previous : Binary64.FinancialSnapshot.t)
    (decision : gmap string float) (s : Binary64.FinancialSnapshot.t) :
  Binary64.simulate_quarter previous decision = Ok s →
  ∃ d, Binary64.Decision_of_kwargs decision = Ok d
    ∧ Binary64.FinancialSnapshot.production s = Binary64.Decision.production d
    ∧ Binary64.FinancialSnapshot.units_sold s
      = Binary64.py_min (Binary64.calculate_demand d)
          (Binary64.Decision.production d + Binary64.FinancialSnapshot.inventory previous)%float
    ∧ Binary64.FinancialSnapshot.revenue s
      = (Binary64.FinancialSnapshot.units_sold s * Binary64.Decision.price d)%float
    ∧ Binary64.FinancialSnapshot.operating_expenses s
      = (Binary64.SimulationConstants.fixed_opex Binary64.SIMULATION_CONSTANTS
         + Binary64.Decision.marketing d)%float
    ∧ (let new_cash :=
         (Binary64.FinancialSnapshot.cash previous
          + (Binary64.FinancialSnapshot.revenue s
             - Binary64.Decision.production d
               * Binary64.SimulationConstants.cost_per_unit Binary64.SIMULATION_CONSTANTS
             - Binary64.FinancialSnapshot.operating_expenses s))%float in
       Binary64.FinancialSnapshot.debt s = Binary64.py_max 0 (- new_cash)
       ∧ Binary64.FinancialSnapshot.cash s = Binary64.py_max 0 new_cash).
Proof.
  unfold Binary64.simulate_quarter.
  destruct (Binary64.Decision_of_kwargs decision) as [d|e]; [|intros H; discriminate H].
  cbn -[Binary64.calculate_ratios Binary64.calculate_demand Binary64.py_min Binary64.py_max
        Binary64.SIMULATION_CONSTANTS].
  match goal with |- context [Binary64.calculate_ratios ?snap] =>
    destruct (Binary64_calculate_ratios_total snap) as (lr & nm & ->) end.
  cbn -[Binary64.calculate_demand Binary64.py_min Binary64.py_max
        Binary64.SIMULATION_CONSTANTS].
  intros [= <-]. exists d.
  cbn -[Binary64.calculate_demand Binary64.py_min Binary64.py_max
        Binary64.SIMULATION_CONSTANTS].
  repeat split; reflexivity.
Qed.

Lemma Binary64_simulate_quarter_total (previous : Binary64.FinancialSnapshot.t)
    (production price marketing : float) :
  ∃ s, Binary64.simulate_quarter previous
         {[ "production" := production; "price" := price; "marketing" := marketing ]}
       = Ok s.
Proof.
  unfold Binary64.simulate_quarter.
  change (Binary64.Decision_of_kwargs
            {[ "production" := production; "price" := price; "marketing" := marketing ]})
    with (Ok (Binary64.Decision.mk production price marketing)).
  cbn -[Binary64.calculate_ratios Binary64.calculate_demand Binary64.py_min Binary64.py_max
        Binary64.SIMULATION_CONSTANTS].
  match goal with |- context [Binary64.calculate_ratios ?snap] =>
    destruct (Binary64_calculate_ratios_total snap) as (lr & nm & ->) end.
  eexists. reflexivity.
Qed.

(** C3, as the specification states it, fails on the code in the
    arithmetic of the source. With cash 28629.75 and inventory 1000 at
    hand, the decision production 3000, price 40.625, marketing 1 sells
    1387.6 units; the sum of the claim, taken from left to right,
    [previous.cash + revenue - production * cost_per_unit
     - operating_expenses], is exactly 0 in binary64, for which the claim
    gives no debt; the code first forms [cash_change] and then adds it to
    the cash, which gives [new_cash = -2^-37], a debt of [2^-37] (about
    7.28e-12), no cash, and a finite liquidity ratio. *)
Lemma debt_differs_from_the_flat_sum :
  ∃ s, Binary64.simulate_quarter Binary64.tight_state Binary64.tight_decision = Ok s
    ∧ (Binary64.FinancialSnapshot.cash Binary64.tight_state
       + Binary64.FinancialSnapshot.revenue s
       - Binary64.FinancialSnapshot.production s
         * Binary64.SimulationConstants.cost_per_unit Binary64.SIMULATION_CONSTANTS
       - Binary64.FinancialSnapshot.operating_expenses s
       = 0)%float
    ∧ (Binary64.FinancialSnapshot.cash Binary64.tight_state
       + (Binary64.FinancialSnapshot.revenue s
          - Binary64.FinancialSnapshot.production s
            * Binary64.SimulationConstants.cost_per_unit Binary64.SIMULATION_CONSTANTS
          - Binary64.FinancialSnapshot.operating_expenses s)
       = - 0x1p-37)%float
    ∧ (0 <? Binary64.FinancialSnapshot.debt s)%float = true
    ∧ (Binary64.FinancialSnapshot.debt s = 0x1p-37)%float
    ∧ (Binary64.FinancialSnapshot.cash s = 0)%float
    ∧ (Binary64.FinancialSnapshot.liquidity_ratio s <? infinity)%float = true.
Proof.
  eexists. split; [vm_compute; reflexivity|].
  repeat split; vm_compute; reflexivity.
Qed.

(** C3, amended. In every snapshot that [simulate_quarter] produces, debt
    and cash come from the cash flow of the quarter alone, the sum being
    formed as the code forms it, in the binary64 arithmetic of the source:
    with [units_sold], [revenue] and [operating_expenses] computed from the
    decision,
    [cash_change = revenue - production * cost_per_unit
     - operating_expenses] and
    [new_cash = previous.cash + cash_change],
    the debt is [max(0, -new_cash)] and the cash is [max(0, new_cash)]: a
    negative [new_cash] gives [debt = -new_cash] and [cash = 0], a positive
    one gives [debt = 0] and [cash = new_cash], and [new_cash = 0] gives
    neither debt nor cash; neither cash nor debt is negative; and the
    previous debt is not read: the call returns the same snapshot whatever
    [previous.debt] is. *)
Theorem debt_is_this_quarter_shortfall (previous : Binary64.FinancialSnapshot.t)
    (decision : gmap string float) (s : Binary64.FinancialSnapshot.t) :
  Binary64.simulate_quarter previous decision = Ok s →
  ∃ production price marketing,
    decision = {[ "production" := production; "price" := price; "marketing" := marketing ]}
    ∧ (let units_sold :=
         Binary64.py_min
           (Binary64.calculate_demand (Binary64.Decision.mk production price marketing))
           (production + Binary64.FinancialSnapshot.inventory previous)%float in
       let revenue := (units_sold * price)%float in
       let operating_expenses :=
         (Binary64.SimulationConstants.fixed_opex Binary64.SIMULATION_CONSTANTS
          + marketing)%float in
       let cash_change :=
         (revenue
          - production
            * Binary64.SimulationConstants.cost_per_unit Binary64.SIMULATION_CONSTANTS
          - operating_expenses)%float in
       let new_cash := (Binary64.FinancialSnapshot.cash previous + cash_change)%float in
       Binary64.FinancialSnapshot.production s = production
       ∧ Binary64.FinancialSnapshot.revenue s = revenue
       ∧ Binary64.FinancialSnapshot.operating_expenses s = operating_expenses
       ∧ Binary64.FinancialSnapshot.debt s = Binary64.py_max 0 (- new_cash)
       ∧ Binary64.FinancialSnapshot.cash s = Binary64.py_max 0 new_cash
       ∧ ((new_cash <? 0)%float = true →
          Binary64.FinancialSnapshot.debt s = (- new_cash)%float
          ∧ Binary64.FinancialSnapshot.cash s = 0%float)
       ∧ ((0 <? new_cash)%float = true →
          Binary64.FinancialSnapshot.debt s = 0%float
          ∧ Binary64.FinancialSnapshot.cash s = new_cash)
       ∧ ((new_cash =? 0)%float = true →
          Binary64.FinancialSnapshot.debt s = 0%float
          ∧ Binary64.FinancialSnapshot.cash s = 0%float))
    ∧ (0 <=? Binary64.FinancialSnapshot.cash s)%float = true
    ∧ (0 <=? Binary64.FinancialSnapshot.debt s)%float = true
    ∧ ∀ debt',
        Binary64.simulate_quarter (Binary64.FinancialSnapshot.set_debt debt' previous) decision
        = Ok s.
Proof.
  intros Hs. pose proof Hs as Hs'.
  apply Binary64_simulate_quarter_inv in Hs'
    as (d & Hd & Hproduction & Hsold & Hrevenue & Hopex & [Hdebt Hcash]).
  apply Binary64_Decision_of_kwargs_inv in Hd.
  destruct d as [production price marketing].
  cbn [Binary64.Decision.production Binary64.Decision.price Binary64.Decision.marketing] in *.
  exists production, price, marketing. split; [exact Hd|].
  rewrite Hrevenue, Hopex, Hsold in Hdebt, Hcash. rewrite Hsold in Hrevenue.
  cbn zeta.
  match type of Hcash with _ = Binary64.py_max 0 ?c => set (new_cash := c) in * end.
  clearbody new_cash.
  split; [|split; [|split]].
  - split; [exact Hproduction|]. split; [exact Hrevenue|]. split; [exact Hopex|].
    split; [exact Hdebt|]. split; [exact Hcash|].
    rewrite Hdebt, Hcash. unfold Binary64.py_max. split; [|split].
    + intros Hneg. apply float_negative in Hneg as [-> ->]. split; reflexivity.
    + intros Hpos. destruct (float_positive _ Hpos) as [-> _]. rewrite Hpos.
      split; reflexivity.
    + intros Hzero. apply float_zero in Hzero as [-> ->]. split; reflexivity.
  - rewrite Hcash. apply Binary64_py_max_0_nonneg.
  - rewrite Hdebt. apply Binary64_py_max_0_nonneg.
  - intros debt'. exact Hs.
Qed.

Lemma debt_is_this_quarter_shortfall_witness :
  ∃ s, Binary64.simulate_quarter Binary64.tight_state Binary64.tight_decision = Ok s
    ∧ (0 <=? Binary64.FinancialSnapshot.debt s)%float = true
    ∧ Binary64.simulate_quarter
        (Binary64.FinancialSnapshot.set_debt 777%float Binary64.tight_state)
        Binary64.tight_decision
      = Ok s.
Proof.
  eexists. split; [vm_compute; reflexivity|].
  match goal with |- (0 <=? Binary64.FinancialSnapshot.debt ?s)%float = true ∧ _ =>
    destruct (debt_is_this_quarter_shortfall Binary64.tight_state Binary64.tight_decision s)
      as (production & price & marketing & _ & _ & _ & Hdebt & Hsame) end;
    [vm_compute; reflexivity|].
  split; [exact Hdebt | exact (Hsame 777%float)].
Defined.

(** The same statement about the model on the rationals, on which the
    other properties of the engine are stated. *)
Lemma debt_is_this_quarter_shortfall_exact (previous : FinancialSnapshot.t)
    (decision : gmap string Qc) (s : FinancialSnapshot.t) :
  simulate_quarter previous decision = Ok s →
  ∃ production price marketing,
    decision = decision_dict production price marketing
    ∧ (let units_sold :=
         py_min (calculate_demand (Decision.mk production price marketing))
                (production + FinancialSnapshot.inventory previous) in
       let revenue := units_sold * price in
       let operating_expenses :=
         SimulationConstants.fixed_opex SIMULATION_CONSTANTS + marketing in
       let cash_change :=
         revenue
         - production * SimulationConstants.cost_per_unit SIMULATION_CONSTANTS
         - operating_expenses in
       let new_cash := FinancialSnapshot.cash previous + cash_change in
       FinancialSnapshot.production s = production
       ∧ FinancialSnapshot.revenue s = revenue
       ∧ FinancialSnapshot.operating_expenses s = operating_expenses
       ∧ FinancialSnapshot.debt s = py_max 0 (- new_cash)
       ∧ FinancialSnapshot.cash s = py_max 0 new_cash
       ∧ (new_cash < 0 →
          FinancialSnapshot.debt s = - new_cash ∧ FinancialSnapshot.cash s = 0)
       ∧ (0 < new_cash →
          FinancialSnapshot.debt s = 0 ∧ FinancialSnapshot.cash s = new_cash)
       ∧ (new_cash = 0 →
          FinancialSnapshot.debt s = 0 ∧ FinancialSnapshot.cash s = 0))
    ∧ 0 ≤ FinancialSnapshot.cash s
    ∧ 0 ≤ FinancialSnapshot.debt s
    ∧ ∀ debt', simulate_quarter (FinancialSnapshot.set_debt debt' previous) decision = Ok s.
Proof.
  intros Hs. pose proof Hs as Hs'.
  apply simulate_quarter_inv in Hs'
    as (d & Hd & _ & Hsold & Hrevenue & _ & _ & Hopex & _ & _ & _
        & [Hdebt Hcash] & _ & _ & Hproduction & _).
  apply Decision_of_kwargs_inv in Hd.
  destruct d as [production price marketing].
  cbn [Decision.production Decision.price Decision.marketing] in *.
  exists production, price, marketing. split; [exact Hd|].
  rewrite Hrevenue, Hopex, Hsold in Hdebt, Hcash. rewrite Hsold in Hrevenue.
  cbn zeta.
  match type of Hcash with _ = py_max 0 ?c => set (new_cash := c) in * end.
  clearbody new_cash.
  split; [|split; [|split]].
  - split; [exact Hproduction|]. split; [exact Hrevenue|]. split; [exact Hopex|].
    split; [exact Hdebt|]. split; [exact Hcash|]. split.
    + intros Hneg. split.
      * rewrite Hdebt. apply py_max_0_of_pos. by apply Qcopp_pos_of_neg.
      * rewrite Hcash. apply py_max_0_of_nonpos. intros Hpos.
        exact (Qclt_not_le _ _ Hpos (Qclt_le_weak _ _ Hneg)).
    + split.
      * intros Hpos. split.
        -- rewrite Hdebt. apply py_max_0_of_nonpos. intros Hneg.
           apply Qcopp_neg_of_pos in Hneg.
           exact (Qclt_not_le _ _ Hpos (Qclt_le_weak _ _ Hneg)).
        -- rewrite Hcash. by apply py_max_0_of_pos.
      * intros Hzero. rewrite Hdebt, Hcash, Hzero, Qcopp_0. split; reflexivity.
  - rewrite Hcash. apply py_max_0_nonneg.
  - rewrite Hdebt. apply py_max_0_nonneg.
  - intros debt'. exact Hs.
Qed.


(** C8. The ratios are defined on every snapshot: [calculate_ratios]
    always returns; its net margin is [net_income / revenue], and 0 when
    the revenue is 0; its liquidity ratio is [(cash + inventory) / debt],
    and infinity when the debt is 0. No division is reached with a zero
    divisor: [simulate_quarter] stores these two values in the snapshot it
    returns, and the only exception it can raise is the [TypeError] of a
    dictionary that is not a decision. *)
Theorem ratios_are_total :
  (∀ s : FinancialSnapshot.t,
     ∃ liquidity_ratio net_margin,
       calculate_ratios s = Ok (liquidity_ratio, net_margin)
       ∧ (FinancialSnapshot.revenue s = 0 → net_margin = 0)
       ∧ (FinancialSnapshot.revenue s ≠ 0 →
          net_margin = FinancialSnapshot.net_income s / FinancialSnapshot.revenue s)
       ∧ (FinancialSnapshot.debt s = 0 → liquidity_ratio = PosInf)
       ∧ (FinancialSnapshot.debt s ≠ 0 →
          liquidity_ratio
          = Fin ((FinancialSnapshot.cash s + FinancialSnapshot.inventory s)
                 / FinancialSnapshot.debt s)))
  ∧ (∀ (previous : FinancialSnapshot.t) (decision : gmap string Qc),
       match simulate_quarter previous decision with
       | Ok s =>
           (FinancialSnapshot.revenue s = 0 → FinancialSnapshot.net_margin s = 0)
           ∧ (FinancialSnapshot.revenue s ≠ 0 →
              FinancialSnapshot.net_margin s
              = FinancialSnapshot.net_income s / FinancialSnapshot.revenue s)
           ∧ (FinancialSnapshot.debt s = 0 → FinancialSnapshot.liquidity_ratio s = PosInf)
           ∧ (FinancialSnapshot.debt s ≠ 0 →
              FinancialSnapshot.liquidity_ratio s
              = Fin ((FinancialSnapshot.cash s + FinancialSnapshot.inventory s)
                     / FinancialSnapshot.debt s))
       | Raise e => e = TypeError
       end).
Proof.
  split; [exact calculate_ratios_total|].
  intros previous decision.
  destruct (simulate_quarter previous decision) as [s|e] eqn:Hs.
  - apply simulate_quarter_inv in Hs as (d & Hs). do 16 destruct Hs as [_ Hs].
    destruct (calculate_ratios_total s) as (lr & nm & Hr & H).
    rewrite Hs in Hr. injection Hr as <- <-. exact H.
  - by apply simulate_quarter_raises in Hs as [-> _].
Qed.

(** ** The decision impact transform *)

Lemma py_max_0_of_nonneg (x : Qc) : 0 ≤ x → py_max 0 x = x.
Proof.
  intros H. unfold py_max. destruct (decide (0 < x)) as [_|Hn]; [done|].
  apply Qcle_antisym; [done | by apply Qcnot_lt_le].
Qed.

Lemma dict_get_empty (key : string) (dflt : Qc) : dict_get ∅ key dflt = dflt.
Proof. unfold dict_get. by rewrite lookup_empty. Qed.

(** The clamp is part of the transform: a negative field of the input does
    not pass through an empty impact map. *)
Lemma apply_option_impact_clamps :
  apply_option_impact (decision_dict (num 1000) (num (-5)) (num 2000))
                      (QuestionOption.mk "C" "" ∅)
  = decision_dict (num 1000) (num 0) (num 2000).
Proof. unfold apply_option_impact, decision_dict. repeat f_equal; qc_eval. Qed.

(** The option of the worked example is option B of question q02. *)
Lemma q02_option_B :
  ∃ question option_,
    QUESTION_INDEX !! "q02" = Some question
    ∧ Question.options question !! 1%nat = Some option_
    ∧ QuestionOption.id option_ = "B"
    ∧ QuestionOption.impact option_
      = {[ "price_multiplier" := num 0.97; "production_multiplier" := num 1.05 ]}.
Proof. eexists _, _. repeat split; reflexivity. Qed.

(** C4, as the specification states it, fails on the code: with an
    empty impact map the output is not always the input. On the empty
    decision the transform returns the three fields at 0, and on a decision
    with the price -5 it returns the price 0; the option is option C of
    question q08, whose impact map is empty. *)
Lemma apply_option_impact_is_not_the_identity :
  QuestionOption.impact
    (QuestionOption.mk "C" "Aplazas la iniciativa y mantienes estructura actual" ∅) = ∅
  ∧ apply_option_impact ∅
      (QuestionOption.mk "C" "Aplazas la iniciativa y mantienes estructura actual" ∅)
    = decision_dict 0 0 0
  ∧ apply_option_impact ∅
      (QuestionOption.mk "C" "Aplazas la iniciativa y mantienes estructura actual" ∅)
    ≠ ∅
  ∧ apply_option_impact (decision_dict (num 1000) (num (-5)) (num 2000))
      (QuestionOption.mk "C" "Aplazas la iniciativa y mantienes estructura actual" ∅)
    = decision_dict (num 1000) 0 (num 2000)
  ∧ apply_option_impact (decision_dict (num 1000) (num (-5)) (num 2000))
      (QuestionOption.mk "C" "Aplazas la iniciativa y mantienes estructura actual" ∅)
    ≠ decision_dict (num 1000) (num (-5)) (num 2000).
Proof.
  split; [reflexivity|]. split.
  { unfold apply_option_impact, decision_dict. repeat f_equal; qc_eval. }
  split.
  { intros Hempty. apply (f_equal (λ decision, decision !! "price")) in Hempty.
    vm_compute in Hempty. discriminate Hempty. }
  split.
  { unfold apply_option_impact, decision_dict. repeat f_equal; qc_eval. }
  intros Hsame. apply (f_equal (λ decision, this <$> decision !! "price")) in Hsame.
  vm_compute in Hsame. discriminate Hsame.
Qed.

(** C4, amended. The transform computes, for production, price and
    marketing,
    [max(0, decision[field] * impact.get(field_multiplier, 1.0)
            + impact.get(field_delta, 0.0))], a field missing from the
    decision counting as 0. So the base decision production 1000, price 50,
    marketing 2000 with the impact map price_multiplier 0.97,
    production_multiplier 1.05 gives price 48.5, production 1050 and
    marketing 2000; and with an empty impact map the output is the input
    for every decision that has the three fields, none of them negative. *)
Theorem apply_option_impact_formula (decision : gmap string Qc) (option_ : QuestionOption.t) :
  apply_option_impact decision option_
  = decision_dict
      (Qc_max 0 (dict_get decision "production" 0
                   * dict_get (QuestionOption.impact option_) "production_multiplier" 1
                 + dict_get (QuestionOption.impact option_) "production_delta" 0))
      (Qc_max 0 (dict_get decision "price" 0
                   * dict_get (QuestionOption.impact option_) "price_multiplier" 1
                 + dict_get (QuestionOption.impact option_) "price_delta" 0))
      (Qc_max 0 (dict_get decision "marketing" 0
                   * dict_get (QuestionOption.impact option_) "marketing_multiplier" 1
                 + dict_get (QuestionOption.impact option_) "marketing_delta" 0))
  ∧ (QuestionOption.impact option_
     = {[ "price_multiplier" := num 0.97; "production_multiplier" := num 1.05 ]} →
     apply_option_impact (decision_dict (num 1000) (num 50) (num 2000)) option_
     = decision_dict (num 1050) (num 48.5) (num 2000))
  ∧ (QuestionOption.impact option_ = ∅ →
     well_formed_decision decision →
     apply_option_impact decision option_ = decision).
Proof.
  split; [|split].
  - unfold apply_option_impact. by rewrite !py_max_Qc_max.
  - intros Himpact. unfold apply_option_impact, decision_dict. rewrite Himpact.
    repeat f_equal; qc_eval.
  - intros Himpact (production & price & marketing & -> & Hproduction & Hprice & Hmarketing).
    unfold apply_option_impact. rewrite Himpact, !dict_get_empty.
    change (dict_get (decision_dict production price marketing) "production" 0) with production.
    change (dict_get (decision_dict production price marketing) "price" 0) with price.
    change (dict_get (decision_dict production price marketing) "marketing" 0) with marketing.
    replace (production * 1 + 0) with production by ring.
    replace (price * 1 + 0) with price by ring.
    replace (marketing * 1 + 0) with marketing by ring.
    by rewrite !py_max_0_of_nonneg.
Qed.

(** The identity part on the base decision of the example and the option
    with an empty impact map (option C of question q08). *)
Lemma apply_option_impact_formula_witness :
  apply_option_impact (decision_dict (num 1000) (num 50) (num 2000))
    (QuestionOption.mk "C" "Aplazas la iniciativa y mantienes estructura actual" ∅)
  = decision_dict (num 1000) (num 50) (num 2000).
Proof.
  apply (apply_option_impact_formula
           (decision_dict (num 1000) (num 50) (num 2000))
           (QuestionOption.mk "C" "Aplazas la iniciativa y mantienes estructura actual" ∅)).
  - reflexivity.
  - exists (num 1000), (num 50), (num 2000).
    split; [reflexivity|]. repeat split; vm_compute; discriminate.
Defined.

(** ** The question catalog *)

Lemma QUESTION_BANK_length : length QUESTION_BANK = 20%nat.
Proof. reflexivity. Qed.

(** The ids of the catalog are pairwise distinct, and so are the option
    ids within each question. *)
Lemma QUESTION_BANK_ids_NoDup :
  NoDup (Question.id <$> QUESTION_BANK)
  ∧ Forall (λ q, NoDup (QuestionOption.id <$> Question.options q)) QUESTION_BANK.
Proof.
  split.
  - apply (bool_decide_unpack _). by vm_compute.
  - repeat constructor; apply (bool_decide_unpack _); by vm_compute.
Qed.

Lemma random_choice_elem {A : Type} (seq : list A) (g : rng) :
  seq ≠ [] →
  ∃ x, random_choice seq g = Ok (x, advance g)
    ∧ seq !! (draws g (cursor g) `mod` length seq)%nat = Some x
    ∧ x ∈ seq.
Proof.
  intros Hne. unfold random_choice.
  destruct (lookup_lt_is_Some_2 seq (draws g (cursor g) `mod` length seq)%nat) as [x Hx].
  { apply Nat.mod_upper_bound. by destruct seq. }
  exists x. rewrite Hx. repeat split. by apply list_elem_of_lookup_2 in Hx.
Qed.

(** C7. For every exclusion list and every state of the random generator,
    [pick_random_question] returns a question of the fixed 20-question
    catalog; its id is not in the exclusion list as soon as the catalog has
    a question whose id is not excluded; and when the exclusion list covers
    the whole catalog the call does not fail: it draws from the full
    catalog. *)
Theorem pick_random_question_respects_exclusion
    (exclude_ids : option (list string)) (g : rng) :
  ∃ q, pick_random_question exclude_ids g = Ok (q, advance g)
    ∧ q ∈ QUESTION_BANK
    ∧ length QUESTION_BANK = 20%nat
    ∧ ((∃ q0, q0 ∈ QUESTION_BANK ∧ Question.id q0 ∉ default [] exclude_ids) →
       Question.id q ∉ default [] exclude_ids)
    ∧ ((∀ q0, q0 ∈ QUESTION_BANK → Question.id q0 ∈ default [] exclude_ids) →
       QUESTION_BANK !! (draws g (cursor g) `mod` 20)%nat = Some q).
Proof.
  unfold pick_random_question.
  set (available := filter (not_excluded exclude_ids) QUESTION_BANK).
  assert (Havailable : ∀ x, x ∈ available →
            x ∈ QUESTION_BANK ∧ Question.id x ∉ default [] exclude_ids).
  { intros x [Hx Hin]%list_elem_of_filter. split; [done|].
    destruct Hx as [[-> | ->]|Hx]; [apply not_elem_of_nil..|done]. }
  destruct (decide (available = [])) as [Hnil|Hne].
  - destruct (random_choice_elem QUESTION_BANK g) as (q & Hq & Hlookup & Hin); [done|].
    exists q. repeat split; try done.
    intros (q0 & Hq0 & Hfree). exfalso.
    assert (q0 ∈ available) as Hin0.
    { apply list_elem_of_filter. split; [by right | done]. }
    rewrite Hnil in Hin0. by apply not_elem_of_nil in Hin0.
  - destruct (random_choice_elem available g Hne) as (q & Hq & _ & Hin).
    destruct (Havailable q Hin) as [Hbank Hfree].
    exists q. repeat split; try done.
    intros Hcovers. destruct Hfree. by apply Hcovers.
Qed.

Lemma pick_random_question_Ok (exclude_ids : option (list string)) (g : rng) :
  ∃ q, pick_random_question exclude_ids g = Ok (q, advance g) ∧ q ∈ QUESTION_BANK.
Proof.
  unfold pick_random_question.
  destruct (decide (filter (not_excluded exclude_ids) QUESTION_BANK = [])) as [Hnil|Hne].
  - destruct (random_choice_elem QUESTION_BANK g) as (q & Hq & _ & Hin); [done|]. by exists q.
  - destruct (random_choice_elem _ g Hne) as (q & Hq & _ & Hin).
    exists q. split; [done|]. by apply list_elem_of_filter in Hin as [_ Hin].
Qed.

(** ** Closing the quarter of one company *)

Lemma resolve_question_id_Ok (company : Company.t) (g : rng) :
  ∃ question_id g1,
    resolve_question_id company g = Ok (question_id, g1)
    ∧ (∀ active, Company.active_question_id company = Some active → active ≠ "" →
         question_id = active ∧ g1 = g)
    ∧ (Company.active_question_id company = None
       ∨ Company.active_question_id company = Some "" →
       ∃ q, pick_random_question None g = Ok (q, g1) ∧ question_id = Question.id q).
Proof.
  unfold resolve_question_id.
  destruct (pick_random_question_Ok None g) as (q & Hq & _).
  destruct (Company.active_question_id company) as [active|].
  - destruct (decide (active = "")) as [->|Hne].
    + rewrite Hq. cbn. eexists _, _. split; [reflexivity|]. split.
      * by intros ? [= <-] ?.
      * intros _. by exists q.
    + eexists _, _. split; [reflexivity|]. split.
      * by intros ? [= <-] _.
      * by intros [?|[= ?]].
  - rewrite Hq. cbn. eexists _, _. split; [reflexivity|]. split.
    + by intros ? [=].
    + intros _. by exists q.
Qed.

Lemma close_company_inv (company updated : Company.t) (g g' : rng) :
  close_company company g = Ok (updated, g') →
  ∃ previous question_id result,
    last (Company.financials company) = Some previous
    ∧ resolve_question_id company g = Ok (question_id, g')
    ∧ simulate_quarter previous
        (resolve_effective_decision (Company.decisions company)
           (resolve_selected_option question_id (Company.selected_option_id company)))
      = Ok result
    ∧ Company.name updated = Company.name company
    ∧ Company.financials updated = Company.financials company ++ [result]
    ∧ Company.decisions updated = ∅
    ∧ Company.agent_chat updated = Company.agent_chat company
    ∧ Company.active_question_id updated = None
    ∧ Company.selected_option_id updated = None.
Proof.
  unfold close_company.
  destruct (last (Company.financials company)) as [previous|]; [|done].
  cbn -[simulate_quarter].
  destruct (resolve_question_id company g) as [[question_id g1]|]; [|done].
  cbn -[simulate_quarter].
  destruct (simulate_quarter _ _) as [result|] eqn:Hresult; [|done].
  cbn. intros [= <- <-]. exists previous, question_id, result.
  repeat split; first [exact Hresult | reflexivity].
Qed.

(** A company with a snapshot and a decision of three fields closes. *)
Lemma close_company_Ok (company : Company.t) (g : rng) (production price marketing : Qc) :
  Company.financials company ≠ [] →
  Company.decisions company = decision_dict production price marketing →
  ∃ updated g', close_company company g = Ok (updated, g').
Proof.
  intros Hfinancials Hdecisions. unfold close_company.
  destruct (last (Company.financials company)) as [previous|] eqn:Hlast.
  2: { by apply last_None in Hlast. }
  cbn -[simulate_quarter].
  destruct (resolve_question_id_Ok company g) as (question_id & g1 & -> & _).
  cbn -[simulate_quarter].
  assert (∃ p pr m,
    resolve_effective_decision (Company.decisions company)
      (resolve_selected_option question_id (Company.selected_option_id company))
    = decision_dict p pr m) as (p & pr & m & ->).
  { destruct (resolve_selected_option _ _) as [option_|]; cbn.
    - eexists _, _, _. unfold apply_option_impact, decision_dict. reflexivity.
    - by exists production, price, marketing. }
  destruct (simulate_quarter_total previous p pr m) as [result ->].
  cbn. by eexists _, _.
Qed.

(** C6, as the specification states it, fails on a company that has no
    active question but a selected option: [close_quarter] draws a question
    ad hoc and applies the option "A" of the drawn question (here q01, whose
    option A adds 1 to the price), where the specification keeps the base
    decision. *)
Lemma close_company_not_as_specified :
  spec_effective_decision company_without_question
  = decision_dict (num 1000) (num 50) (num 2000)
  ∧ fed_decision company_without_question zero_rng
    = Ok (decision_dict (num 1000) (num 51) (num 2000))
  ∧ ¬ closes_with company_without_question zero_rng
        (spec_effective_decision company_without_question).
Proof.
  split; [reflexivity|]. split.
  - vm_compute. reflexivity.
  - intros (previous & result & updated & g' & Hlast & Hresult & Hclose & Hfinancials).
    apply close_company_inv in Hclose
      as (previous' & question_id & result' & Hlast' & Hquestion & Hresult' & _ & Hfin' & _).
    rewrite Hfin' in Hfinancials. apply app_inj_tail in Hfinancials as [_ ->].
    rewrite Hlast in Hlast'. injection Hlast' as <-.
    injection Hquestion as <- _.
    apply simulate_quarter_inv in Hresult as (d & Hd & Hfields).
    apply simulate_quarter_inv in Hresult' as (d' & Hd' & Hfields').
    do 13 destruct Hfields as [_ Hfields]. destruct Hfields as [Hprice _].
    do 13 destruct Hfields' as [_ Hfields']. destruct Hfields' as [Hprice' _].
    vm_compute in Hd. injection Hd as <-.
    vm_compute in Hd'. injection Hd' as <-.
    rewrite Hprice' in Hprice. apply (f_equal this) in Hprice.
    vm_compute in Hprice. discriminate Hprice.
Qed.

(** C6, amended. For every company and every state of the generator, the
    question consulted by [close_quarter] is the active question of the
    company when it has one, and otherwise a question drawn by
    [pick_random_question]; the decision handed to the engine is the
    transform of the base decision with the first option of the consulted
    question whose id equals [selected_option_id] when there is one, and the
    base decision unchanged in every other case (nothing selected, a
    selection that matches no option, a question id unknown to the
    catalog); resolving it raises no error; and whenever the company's
    quarter closes, the appended snapshot is the engine's result on that
    decision and the pending decision, the active question and the selected
    option are cleared. *)
Theorem close_quarter_effective_decision (company : Company.t) (g : rng) :
  ∃ question_id g1 decision,
    resolve_question_id company g = Ok (question_id, g1)
    ∧ fed_decision company g = Ok decision
    ∧ (∀ active, Company.active_question_id company = Some active → active ≠ "" →
         question_id = active ∧ g1 = g)
    ∧ (Company.active_question_id company = None
       ∨ Company.active_question_id company = Some "" →
       ∃ q, pick_random_question None g = Ok (q, g1) ∧ question_id = Question.id q)
    ∧ (∀ question i option_,
         QUESTION_INDEX !! question_id = Some question →
         Question.options question !! i = Some option_ →
         Some (QuestionOption.id option_) = Company.selected_option_id company →
         (∀ j earlier, Question.options question !! j = Some earlier → (j < i)%nat →
            Some (QuestionOption.id earlier) ≠ Company.selected_option_id company) →
         decision = apply_option_impact (Company.decisions company) option_)
    ∧ ((∀ question option_,
          QUESTION_INDEX !! question_id = Some question →
          option_ ∈ Question.options question →
          Some (QuestionOption.id option_) ≠ Company.selected_option_id company) →
       decision = Company.decisions company)
    ∧ (∀ updated g',
         close_company company g = Ok (updated, g') →
         closes_with company g decision
         ∧ Company.decisions updated = ∅
         ∧ Company.active_question_id updated = None
         ∧ Company.selected_option_id updated = None).
Proof.
  destruct (resolve_question_id_Ok company g) as (question_id & g1 & Hquestion & Hactive & Hdrawn).
  exists question_id, g1,
    (resolve_effective_decision (Company.decisions company)
       (resolve_selected_option question_id (Company.selected_option_id company))).
  split; [exact Hquestion|]. split.
  { unfold fed_decision. by rewrite Hquestion. }
  split; [exact Hactive|]. split; [exact Hdrawn|]. split; [|split].
  - intros question i option_ Hindex Hoption Hmatch Hfirst.
    unfold resolve_selected_option. rewrite Hindex.
    assert (list_find (λ option_, Some (QuestionOption.id option_)
                                  = Company.selected_option_id company)
                      (Question.options question) = Some (i, option_)) as ->.
    { apply list_find_Some. split; [done|]. split; [done|]. exact Hfirst. }
    reflexivity.
  - intros Hnone. unfold resolve_selected_option.
    destruct (QUESTION_INDEX !! question_id) as [question|] eqn:Hindex; [|done].
    assert (list_find (λ option_, Some (QuestionOption.id option_)
                                  = Company.selected_option_id company)
                      (Question.options question) = None) as ->.
    { apply list_find_None, Forall_forall. intros option_ Hin. by apply (Hnone question). }
    reflexivity.
  - intros updated g' Hclose. pose proof Hclose as Hinv.
    apply close_company_inv in Hinv
      as (previous & question_id' & result & Hlast & Hquestion' & Hresult
          & _ & Hfinancials & Hdecisions & _ & Hact & Hsel).
    rewrite Hquestion in Hquestion'. injection Hquestion' as <- <-.
    split; [|exact (conj Hdecisions (conj Hact Hsel))].
    exists previous, result, updated, g1.
    exact (conj Hlast (conj Hresult (conj Hclose Hfinancials))).
Qed.

(** ** The loops over the companies of a session *)

Lemma for_each_company_inv (body : Company.t → rng → res (Company.t * rng))
    (items items' : list (string * Company.t)) (g g' : rng) :
  for_each_company body items g = Ok (items', g') →
  Forall2 (λ kc kc', kc.1 = kc'.1 ∧ ∃ g1 g2, body kc.2 g1 = Ok (kc'.2, g2)) items items'.
Proof.
  revert items' g g'. induction items as [|[company_id company] rest IH]; intros items' g g'.
  - cbn. intros [= <- <-]. constructor.
  - cbn. destruct (body company g) as [[updated g1]|] eqn:Hbody; [|done]. cbn.
    destruct (for_each_company body rest g1) as [[updated_rest g2]|] eqn:Hrest; [|done].
    cbn. intros [= <- <-]. constructor.
    + split; [done|]. by exists g, g1.
    + by apply (IH _ g1 g2).
Qed.

Lemma for_each_company_Ok (body : Company.t → rng → res (Company.t * rng))
    (items : list (string * Company.t)) (g : rng) :
  Forall (λ kc, ∀ g1, ∃ updated g2, body kc.2 g1 = Ok (updated, g2)) items →
  ∃ items' g', for_each_company body items g = Ok (items', g').
Proof.
  intros Hitems. revert g. induction Hitems as [|[company_id company] rest Hbody _ IH]; intros g.
  - by eexists _, _.
  - cbn in Hbody |- *. destruct (Hbody g) as (updated & g1 & ->). cbn.
    destruct (IH g1) as (updated_rest & g2 & ->). cbn. by eexists _, _.
Qed.

Lemma assign_company_Ok (company : Company.t) (g : rng) :
  ∃ updated g', assign_company company g = Ok (updated, g').
Proof.
  unfold assign_company.
  destruct (pick_random_question_Ok (Some (history_or_empty (Company.question_history company))) g)
    as (q & -> & _).
  cbn. by eexists _, _.
Qed.

Lemma assign_company_inv (company updated : Company.t) (g g' : rng) :
  assign_company company g = Ok (updated, g') →
  ∃ q, q ∈ QUESTION_BANK
    ∧ Company.active_question_id updated = Some (Question.id q)
    ∧ Company.selected_option_id updated = None
    ∧ Company.financials updated = Company.financials company
    ∧ Company.decisions updated = Company.decisions company.
Proof.
  unfold assign_company.
  destruct (pick_random_question_Ok (Some (history_or_empty (Company.question_history company))) g)
    as (q & -> & Hq).
  cbn. intros [= <- <-]. by exists q.
Qed.

(** ** The two methods of [SessionService] *)

Lemma assign_quarter_questions_inv (repository repository' : InMemorySessionRepository.t)
    (session_id : string) (g g' : rng) (session' : Session.t) :
  SessionService.assign_quarter_questions repository session_id g
  = Ok (session', repository', g') →
  ∃ session,
    InMemorySessionRepository.get_by_id repository session_id = Some session
    ∧ Session.id session' = Session.id session
    ∧ Session.game_status session' = Session.game_status session
    ∧ Session.current_quarter session' = Session.current_quarter session
    ∧ for_each_company assign_company (Session.companies session) g
      = Ok (Session.companies session', g')
    ∧ repository'
      = InMemorySessionRepository.mk
          (<[Session.id session := session']> (InMemorySessionRepository.sessions repository)).
Proof.
  unfold SessionService.assign_quarter_questions.
  destruct (InMemorySessionRepository.get_by_id repository session_id) as [session|]; [|done].
  destruct (for_each_company _ _ _) as [[updated g1]|] eqn:Hloop; cbn; [|done].
  intros [= <- <- <-]. by exists session.
Qed.

Lemma close_quarter_inv (repository repository' : InMemorySessionRepository.t)
    (session_id : string) (g g' : rng) (session' : Session.t) :
  SessionService.close_quarter repository session_id g = Ok (session', repository', g') →
  ∃ session,
    InMemorySessionRepository.get_by_id repository session_id = Some session
    ∧ Session.id session' = Session.id session
    ∧ Session.current_quarter session' = (Session.current_quarter session + 1)%Z
    ∧ Session.game_status session'
      = status_of_quarter (Session.current_quarter session + 1)
    ∧ for_each_company close_company (Session.companies session) g
      = Ok (Session.companies session', g')
    ∧ repository'
      = InMemorySessionRepository.mk
          (<[Session.id session := session']> (InMemorySessionRepository.sessions repository)).
Proof.
  unfold SessionService.close_quarter.
  destruct (InMemorySessionRepository.get_by_id repository session_id) as [session|]; [|done].
  destruct (for_each_company _ _ _) as [[updated g1]|] eqn:Hloop; cbn; [|done].
  intros [= <- <- <-]. by exists session.
Qed.

(** [assign_quarter_questions] is total on the sessions of the store: it
    raises for an absent session id only. *)
Lemma assign_quarter_questions_Ok (repository : InMemorySessionRepository.t)
    (session_id : string) (g : rng) :
  is_Some (InMemorySessionRepository.get_by_id repository session_id) →
  ∃ session' repository' g',
    SessionService.assign_quarter_questions repository session_id g
    = Ok (session', repository', g').
Proof.
  intros [session Hsession]. unfold SessionService.assign_quarter_questions.
  rewrite Hsession.
  destruct (for_each_company_Ok assign_company (Session.companies session) g)
    as (updated & g' & ->).
  { apply Forall_forall. intros kc _ g1. apply assign_company_Ok. }
  cbn. by eexists _, _, _.
Qed.

(** [close_quarter] succeeds on a stored session each of whose companies
    has a snapshot and a pending decision of three fields. *)
Lemma close_quarter_Ok (repository : InMemorySessionRepository.t)
    (session_id : string) (g : rng) (session : Session.t) :
  InMemorySessionRepository.get_by_id repository session_id = Some session →
  Forall (λ kc, Company.financials kc.2 ≠ []
                ∧ ∃ production price marketing,
                    Company.decisions kc.2 = decision_dict production price marketing)
         (Session.companies session) →
  ∃ session' repository' g',
    SessionService.close_quarter repository session_id g = Ok (session', repository', g').
Proof.
  intros Hsession Hcompanies. unfold SessionService.close_quarter. rewrite Hsession.
  destruct (for_each_company_Ok close_company (Session.companies session) g)
    as (updated & g' & ->).
  { eapply Forall_impl; [exact Hcompanies|].
    intros kc [Hfinancials (production & price & marketing & Hdecisions)] g1.
    by apply (close_company_Ok _ _ production price marketing). }
  cbn. by eexists _, _, _.
Qed.

(** Whenever [close_quarter] succeeds it appends exactly one snapshot to
    the history of every company, also on a finished game, where the
    quarter counter moves past 5 and the status stays "Finished". *)
Lemma close_quarter_grows_history (repository repository' : InMemorySessionRepository.t)
    (session_id : string) (g g' : rng) (session session' : Session.t) :
  InMemorySessionRepository.get_by_id repository session_id = Some session →
  SessionService.close_quarter repository session_id g = Ok (session', repository', g') →
  Session.current_quarter session' = (Session.current_quarter session + 1)%Z
  ∧ ((5 ≤ Session.current_quarter session)%Z → Session.game_status session' = "Finished")
  ∧ Forall2 (λ kc kc', kc.1 = kc'.1
                       ∧ ∃ result, Company.financials kc'.2 = Company.financials kc.2 ++ [result])
            (Session.companies session) (Session.companies session').
Proof.
  intros Hsession Hclose.
  apply close_quarter_inv in Hclose as (session0 & Hsession0 & _ & Hquarter & Hstatus & Hloop & _).
  rewrite Hsession in Hsession0. injection Hsession0 as <-.
  split; [exact Hquarter|]. split.
  - intros Hfive. rewrite Hstatus. unfold status_of_quarter. case_decide; [done|lia].
  - apply for_each_company_inv in Hloop. eapply Forall2_impl; [exact Hloop|].
    intros kc kc' [Hkey (g1 & g2 & Hbody)]. split; [done|].
    apply close_company_inv in Hbody as (_ & _ & result & _ & _ & _ & _ & Hfinancials & _).
    by exists result.
Qed.

(** C9. The claim fails on the code at the game of one company right
    after its creation: the session is in the store, the company has not
    submitted a decision (its pending decision is the empty dictionary), and
    [close_quarter] raises [TypeError], both as the method of the service
    and through the endpoint, which only turns [ValueError] into 404. *)
Theorem close_quarter_raises_without_decision :
  ∃ session repository g,
    new_game = Ok (session, repository, g)
    ∧ InMemorySessionRepository.get_by_id repository "s1" = Some session
    ∧ Forall (λ kc, Company.decisions kc.2 = ∅) (Session.companies session)
    ∧ SessionService.close_quarter repository "s1" g = Raise TypeError
    ∧ Api.close_quarter repository "s1" 0 g = Raise TypeError.
Proof.
  eexists _, _, _. split; [vm_compute; reflexivity|].
  split; [reflexivity|]. split; [by repeat constructor|].
  split; vm_compute; reflexivity.
Qed.

(** C10. The claim fails on the code at the game of one company after its
    four quarters have been played through the endpoints: the session has
    [current_quarter = 5] and status "Finished", every pending decision has
    been cleared by the fourth close, and a fifth [close_quarter] raises
    [TypeError] instead of appending a snapshot. *)
Theorem close_quarter_on_finished_game_raises :
  ∃ session repository g,
    finished_game = Ok (session, repository, g)
    ∧ InMemorySessionRepository.get_by_id repository "s1" = Some session
    ∧ Session.current_quarter session = 5%Z
    ∧ Session.game_status session = "Finished"
    ∧ Forall (λ kc, Company.decisions kc.2 = ∅
                    ∧ length (Company.financials kc.2) = 5%nat)
             (Session.companies session)
    ∧ SessionService.close_quarter repository "s1" g = Raise TypeError
    ∧ Api.close_quarter repository "s1" 0 g = Raise TypeError.
Proof.
  eexists _, _, _. split; [vm_compute; reflexivity|].
  split; [reflexivity|]. split; [reflexivity|]. split; [reflexivity|].
  split; [by repeat constructor|].
  split; vm_compute; reflexivity.
Qed.

(** The same finished game closes a fifth time once a decision has been
    submitted again: the history then holds six snapshots. *)
Lemma close_quarter_on_finished_game_with_decision :
  ∃ session repository g session' repository' g',
    finished_game = Ok (session, repository, g)
    ∧ play_quarter (session, repository, g) = Ok (session', repository', g')
    ∧ Session.current_quarter session' = 6%Z
    ∧ Session.game_status session' = "Finished"
    ∧ Forall (λ kc, length (Company.financials kc.2) = 6%nat) (Session.companies session').
Proof.
  eexists _, _, _, _, _, _. split; [vm_compute; reflexivity|].
  split; [vm_compute; reflexivity|].
  split; [reflexivity|]. split; [reflexivity|]. by repeat constructor.
Qed.

(** ** The status of a session along the requests *)

Lemma status_of_quarter_Finished (q : Z) :
  status_of_quarter q = "Finished" ↔ (q > 4)%Z.
Proof.
  unfold status_of_quarter. case_decide as Hq; split; done.
Qed.

Lemma status_of_quarter_rank (q : Z) :
  (1 ≤ q)%Z → status_rank (status_of_quarter q) = Z.to_nat (Z.min q 5).
Proof.
  intros Hq. destruct (decide (q > 4)%Z) as [Hbig|Hsmall].
  - unfold status_of_quarter. rewrite decide_True by done.
    rewrite Z.min_r by lia. reflexivity.
  - assert (q = 1 ∨ q = 2 ∨ q = 3 ∨ q = 4)%Z as [-> | [-> | [-> | ->]]] by lia; reflexivity.
Qed.

Lemma for_each_company_close_clears (items items' : list (string * Company.t)) (g g' : rng) :
  for_each_company close_company items g = Ok (items', g') →
  Forall (λ kc, Company.active_question_id kc.2 = None) items'.
Proof.
  intros Hloop. apply for_each_company_inv in Hloop.
  induction Hloop as [|kc kc' rest rest' [_ (g1 & g2 & Hbody)] _ IH]; constructor; [|exact IH].
  by apply close_company_inv in Hbody as (_ & _ & _ & _ & _ & _ & _ & _ & _ & _ & Hactive & _).
Qed.

(** ** The endpoints that write to the repository *)

Lemma create_session_inv (repository repository' : InMemorySessionRepository.t)
    (company_names : list string) (session_id game_code : string) (now : Z)
    (g g' : rng) (session' : Session.t) :
  Api.create_session repository company_names session_id game_code now g
  = Ok (session', repository', g') →
  Session.id session' = session_id
  ∧ Session.current_quarter session' = 1%Z
  ∧ Session.game_status session' = "Q1"
  ∧ repository'
    = InMemorySessionRepository.mk
        (<[session_id := session']> (InMemorySessionRepository.sessions repository)).
Proof.
  unfold Api.create_session, InMemorySessionRepository.save. intros Hassign.
  apply assign_quarter_questions_inv in Hassign
    as (session & Hsession & Hid & Hstatus & Hquarter & _ & ->).
  unfold InMemorySessionRepository.get_by_id in Hsession. cbn in Hsession.
  rewrite lookup_insert_eq in Hsession. injection Hsession as <-.
  cbn in Hid, Hstatus, Hquarter |- *. rewrite insert_insert_eq. done.
Qed.

Lemma submit_decision_inv (repository repository' : InMemorySessionRepository.t)
    (session_id company_id : string) (production price marketing : Qc)
    (session' : Session.t) :
  Api.submit_decision repository session_id company_id production price marketing
  = Ok (session', repository') →
  ∃ session,
    InMemorySessionRepository.get_by_id repository session_id = Some session
    ∧ Session.id session' = Session.id session
    ∧ Session.game_status session' = Session.game_status session
    ∧ Session.current_quarter session' = Session.current_quarter session
    ∧ repository'
      = InMemorySessionRepository.mk
          (<[Session.id session := session']> (InMemorySessionRepository.sessions repository)).
Proof.
  unfold Api.submit_decision, Api.get_session.
  destruct (InMemorySessionRepository.get_by_id repository session_id) as [session|]; [|done].
  cbn. destruct (items_get company_id (Session.companies session)); [|done].
  intros [= <- <-]. by exists session.
Qed.

Lemma submit_answer_inv (repository repository' : InMemorySessionRepository.t)
    (session_id company_id option_id : string) (session' : Session.t) :
  Api.submit_answer repository session_id company_id option_id = Ok (session', repository') →
  ∃ session,
    InMemorySessionRepository.get_by_id repository session_id = Some session
    ∧ Session.id session' = Session.id session
    ∧ Session.game_status session' = Session.game_status session
    ∧ Session.current_quarter session' = Session.current_quarter session
    ∧ repository'
      = InMemorySessionRepository.mk
          (<[Session.id session := session']> (InMemorySessionRepository.sessions repository)).
Proof.
  unfold Api.submit_answer, Api.get_session.
  destruct (InMemorySessionRepository.get_by_id repository session_id) as [session|]; [|done].
  cbn. destruct (items_get company_id (Session.companies session)); [|done].
  intros [= <- <-]. by exists session.
Qed.

(** The endpoint [close_quarter] is the method of the service, followed,
    unless the game is finished, by a new assignment of questions and the
    time stamp. *)
Lemma Api_close_quarter_inv (repository repository' : InMemorySessionRepository.t)
    (session_id : string) (now : Z) (g g' : rng) (session' : Session.t) :
  Api.close_quarter repository session_id now g = Ok (session', repository', g') →
  ∃ closed repository1 g1,
    SessionService.close_quarter repository session_id g = Ok (closed, repository1, g1)
    ∧ ((Session.game_status closed = "Finished"
        ∧ session' = closed ∧ repository' = repository1 ∧ g' = g1)
       ∨ (Session.game_status closed ≠ "Finished"
          ∧ ∃ assigned repository2,
              SessionService.assign_quarter_questions repository1 session_id g1
              = Ok (assigned, repository2, g')
              ∧ Session.id session' = Session.id assigned
              ∧ Session.game_status session' = Session.game_status assigned
              ∧ Session.current_quarter session' = Session.current_quarter assigned
              ∧ Session.companies session' = Session.companies assigned
              ∧ repository'
                = InMemorySessionRepository.mk
                    (<[Session.id assigned := session']>
                       (InMemorySessionRepository.sessions repository2)))).
Proof.
  unfold Api.close_quarter.
  destruct (SessionService.close_quarter repository session_id g)
    as [[[closed repository1] g1]|e] eqn:Hclose; [|by destruct e].
  cbn. intros Hrest. exists closed, repository1, g1. split; [done|].
  destruct (decide (Session.game_status closed ≠ "Finished")) as [Hopen|Hdone].
  - right. split; [done|].
    destruct (SessionService.assign_quarter_questions repository1 session_id g1)
      as [[[assigned repository2] g2]|e] eqn:Hassign; [|by destruct e].
    cbn in Hrest. injection Hrest as <- <- <-. by exists assigned, repository2.
  - left. apply dec_stable in Hdone. cbn in Hrest. by injection Hrest as <- <- <-.
Qed.

(** ** One request on a repository

    Every request writes one session, under the id it addresses. *)
Lemma handle_inv (req : request) (repository repository' : InMemorySessionRepository.t)
    (g g' : rng) :
  repository_ok repository →
  fresh req repository →
  handle req repository g = Ok (repository', g') →
  ∃ session',
    repository'
    = InMemorySessionRepository.mk
        (<[target req := session']> (InMemorySessionRepository.sessions repository))
    ∧ Session.id session' = target req
    ∧ match InMemorySessionRepository.get_by_id repository (target req) with
      | Some session =>
          if closes req
          then Session.current_quarter session' = (Session.current_quarter session + 1)%Z
               ∧ Session.game_status session'
                 = status_of_quarter (Session.current_quarter session + 1)
          else Session.current_quarter session' = Session.current_quarter session
               ∧ Session.game_status session' = Session.game_status session
      | None => Session.current_quarter session' = 1%Z ∧ Session.game_status session' = "Q1"
      end.
Proof.
  intros Hok Hfresh Hhandle.
  destruct req; cbn [handle fresh target closes] in Hfresh, Hhandle |- *.
  - destruct (Api.create_session _ _ _ _ _ _) as [[[created repository1] g1]|] eqn:Hcreate;
      [|done].
    cbn in Hhandle. injection Hhandle as <- <-.
    apply create_session_inv in Hcreate as (Hid & Hquarter & Hstatus & ->).
    exists created. rewrite Hfresh. done.
  - destruct (SessionService.assign_quarter_questions _ _ _)
      as [[[assigned repository1] g1]|] eqn:Hassign; [|done].
    cbn in Hhandle. injection Hhandle as <- <-.
    apply assign_quarter_questions_inv in Hassign
      as (session & Hsession & Hid & Hstatus & Hquarter & _ & ->).
    destruct (Hok _ _ Hsession) as (Hkey & _). rewrite Hkey in Hid |- *.
    exists assigned. rewrite Hsession. done.
  - destruct (Api.submit_decision _ _ _ _ _ _) as [[decided repository1]|] eqn:Hsubmit; [|done].
    cbn in Hhandle. injection Hhandle as <- <-.
    apply submit_decision_inv in Hsubmit as (session & Hsession & Hid & Hstatus & Hquarter & ->).
    destruct (Hok _ _ Hsession) as (Hkey & _). rewrite Hkey in Hid |- *.
    exists decided. rewrite Hsession. done.
  - destruct (Api.submit_answer _ _ _ _) as [[answered repository1]|] eqn:Hsubmit; [|done].
    cbn in Hhandle. injection Hhandle as <- <-.
    apply submit_answer_inv in Hsubmit as (session & Hsession & Hid & Hstatus & Hquarter & ->).
    destruct (Hok _ _ Hsession) as (Hkey & _). rewrite Hkey in Hid |- *.
    exists answered. rewrite Hsession. done.
  - destruct (SessionService.close_quarter _ _ _) as [[[closed repository1] g1]|] eqn:Hclose;
      [|done].
    cbn in Hhandle. injection Hhandle as <- <-.
    apply close_quarter_inv in Hclose
      as (session & Hsession & Hid & Hquarter & Hstatus & _ & ->).
    destruct (Hok _ _ Hsession) as (Hkey & _). rewrite Hkey in Hid |- *.
    exists closed. rewrite Hsession. done.
  - destruct (Api.close_quarter _ _ _ _) as [[[final repository3] g3]|] eqn:Hapi; [|done].
    cbn in Hhandle. injection Hhandle as <- <-.
    apply Api_close_quarter_inv in Hapi as (closed & repository1 & g1 & Hclose & Hrest).
    apply close_quarter_inv in Hclose
      as (session & Hsession & Hid & Hquarter & Hstatus & _ & ->).
    destruct (Hok _ _ Hsession) as (Hkey & _). rewrite Hkey in Hid, Hrest.
    rewrite Hsession.
    destruct Hrest as [(_ & -> & -> & _)|(_ & assigned & repository2 & Hassign & Hid3 & Hstatus3
                                           & Hquarter3 & _ & ->)].
    + by exists closed.
    + apply assign_quarter_questions_inv in Hassign
        as (stored & Hstored & Hid2 & Hstatus2 & Hquarter2 & _ & ->).
      unfold InMemorySessionRepository.get_by_id in Hstored. cbn in Hstored.
      rewrite lookup_insert_eq in Hstored. injection Hstored as <-.
      exists final. cbn. rewrite Hid2, Hid, !insert_insert_eq.
      split; [done|]. split; [congruence|]. split; congruence.
Qed.

Lemma handle_preserves_ok (req : request)
    (repository repository' : InMemorySessionRepository.t) (g g' : rng) :
  repository_ok repository →
  fresh req repository →
  handle req repository g = Ok (repository', g') →
  repository_ok repository'.
Proof.
  intros Hok Hfresh Hhandle.
  destruct (handle_inv _ _ _ _ _ Hok Hfresh Hhandle) as (session' & -> & Hid & Hstep).
  intros session_id session Hsession.
  unfold InMemorySessionRepository.get_by_id in Hsession. cbn in Hsession.
  destruct (decide (target req = session_id)) as [<-|Hother].
  - rewrite lookup_insert_eq in Hsession. injection Hsession as <-.
    split; [exact Hid|].
    destruct (InMemorySessionRepository.get_by_id repository (target req))
      as [previous|] eqn:Hprevious.
    + destruct (Hok _ _ Hprevious) as (_ & Hone & Hstatus).
      destruct (closes req); destruct Hstep as [-> ->]; split; try done; lia.
    + destruct Hstep as [-> ->]. done.
  - rewrite lookup_insert_ne in Hsession by done. by apply Hok.
Qed.

(** Every session of a reachable repository is stored under its id, with
    a quarter counter of at least 1 and the status of that quarter. *)
Lemma reachable_ok (repository : InMemorySessionRepository.t) :
  reachable repository → repository_ok repository.
Proof.
  induction 1 as [|req repository g repository' g' _ IH Hfresh Hhandle].
  - intros session_id session Hsession. done.
  - by apply (handle_preserves_ok req repository repository' g g').
Qed.

(** C5. On every repository the operations can build, a request that
    succeeds leaves each stored session stored, and its status moves
    forward along Q1, Q2, Q3, Q4, Finished by at most one position and
    never back; a status "Finished" stays. A request that closes the
    quarter of the session sets the quarter counter to
    [current_quarter + 1] and the status to "Finished" exactly when that
    number exceeds 4, and to "Q" followed by that number otherwise; any
    other request leaves counter and status as they are. When the endpoint
    closes quarter 4, the status becomes "Finished" and the stored session
    is the one the service method returned: no question is assigned, every
    [active_question_id] is [None]. *)
Theorem game_status_moves_forward (req : request)
    (repository repository' : InMemorySessionRepository.t) (g g' : rng)
    (session_id : string) (session : Session.t) :
  reachable repository →
  fresh req repository →
  handle req repository g = Ok (repository', g') →
  InMemorySessionRepository.get_by_id repository session_id = Some session →
  ∃ session',
    InMemorySessionRepository.get_by_id repository' session_id = Some session'
    ∧ (1 ≤ status_rank (Session.game_status session))%nat
    ∧ (status_rank (Session.game_status session)
       ≤ status_rank (Session.game_status session'))%nat
    ∧ (status_rank (Session.game_status session')
       ≤ status_rank (Session.game_status session) + 1)%nat
    ∧ (status_rank (Session.game_status session') ≤ 5)%nat
    ∧ (Session.game_status session = "Finished" → Session.game_status session' = "Finished")
    ∧ (closes req = true → target req = session_id →
       let next_quarter := (Session.current_quarter session + 1)%Z in
       Session.current_quarter session' = next_quarter
       ∧ (Session.game_status session' = "Finished" ↔ (next_quarter > 4)%Z)
       ∧ (¬ (next_quarter > 4)%Z →
          Session.game_status session' = "Q" +:+ pretty next_quarter))
    ∧ (closes req = false ∨ target req ≠ session_id →
       Session.current_quarter session' = Session.current_quarter session
       ∧ Session.game_status session' = Session.game_status session)
    ∧ (∀ now, req = CloseQuarter session_id now → Session.current_quarter session = 4%Z →
       Session.game_status session' = "Finished"
       ∧ SessionService.close_quarter repository session_id g = Ok (session', repository', g')
       ∧ Forall (λ kc, Company.active_question_id kc.2 = None) (Session.companies session')).
Proof.
  intros Hreach Hfresh Hhandle Hsession.
  pose proof (reachable_ok _ Hreach) as Hok.
  destruct (Hok _ _ Hsession) as (Hkey & Hone & Hstatus).
  destruct (handle_inv _ _ _ _ _ Hok Hfresh Hhandle) as (written & Hrepository & Hid & Hstep).
  pose proof (status_of_quarter_rank _ Hone) as Hrank. rewrite <- Hstatus in Hrank.
  destruct (decide (target req = session_id)) as [Htarget|Hother].
  - rewrite Htarget, Hsession in Hstep. exists written.
    assert (InMemorySessionRepository.get_by_id repository' session_id = Some written)
      as Hwritten.
    { rewrite Hrepository, Htarget. unfold InMemorySessionRepository.get_by_id. cbn.
      apply lookup_insert_eq. }
    split; [exact Hwritten|].
    destruct (closes req) eqn:Hcloses; destruct Hstep as [Hquarter' Hstatus'].
    + assert (status_rank (Session.game_status written)
              = Z.to_nat (Z.min (Session.current_quarter session + 1) 5)) as Hrank'.
      { rewrite Hstatus'. apply status_of_quarter_rank. lia. }
      split; [lia|]. split; [lia|]. split; [lia|]. split; [lia|]. split.
      { intros Hfinished. rewrite Hstatus', status_of_quarter_Finished.
        rewrite Hstatus, status_of_quarter_Finished in Hfinished. lia. }
      split.
      { intros _ _. cbn. split; [exact Hquarter'|]. split.
        - rewrite Hstatus'. apply status_of_quarter_Finished.
        - intros Hsmall. rewrite Hstatus'. unfold status_of_quarter.
          by rewrite decide_False. }
      split; [by intros [?|?]|].
      intros now -> Hfour. cbn [handle] in Hhandle.
      destruct (Api.close_quarter repository session_id now g)
        as [[[final repository3] g3]|] eqn:Hapi; [|done].
      cbn in Hhandle. injection Hhandle as -> ->.
      apply Api_close_quarter_inv in Hapi as (closed & repository1 & g1 & Hclose & Hrest).
      pose proof Hclose as Hinv.
      apply close_quarter_inv in Hinv
        as (session0 & Hsession0 & Hid0 & Hquarter0 & Hstatus0 & Hloop & Hrepository1).
      rewrite Hsession in Hsession0. injection Hsession0 as <-.
      assert (Session.game_status closed = "Finished") as Hfinished.
      { rewrite Hstatus0. apply status_of_quarter_Finished. lia. }
      destruct Hrest as [(_ & -> & -> & ->)|(Hopen & _)]; [|done].
      assert (written = closed) as ->.
      { rewrite Hrepository1, Hkey in Hwritten.
        unfold InMemorySessionRepository.get_by_id in Hwritten. cbn in Hwritten.
        rewrite lookup_insert_eq in Hwritten. by injection Hwritten. }
      split; [exact Hfinished|]. split; [exact Hclose|].
      eapply for_each_company_close_clears. exact Hloop.
    + rewrite Hstatus'. pose proof (Z.le_min_r (Session.current_quarter session) 5).
      split; [lia|]. split; [lia|]. split; [lia|]. split; [lia|]. split; [done|].
      split; [done|]. split; [done|].
      intros now -> _. done.
  - exists session.
    assert (InMemorySessionRepository.get_by_id repository' session_id = Some session)
      as Hkept.
    { rewrite Hrepository. unfold InMemorySessionRepository.get_by_id. cbn.
      by rewrite lookup_insert_ne. }
    pose proof (Z.le_min_r (Session.current_quarter session) 5).
    split; [exact Hkept|].
    split; [lia|]. split; [lia|]. split; [lia|]. split; [lia|]. split; [done|].
    split; [done|]. split; [done|].
    intros now -> _. done.
Qed.

(** Proves [reachable (repository_after requests)] for an explicit list of
    requests, one constructor for each. *)
Ltac reach_after requests :=
  lazymatch requests with
  | nil => exact reachable_empty
  | cons ?req ?earlier =>
      apply (reachable_handle req (repository_after earlier) (rng_after earlier)
               (repository_after requests) (rng_after requests));
      [reach_after earlier | first [exact I | reflexivity] | vm_compute; reflexivity]
  end.

Lemma game_status_moves_forward_witness :
  ∃ session session',
    reachable (repository_after fourth_quarter)
    ∧ InMemorySessionRepository.get_by_id (repository_after fourth_quarter) "s1" = Some session
    ∧ Session.current_quarter session = 4%Z
    ∧ handle (CloseQuarter "s1" 0) (repository_after fourth_quarter) (rng_after fourth_quarter)
      = Ok (repository_after (CloseQuarter "s1" 0 :: fourth_quarter),
            rng_after (CloseQuarter "s1" 0 :: fourth_quarter))
    ∧ InMemorySessionRepository.get_by_id
        (repository_after (CloseQuarter "s1" 0 :: fourth_quarter)) "s1" = Some session'
    ∧ Session.game_status session' = "Finished".
Proof.
  assert (reachable (repository_after fourth_quarter)) as Hreach.
  { let requests := eval unfold fourth_quarter in fourth_quarter in reach_after requests. }
  assert (handle (CloseQuarter "s1" 0) (repository_after fourth_quarter)
            (rng_after fourth_quarter)
          = Ok (repository_after (CloseQuarter "s1" 0 :: fourth_quarter),
                rng_after (CloseQuarter "s1" 0 :: fourth_quarter))) as Hhandle
    by (vm_compute; reflexivity).
  eassert (InMemorySessionRepository.get_by_id (repository_after fourth_quarter) "s1"
           = Some _) as Hsession by (vm_compute; reflexivity).
  destruct (game_status_moves_forward (CloseQuarter "s1" 0) _ _ _ _ _ _
              Hreach I Hhandle Hsession)
    as (session' & Hsession' & _ & _ & _ & _ & _ & _ & _ & Hfour).
  destruct (Hfour 0%Z eq_refl eq_refl) as (Hfinished & _).
  eexists _, session'.
  split; [exact Hreach|]. split; [exact Hsession|]. split; [reflexivity|].
  split; [exact Hhandle|]. split; [exact Hsession'|exact Hfinished].
Defined.

(** * Further properties of the code *)


(** ** The financial engine *)

(** X1. Demand falls with the price and rises with the marketing budget:
    a decision with a price at least as high and a marketing budget at most
    as high never has the larger demand. The production plays no part, and
    demand is never negative. *)
Theorem calculate_demand_monotone (d d' : Decision.t) :
  Decision.price d ≤ Decision.price d' →
  Decision.marketing d' ≤ Decision.marketing d →
  calculate_demand d' ≤ calculate_demand d
  ∧ 0 ≤ calculate_demand d'
  ∧ ∀ production,
      calculate_demand (Decision.mk production (Decision.price d) (Decision.marketing d))
      = calculate_demand d.
Proof.
  intros Hprice Hmarketing. split; [|split].
  - unfold calculate_demand. rewrite !py_max_Qc_max. cbn.
    apply Qc_max_lub. split.
    + unfold Qc_max. case_decide; [done|apply Qcle_refl].
    + eapply Qcle_trans; [|apply (proj1 (Qc_max_lub 0 _ _) (Qcle_refl _))].
      unfold num. qc_to_q. lra.
  - apply py_max_0_nonneg.
  - intros production. reflexivity.
Qed.

Lemma calculate_demand_monotone_witness :
  calculate_demand (Decision.mk (num 1500) (num 60) (num 1000))
  ≤ calculate_demand (Decision.mk (num 1500) (num 55) (num 2000)).
Proof.
  apply (calculate_demand_monotone (Decision.mk (num 1500) (num 55) (num 2000))
           (Decision.mk (num 1500) (num 60) (num 1000))); by vm_compute.
Defined.





(** X4. A snapshot that [simulate_quarter] returns never holds cash and
    debt at once. With no debt its liquidity ratio is infinite; with debt,
    the debt is positive, the cash is 0, and the ratio is the current
    assets, of which only the inventory is left, over the debt. *)
Theorem cash_and_debt_exclude_each_other (previous : FinancialSnapshot.t)
    (decision : gmap string Qc) (s : FinancialSnapshot.t) :
  simulate_quarter previous decision = Ok s →
  (FinancialSnapshot.cash s = 0 ∨ FinancialSnapshot.debt s = 0)
  ∧ (FinancialSnapshot.debt s = 0 → FinancialSnapshot.liquidity_ratio s = PosInf)
  ∧ (FinancialSnapshot.debt s ≠ 0 →
     FinancialSnapshot.cash s = 0
     ∧ 0 < FinancialSnapshot.debt s
     ∧ FinancialSnapshot.liquidity_ratio s
       = Fin ((FinancialSnapshot.cash s + FinancialSnapshot.inventory s)
              / FinancialSnapshot.debt s)).
Proof.
  intros Hs.
  apply simulate_quarter_inv in Hs
    as (d & _ & _ & _ & _ & _ & _ & _ & _ & _ & _ & [Hdebt Hcash] & _ & _ & _ & _ & _ & Hratios).
  destruct (calculate_ratios_total s) as (lr & nm & Hr & _ & _ & Hinf & Hfin).
  rewrite Hr in Hratios. injection Hratios as -> _.
  match type of Hcash with _ = py_max 0 ?c => set (new_cash := c) in * end.
  clearbody new_cash.
  assert (FinancialSnapshot.debt s ≠ 0 →
          FinancialSnapshot.cash s = 0 ∧ 0 < FinancialSnapshot.debt s) as Hexclusive.
  { intros Hnonzero. rewrite Hdebt, Hcash in *. unfold py_max in *.
    destruct (decide (0 < - new_cash)) as [Hshort|Hfine]; [|done].
    split; [|done]. destruct (decide (0 < new_cash)) as [Hpos|]; [|done].
    qc_to_q. lra. }
  split; [|split].
  - destruct (decide (FinancialSnapshot.debt s = 0)) as [|Hnonzero]; [by right|left].
    by apply Hexclusive.
  - exact Hinf.
  - intros Hnonzero. destruct (Hexclusive Hnonzero) as [Hzero Hpos].
    split; [done|]. split; [done|]. exact (Hfin Hnonzero).
Qed.

Lemma cash_and_debt_exclude_each_other_witness :
  ∃ s, simulate_quarter
         (FinancialSnapshot.mk 0 (num 1000) 0 (num 1000) 0 0 0 0 0 0 0 0 0 (Fin 0) 0 0 0 0)
         (decision_dict 0 (num 30) 0) = Ok s
    ∧ (FinancialSnapshot.cash s = 0 ∨ FinancialSnapshot.debt s = 0).
Proof.
  eexists. split; [vm_compute; reflexivity|].
  match goal with |- FinancialSnapshot.cash ?s = 0 ∨ _ =>
    destruct (cash_and_debt_exclude_each_other
                (FinancialSnapshot.mk 0 (num 1000) 0 (num 1000) 0 0 0 0 0 0 0 0 0 (Fin 0)
                   0 0 0 0)
                (decision_dict 0 (num 30) 0) s) as (Hone & _) end;
    [vm_compute; reflexivity|].
  exact Hone.
Defined.

(** X5. [simulate_quarter] accepts a dictionary exactly when its keys are
    the three fields of a decision. A dictionary with a field missing or
    with any other key makes it raise [TypeError], whatever the previous
    state; it raises nothing else. *)
Theorem simulate_quarter_accepts_exactly_decisions (previous : FinancialSnapshot.t)
    (decision : gmap string Qc) :
  ((∃ s, simulate_quarter previous decision = Ok s)
   ↔ ∃ production price marketing, decision = decision_dict production price marketing)
  ∧ (∀ key, key ∈ ["production"; "price"; "marketing"] → decision !! key = None →
       simulate_quarter previous decision = Raise TypeError)
  ∧ (∀ key, key ∉ ["production"; "price"; "marketing"] → is_Some (decision !! key) →
       simulate_quarter previous decision = Raise TypeError)
  ∧ (∀ e, simulate_quarter previous decision = Raise e → e = TypeError).
Proof.
  assert (∀ s, simulate_quarter previous decision = Ok s →
               ∃ production price marketing,
                 decision = decision_dict production price marketing) as Haccepted.
  { intros s Hs. apply simulate_quarter_inv in Hs as (d & Hd & _).
    apply Decision_of_kwargs_inv in Hd. by eexists _, _, _. }
  assert (∀ e, simulate_quarter previous decision = Raise e → e = TypeError) as Hraises.
  { intros e He. by apply simulate_quarter_raises in He as [-> _]. }
  assert ((∀ s, simulate_quarter previous decision ≠ Ok s) →
          simulate_quarter previous decision = Raise TypeError) as Hrejected.
  { intros Hno. destruct (simulate_quarter previous decision) as [s|e] eqn:Hs.
    - by destruct (Hno s).
    - by rewrite (Hraises e). }
  split; [split|split; [|split]].
  - intros [s Hs]. by apply (Haccepted s).
  - intros (production & price & marketing & ->). apply simulate_quarter_total.
  - intros key Hkey Hmissing. apply Hrejected. intros s Hs.
    apply Haccepted in Hs as (production & price & marketing & ->).
    unfold decision_dict in Hmissing.
    rewrite !elem_of_cons, elem_of_nil in Hkey.
    destruct Hkey as [->|[->|[->|[]]]]; by vm_compute in Hmissing.
  - intros key Hkey [value Hpresent]. apply Hrejected. intros s Hs.
    apply Haccepted in Hs as (production & price & marketing & ->).
    unfold decision_dict in Hpresent.
    rewrite !lookup_insert_Some, lookup_singleton_Some in Hpresent.
    rewrite !not_elem_of_cons in Hkey. destruct Hkey as (Hproduction & Hprice & Hmarketing & _).
    destruct Hpresent as [[Heq _]|[_ [[Heq _]|[_ [Heq _]]]]]; congruence.
  - exact Hraises.
Qed.

(** X6. The decision that [apply_option_impact] returns is always one
    [simulate_quarter] accepts, also when the base decision is empty or
    lacks fields: the engine runs on it from any previous state, with a
    production, a price and a marketing budget that are not negative. *)
Theorem apply_option_impact_feeds_engine (previous : FinancialSnapshot.t)
    (decision : gmap string Qc) (option_ : QuestionOption.t) :
  ∃ s, simulate_quarter previous (apply_option_impact decision option_) = Ok s
    ∧ 0 ≤ FinancialSnapshot.production s
    ∧ 0 ≤ FinancialSnapshot.price s
    ∧ 0 ≤ FinancialSnapshot.marketing s
    ∧ apply_option_impact decision option_
      = decision_dict (FinancialSnapshot.production s) (FinancialSnapshot.price s)
          (FinancialSnapshot.marketing s).
Proof.
  unfold apply_option_impact. fold (decision_dict
    (py_max 0 (dict_get decision "production" 0
               * dict_get (QuestionOption.impact option_) "production_multiplier" 1
               + dict_get (QuestionOption.impact option_) "production_delta" 0))
    (py_max 0 (dict_get decision "price" 0
               * dict_get (QuestionOption.impact option_) "price_multiplier" 1
               + dict_get (QuestionOption.impact option_) "price_delta" 0))
    (py_max 0 (dict_get decision "marketing" 0
               * dict_get (QuestionOption.impact option_) "marketing_multiplier" 1
               + dict_get (QuestionOption.impact option_) "marketing_delta" 0))).
  match goal with |- context [decision_dict ?p ?pr ?m] =>
    destruct (simulate_quarter_total previous p pr m) as [s Hs];
    exists s; split; [exact Hs|];
    apply simulate_quarter_inv in Hs
      as (d & Hd & _ & _ & _ & _ & _ & _ & _ & _ & _ & _ & _ & _
          & Hproduction & Hprice & Hmarketing & _);
    rewrite Decision_of_kwargs_dict in Hd; injection Hd as <-;
    rewrite Hproduction, Hprice, Hmarketing
  end.
  cbn. repeat split; apply py_max_0_nonneg.
Qed.

(** ** The question catalog and its index *)

(** The index built by the dictionary comprehension holds, for a list of
    questions with pairwise distinct ids, exactly the questions of the
    list, each under its id. *)
Lemma index_lookup (questions : list Question.t) (index : gmap string Question.t)
    (key : string) (q : Question.t) :
  NoDup (Question.id <$> questions) →
  (foldl (λ index q, <[Question.id q := q]> index) index questions) !! key = Some q
  ↔ (q ∈ questions ∧ Question.id q = key)
    ∨ ((key ∉ Question.id <$> questions) ∧ index !! key = Some q).
Proof.
  revert index. induction questions as [|a rest IH]; intros index Hnodup.
  - cbn. split.
    + intros H. right. split; [apply not_elem_of_nil|exact H].
    + intros [[H _]|[_ H]]; [by apply elem_of_nil in H|exact H].
  - cbn in Hnodup |- *. apply NoDup_cons in Hnodup as [Ha Hrest].
    rewrite (IH _ Hrest), lookup_insert_Some, elem_of_cons, not_elem_of_cons.
    split.
    + intros [[Hq Hkey]|[Hkey [[Hid Heq]|[Hid Hq]]]].
      * left. split; [by right|exact Hkey].
      * left. subst. split; [by left|reflexivity].
      * right. split; [|exact Hq]. split; [congruence|exact Hkey].
    + intros [[[Heq|Hq] Hkey]|[[Hid Hkey] Hq]].
      * right. subst. split; [exact Ha|]. by left.
      * left. by split.
      * right. split; [exact Hkey|]. right. split; [congruence|exact Hq].
Qed.

Lemma QUESTION_INDEX_lookup (key : string) (q : Question.t) :
  QUESTION_INDEX !! key = Some q ↔ q ∈ QUESTION_BANK ∧ Question.id q = key.
Proof.
  unfold QUESTION_INDEX.
  rewrite (index_lookup QUESTION_BANK ∅ key q (proj1 QUESTION_BANK_ids_NoDup)).
  rewrite lookup_empty. split.
  - intros [H|[_ H]]; [exact H|discriminate H].
  - intros H. by left.
Qed.

Lemma QUESTION_INDEX_lookup_None (key : string) :
  QUESTION_INDEX !! key = None ↔ ∀ q, q ∈ QUESTION_BANK → Question.id q ≠ key.
Proof.
  split.
  - intros Hnone q Hq Hid.
    pose proof (proj2 (QUESTION_INDEX_lookup key q) (conj Hq Hid)) as Hsome.
    rewrite Hnone in Hsome. discriminate Hsome.
  - intros Hall. destruct (QUESTION_INDEX !! key) as [q|] eqn:Hlookup; [|reflexivity].
    apply QUESTION_INDEX_lookup in Hlookup as [Hq Hid]. destruct (Hall q Hq Hid).
Qed.

(** X7. [get_question] answers with a question exactly for the ids of the
    catalog, and then with the catalog's question of that id: no question
    is hidden by another one in [QUESTION_INDEX]. For any other id it
    raises the HTTP error 404 "Question not found", and it raises nothing
    else. *)
Theorem get_question_finds_the_catalog (question_id : string) :
  (∀ q, Api.get_question question_id = Ok q
        ↔ q ∈ QUESTION_BANK ∧ Question.id q = question_id)
  ∧ (∀ q, q ∈ QUESTION_BANK → Api.get_question (Question.id q) = Ok q)
  ∧ (∀ e, Api.get_question question_id = Raise e
          ↔ e = HTTPException 404 "Question not found"
            ∧ ∀ q, q ∈ QUESTION_BANK → Question.id q ≠ question_id).
Proof.
  assert (∀ key q, Api.get_question key = Ok q ↔ q ∈ QUESTION_BANK ∧ Question.id q = key)
    as Hok.
  { intros key q. rewrite <- QUESTION_INDEX_lookup. unfold Api.get_question.
    destruct (QUESTION_INDEX !! key) as [q0|]; split; intros H; try discriminate H.
    - injection H as ->. reflexivity.
    - injection H as ->. reflexivity. }
  split; [apply Hok|]. split.
  - intros q Hq. apply Hok. by split.
  - intros e. rewrite <- QUESTION_INDEX_lookup_None. unfold Api.get_question, Api.http_404.
    destruct (QUESTION_INDEX !! question_id) as [q0|]; split.
    + intros H. discriminate H.
    + intros [_ H]. discriminate H.
    + intros H. injection H as <-. by split.
    + intros [-> _]. reflexivity.
Qed.

(** The search for the selected option, in a list of options with pairwise
    distinct ids. *)
Lemma list_find_option (options : list QuestionOption.t) (selected : option string)
    (o : QuestionOption.t) :
  NoDup (QuestionOption.id <$> options) →
  snd <$> list_find (λ option_, Some (QuestionOption.id option_) = selected) options = Some o
  ↔ o ∈ options ∧ Some (QuestionOption.id o) = selected.
Proof.
  intros Hnodup. rewrite fmap_Some. split.
  - intros [[i x] [Hfind ->]]. apply list_find_Some in Hfind as (Hlookup & Hx & _).
    split; [by apply list_elem_of_lookup_2 in Hlookup|exact Hx].
  - intros [Ho Hsel].
    destruct (list_find_elem_of (λ option_, Some (QuestionOption.id option_) = selected)
                options o Ho Hsel) as [[i x] Hfind].
    exists (i, x). split; [exact Hfind|]. cbn.
    apply list_find_Some in Hfind as (Hlookup & Hx & _).
    apply list_elem_of_lookup_1 in Ho as [j Hj].
    assert (i = j) as ->.
    { apply (NoDup_lookup _ _ _ (QuestionOption.id x) Hnodup).
      - by rewrite list_lookup_fmap, Hlookup.
      - rewrite list_lookup_fmap, Hj. cbn. congruence. }
    congruence.
Qed.

(** Every question of the catalog has the three options A, B and C, in
    this order. *)
Lemma QUESTION_BANK_option_ids :
  Forall (λ q, QuestionOption.id <$> Question.options q = ["A"; "B"; "C"]) QUESTION_BANK.
Proof. repeat constructor. Qed.

(** X8. For a question of the catalog, [close_quarter] finds the selected
    option exactly when the selected id is the id of one of its options,
    that is "A", "B" or "C", and the option found is the one of that id.
    No selection, any other selected id, and the id of a question that is
    not in the catalog all give no option. *)
Theorem selected_option_is_resolved (q : Question.t) (option_id : string) :
  q ∈ QUESTION_BANK →
  (∀ o, resolve_selected_option (Question.id q) (Some option_id) = Some o
        ↔ o ∈ Question.options q ∧ QuestionOption.id o = option_id)
  ∧ (resolve_selected_option (Question.id q) (Some option_id) = None
     ↔ option_id ∉ ["A"; "B"; "C"])
  ∧ resolve_selected_option (Question.id q) None = None
  ∧ (∀ question_id selected,
       (∀ q0, q0 ∈ QUESTION_BANK → Question.id q0 ≠ question_id) →
       resolve_selected_option question_id selected = None).
Proof.
  intros Hq.
  pose proof (proj2 (QUESTION_INDEX_lookup (Question.id q) q) (conj Hq eq_refl)) as Hindex.
  pose proof (proj1 (Forall_forall _ _) (proj2 QUESTION_BANK_ids_NoDup) q Hq) as Hnodup.
  pose proof (proj1 (Forall_forall _ _) QUESTION_BANK_option_ids q Hq) as Hids.
  cbn beta in Hnodup, Hids.
  assert (∀ o, resolve_selected_option (Question.id q) (Some option_id) = Some o
               ↔ o ∈ Question.options q ∧ QuestionOption.id o = option_id) as Hsome.
  { intros o. unfold resolve_selected_option. rewrite Hindex.
    rewrite (list_find_option _ _ _ Hnodup). split.
    - intros [Ho Hid]. split; [exact Ho|congruence].
    - intros [Ho Hid]. split; [exact Ho|congruence]. }
  split; [exact Hsome|]. split; [|split].
  - rewrite <- Hids. split.
    + intros Hnone Hin. apply list_elem_of_fmap in Hin as (o & Hid & Ho).
      pose proof (proj2 (Hsome o) (conj Ho (eq_sym Hid))) as Hfound.
      rewrite Hnone in Hfound. discriminate Hfound.
    + intros Hnotin.
      destruct (resolve_selected_option (Question.id q) (Some option_id)) as [o|] eqn:Hfound;
        [|reflexivity].
      destruct (proj1 (Hsome o) eq_refl) as [Ho Hid]. destruct Hnotin.
      apply list_elem_of_fmap. exists o. by split.
  - unfold resolve_selected_option. rewrite Hindex.
    apply fmap_None, list_find_None, Forall_forall. intros o _ H. discriminate H.
  - intros question_id selected Hunknown. unfold resolve_selected_option.
    apply QUESTION_INDEX_lookup_None in Hunknown. by rewrite Hunknown.
Qed.

Lemma selected_option_is_resolved_witness :
  ∃ o, resolve_selected_option "q02" (Some "B") = Some o ∧ QuestionOption.id o = "B".
Proof.
  pose (q := default (Question.mk "" "" []) (QUESTION_BANK !! 1%nat)).
  pose (o := default (QuestionOption.mk "" "" ∅) (Question.options q !! 1%nat)).
  destruct (selected_option_is_resolved q "B") as (Hsome & _).
  { apply (list_elem_of_lookup_2 _ 1%nat). reflexivity. }
  exists o. split; [|reflexivity].
  apply (Hsome o). split; [|reflexivity].
  apply (list_elem_of_lookup_2 _ 1%nat). reflexivity.
Defined.

(** The impact factors of the catalog: the ranges of the multipliers and of
    the deltas of its sixty options, and the keys their maps use. *)
Lemma QUESTION_BANK_impacts :
  Forall (λ q, Forall (λ o,
      let impact := QuestionOption.impact o in
      (num 0.88 ≤ dict_get impact "production_multiplier" 1
       ∧ dict_get impact "production_multiplier" 1 ≤ num 1.2
       ∧ dict_get impact "production_delta" 0 = 0)
      ∧ (num 0.95 ≤ dict_get impact "price_multiplier" 1
         ∧ dict_get impact "price_multiplier" 1 ≤ num 1.06
         ∧ 0 ≤ dict_get impact "price_delta" 0
         ∧ dict_get impact "price_delta" 0 ≤ num 2)
      ∧ (num 0.8 ≤ dict_get impact "marketing_multiplier" 1
         ∧ dict_get impact "marketing_multiplier" 1 ≤ num 1.4
         ∧ 0 ≤ dict_get impact "marketing_delta" 0
         ∧ dict_get impact "marketing_delta" 0 ≤ num 500)
      ∧ Forall (λ key, key ∈ ["production_multiplier"; "price_multiplier"; "price_delta";
                              "marketing_multiplier"; "marketing_delta"])
               (map_to_list impact).*1)
    (Question.options q)) QUESTION_BANK.
Proof.
  repeat (apply Forall_cons; split); try apply Forall_nil;
    cbv beta zeta; apply (bool_decide_unpack _); vm_compute; exact I.
Qed.

(** X9. No option of the catalog is cut off by the clamp of the transform
    on a decision without negative fields, and none moves the decision far:
    the production is scaled by a factor between 0.88 and 1.2, the price by
    a factor between 0.95 and 1.06 plus at most 2, the marketing budget by a
    factor between 0.8 and 1.4 plus at most 500. Every key of an impact map
    of the catalog is one the transform reads. *)
Theorem catalog_options_stay_in_range (q : Question.t) (o : QuestionOption.t)
    (production price marketing : Qc) :
  q ∈ QUESTION_BANK →
  o ∈ Question.options q →
  0 ≤ production → 0 ≤ price → 0 ≤ marketing →
  let impact := QuestionOption.impact o in
  let production' := production * dict_get impact "production_multiplier" 1 in
  let price' := price * dict_get impact "price_multiplier" 1 + dict_get impact "price_delta" 0 in
  let marketing' :=
    marketing * dict_get impact "marketing_multiplier" 1
    + dict_get impact "marketing_delta" 0 in
  apply_option_impact (decision_dict production price marketing) o
  = decision_dict production' price' marketing'
  ∧ (num 0.88 * production ≤ production' ∧ production' ≤ num 1.2 * production)
  ∧ (num 0.95 * price ≤ price' ∧ price' ≤ num 1.06 * price + num 2)
  ∧ (num 0.8 * marketing ≤ marketing' ∧ marketing' ≤ num 1.4 * marketing + num 500)
  ∧ (∀ key, is_Some (impact !! key) →
       key ∈ ["production_multiplier"; "price_multiplier"; "price_delta";
              "marketing_multiplier"; "marketing_delta"]).
Proof.
  intros Hq Ho Hproduction Hprice Hmarketing.
  pose proof (proj1 (Forall_forall _ _) QUESTION_BANK_impacts q Hq) as Hoptions.
  pose proof (proj1 (Forall_forall _ _) Hoptions o Ho) as Himpact. clear Hoptions.
  cbn zeta in Himpact |- *.
  destruct Himpact as ((Hp1 & Hp2 & Hp3) & (Hr1 & Hr2 & Hr3 & Hr4)
                       & (Hm1 & Hm2 & Hm3 & Hm4) & Hkeys).
  set (impact := QuestionOption.impact o) in *.
  set (pm := dict_get impact "production_multiplier" 1) in *.
  set (rm := dict_get impact "price_multiplier" 1) in *.
  set (rd := dict_get impact "price_delta" 0) in *.
  set (mm := dict_get impact "marketing_multiplier" 1) in *.
  set (md := dict_get impact "marketing_delta" 0) in *.
  assert ((num 0.88 * production ≤ production * pm ∧ production * pm ≤ num 1.2 * production)
          ∧ (num 0.95 * price ≤ price * rm + rd ∧ price * rm + rd ≤ num 1.06 * price + num 2)
          ∧ (num 0.8 * marketing ≤ marketing * mm + md
             ∧ marketing * mm + md ≤ num 1.4 * marketing + num 500)
          ∧ 0 ≤ production * pm ∧ 0 ≤ price * rm + rd ∧ 0 ≤ marketing * mm + md)
    as (Hpb & Hrb & Hmb & Hp0 & Hr0 & Hm0).
  { clearbody pm rm rd mm md. clear Hkeys Hp3 impact Hq Ho.
    unfold num in *. qc_to_q. repeat split; nra. }
  split; [|split; [exact Hpb|split; [exact Hrb|split; [exact Hmb|]]]].
  - unfold apply_option_impact. fold impact. fold pm rm rd mm md. rewrite Hp3.
    change (dict_get (decision_dict production price marketing) "production" 0)
      with production.
    change (dict_get (decision_dict production price marketing) "price" 0) with price.
    change (dict_get (decision_dict production price marketing) "marketing" 0)
      with marketing.
    rewrite Qcplus_0_r.
    rewrite (py_max_0_of_nonneg _ Hp0), (py_max_0_of_nonneg _ Hr0),
      (py_max_0_of_nonneg _ Hm0).
    reflexivity.
  - intros key [value Hvalue].
    apply (proj1 (Forall_forall _ _) Hkeys key).
    apply list_elem_of_fmap. exists (key, value). split; [reflexivity|].
    by apply elem_of_map_to_list.
Qed.

Lemma catalog_options_stay_in_range_witness :
  apply_option_impact (decision_dict (num 1000) (num 50) (num 2000))
    (QuestionOption.mk "B" "Descuento parcial y más volumen"
       {[ "price_multiplier" := num 0.97; "production_multiplier" := num 1.05 ]})
  = decision_dict (num 1050) (num 48.5) (num 2000).
Proof.
  pose (q := default (Question.mk "" "" []) (QUESTION_BANK !! 1%nat)).
  pose (o := default (QuestionOption.mk "" "" ∅) (Question.options q !! 1%nat)).
  destruct (catalog_options_stay_in_range q o (num 1000) (num 50) (num 2000))
    as (Heq & _).
  - apply (list_elem_of_lookup_2 _ 1%nat). reflexivity.
  - apply (list_elem_of_lookup_2 _ 1%nat). reflexivity.
  - by vm_compute.
  - by vm_compute.
  - by vm_compute.
  - etransitivity; [exact Heq|]. unfold decision_dict. repeat f_equal; qc_eval.
Defined.

(** ** Assigning the questions of a quarter *)

(** A history shorter than the catalog leaves a question to ask. *)
Lemma catalog_not_exhausted (history : list string) :
  (length history < 20)%nat →
  ∃ q0, q0 ∈ QUESTION_BANK ∧ Question.id q0 ∉ history.
Proof.
  intros Hshort.
  destruct (decide (Forall (λ q, Question.id q ∈ history) QUESTION_BANK)) as [Hall|Hsome].
  - exfalso.
    assert (Question.id <$> QUESTION_BANK ⊆+ history) as Hsub.
    { apply NoDup_submseteq; [apply QUESTION_BANK_ids_NoDup|].
      intros key (q & -> & Hq)%list_elem_of_fmap.
      exact (proj1 (Forall_forall _ _) Hall q Hq). }
    apply submseteq_length in Hsub.
    rewrite length_fmap, QUESTION_BANK_length in Hsub. lia.
  - apply not_Forall_Exists in Hsome; [|intros q; apply _].
    apply Exists_exists in Hsome as (q0 & Hq0 & Hfree). by exists q0.
Qed.

(** The question drawn is not in the exclusion list while the catalog has
    a question that is not excluded. *)
Lemma pick_random_question_fresh (history : list string) (g g' : rng) (q : Question.t) :
  (∃ q0, q0 ∈ QUESTION_BANK ∧ Question.id q0 ∉ history) →
  pick_random_question (Some history) g = Ok (q, g') →
  Question.id q ∉ history.
Proof.
  intros (q0 & Hq0 & Hfree). unfold pick_random_question.
  assert (q0 ∈ filter (not_excluded (Some history)) QUESTION_BANK) as Hin0.
  { apply list_elem_of_filter. split; [by right|exact Hq0]. }
  destruct (decide (filter (not_excluded (Some history)) QUESTION_BANK = [])) as [Hnil|Hne].
  { rewrite Hnil in Hin0. by apply not_elem_of_nil in Hin0. }
  destruct (random_choice_elem _ g Hne) as (x & Hx & _ & Hin).
  rewrite Hx. intros [= <- _].
  apply list_elem_of_filter in Hin as [[[Hfalsy|Hfalsy]|Hnotin] _].
  - discriminate Hfalsy.
  - injection Hfalsy as ->. apply not_elem_of_nil.
  - exact Hnotin.
Qed.

Lemma assign_company_spec (company updated : Company.t) (g g' : rng) :
  assign_company company g = Ok (updated, g') →
  ∃ q, pick_random_question (Some (history_or_empty (Company.question_history company))) g
       = Ok (q, g')
    ∧ q ∈ QUESTION_BANK
    ∧ updated
      = {| Company.name := Company.name company;
           Company.financials := Company.financials company;
           Company.decisions := Company.decisions company;
           Company.agent_chat := Company.agent_chat company;
           Company.active_question_id := Some (Question.id q);
           Company.selected_option_id := None;
           Company.question_history :=
             Some (history_or_empty (Company.question_history company) ++ [Question.id q]) |}.
Proof.
  unfold assign_company.
  destruct (pick_random_question_Ok (Some (history_or_empty (Company.question_history company))) g)
    as (q & -> & Hq).
  cbn. intros [= <- <-]. exists q. split; [reflexivity|]. split; [exact Hq|reflexivity].
Qed.

(** X10. [assign_quarter_questions] gives every company of the session a
    question of the catalog as its active question and appends the id of
    that question to the question history; a company that has been asked
    fewer than 20 questions is never asked one of its history again. The
    selected option is reset, while the name, the financial history, the
    pending decision and the chat of every company, the order of the
    companies and the fields of the session are kept. The session is saved
    under its id; no other session of the repository changes. *)
Theorem assign_quarter_questions_assigns
    (repository repository' : InMemorySessionRepository.t)
    (session_id : string) (g g' : rng) (session' : Session.t) :
  SessionService.assign_quarter_questions repository session_id g
  = Ok (session', repository', g') →
  ∃ session,
    InMemorySessionRepository.get_by_id repository session_id = Some session
    ∧ InMemorySessionRepository.get_by_id repository' (Session.id session) = Some session'
    ∧ (∀ other, other ≠ Session.id session →
         InMemorySessionRepository.get_by_id repository' other
         = InMemorySessionRepository.get_by_id repository other)
    ∧ Session.id session' = Session.id session
    ∧ Session.game_code session' = Session.game_code session
    ∧ Session.game_status session' = Session.game_status session
    ∧ Session.current_quarter session' = Session.current_quarter session
    ∧ Session.last_update_time session' = Session.last_update_time session
    ∧ Forall2
        (λ kc kc',
           let history := history_or_empty (Company.question_history kc.2) in
           kc'.1 = kc.1
           ∧ Company.name kc'.2 = Company.name kc.2
           ∧ Company.financials kc'.2 = Company.financials kc.2
           ∧ Company.decisions kc'.2 = Company.decisions kc.2
           ∧ Company.agent_chat kc'.2 = Company.agent_chat kc.2
           ∧ Company.selected_option_id kc'.2 = None
           ∧ ∃ q, q ∈ QUESTION_BANK
               ∧ Company.active_question_id kc'.2 = Some (Question.id q)
               ∧ Company.question_history kc'.2 = Some (history ++ [Question.id q])
               ∧ ((length history < 20)%nat → Question.id q ∉ history))
        (Session.companies session) (Session.companies session').
Proof.
  unfold SessionService.assign_quarter_questions.
  destruct (InMemorySessionRepository.get_by_id repository session_id) as [session|];
    [|intros H; discriminate H].
  destruct (for_each_company _ _ _) as [[updated g1]|] eqn:Hloop; cbn;
    [|intros H; discriminate H].
  intros [= <- <- <-]. exists session. cbn.
  split; [reflexivity|]. split.
  { unfold InMemorySessionRepository.get_by_id. cbn. apply lookup_insert_eq. }
  split.
  { intros other Hother. unfold InMemorySessionRepository.get_by_id. cbn.
    apply lookup_insert_ne. congruence. }
  do 5 (split; [reflexivity|]).
  apply for_each_company_inv in Hloop. eapply Forall2_impl; [exact Hloop|].
  intros [company_id company] [company_id' company'] [Hkey (g2 & g3 & Hbody)].
  cbn in Hkey, Hbody |- *.
  apply assign_company_spec in Hbody as (q & Hpick & Hq & ->). cbn.
  split; [congruence|]. do 5 (split; [reflexivity|]).
  exists q. split; [exact Hq|]. split; [reflexivity|]. split; [reflexivity|].
  intros Hshort. eapply pick_random_question_fresh; [|exact Hpick].
  by apply catalog_not_exhausted.
Qed.

Lemma assign_quarter_questions_assigns_witness :
  ∃ session session' repository' g',
    SessionService.assign_quarter_questions
      (repository_after [CreateSession ["Alpha Corp"] "s1" "ABC123" 0]) "s1"
      (rng_after [CreateSession ["Alpha Corp"] "s1" "ABC123" 0])
    = Ok (session', repository', g')
    ∧ InMemorySessionRepository.get_by_id
        (repository_after [CreateSession ["Alpha Corp"] "s1" "ABC123" 0]) "s1"
      = Some session
    ∧ Session.current_quarter session' = Session.current_quarter session.
Proof.
  eassert (SessionService.assign_quarter_questions
             (repository_after [CreateSession ["Alpha Corp"] "s1" "ABC123" 0]) "s1"
             (rng_after [CreateSession ["Alpha Corp"] "s1" "ABC123" 0])
           = Ok (_, _, _)) as Hassign by (vm_compute; reflexivity).
  destruct (assign_quarter_questions_assigns _ _ _ _ _ _ Hassign)
    as (session & Hsession & _ & _ & _ & _ & _ & Hquarter & _).
  eexists session, _, _, _.
  split; [exact Hassign|]. split; [exact Hsession|exact Hquarter].
Defined.

(** ** The dictionary of the companies *)

Lemma items_get_set {A : Type} (key : string) (value : A) (items : list (string * A)) :
  items_get key (items_set key value items) = Some value.
Proof.
  induction items as [|[k v] rest IH]; cbn.
  - by rewrite decide_True.
  - destruct (decide (k = key)) as [->|Hne]; cbn.
    + by rewrite decide_True.
    + by rewrite decide_False.
Qed.

Lemma items_get_set_ne {A : Type} (key key' : string) (value : A)
    (items : list (string * A)) :
  key ≠ key' → items_get key' (items_set key value items) = items_get key' items.
Proof.
  intros Hne. induction items as [|[k v] rest IH]; cbn.
  - by rewrite decide_False.
  - destruct (decide (k = key)) as [->|Hk]; cbn.
    + by rewrite !decide_False.
    + destruct (decide (k = key')); [reflexivity|exact IH].
Qed.

Lemma items_get_None {A : Type} (key : string) (items : list (string * A)) :
  items_get key items = None ↔ key ∉ items.*1.
Proof.
  induction items as [|[k v] rest IH]; cbn.
  - split; [intros _; apply not_elem_of_nil|reflexivity].
  - rewrite not_elem_of_cons. destruct (decide (k = key)) as [->|Hk].
    + split; [intros H; discriminate H|intros [H _]; by destruct H].
    + rewrite IH. split; [intros H; split; [congruence|exact H]|intros [_ H]; exact H].
Qed.

Lemma items_get_Some_elem {A : Type} (key : string) (value : A) (items : list (string * A)) :
  items_get key items = Some value → (key, value) ∈ items.
Proof.
  induction items as [|[k v] rest IH]; cbn; [intros H; discriminate H|].
  destruct (decide (k = key)) as [->|Hk].
  - intros [= ->]. by left.
  - intros H. right. by apply IH.
Qed.

(** Writing under a key of the dictionary keeps the keys and their order;
    a new key goes last. *)
Lemma items_set_keys {A : Type} (key : string) (value : A) (items : list (string * A)) :
  (items_set key value items).*1
  = if decide (key ∈ items.*1) then items.*1 else items.*1 ++ [key].
Proof.
  induction items as [|[k v] rest IH]; cbn.
  - rewrite decide_False; [reflexivity|apply not_elem_of_nil].
  - destruct (decide (k = key)) as [->|Hk]; cbn.
    + rewrite decide_True; [reflexivity|by left].
    + rewrite IH. destruct (decide (key ∈ rest.*1)) as [Hin|Hnotin].
      * rewrite decide_True; [reflexivity|by right].
      * rewrite decide_False; [reflexivity|].
        apply not_elem_of_cons. split; [congruence|exact Hnotin].
Qed.

Lemma items_set_keys_NoDup {A : Type} (key : string) (value : A)
    (items : list (string * A)) :
  NoDup items.*1 → NoDup (items_set key value items).*1.
Proof.
  intros Hnodup. rewrite items_set_keys. destruct (decide (key ∈ items.*1)) as [Hin|Hnotin].
  - exact Hnodup.
  - apply NoDup_app. split; [exact Hnodup|]. split.
    + intros x Hx Hkey. apply list_elem_of_singleton in Hkey as ->. by destruct Hnotin.
    + apply NoDup_singleton.
Qed.

Lemma items_set_Forall {A : Type} (P : A → Prop) (key : string) (value : A)
    (items : list (string * A)) :
  Forall (λ kc, P kc.2) items → P value → Forall (λ kc, P kc.2) (items_set key value items).
Proof.
  intros Hitems Hvalue. induction Hitems as [|[k v] rest Hv Hrest IH]; cbn.
  - by constructor.
  - destruct (decide (k = key)); constructor;
      first [exact Hvalue | exact Hv | exact IH | exact Hrest].
Qed.

Lemma items_get_Forall {A : Type} (P : A → Prop) (key : string) (value : A)
    (items : list (string * A)) :
  Forall (λ kc, P kc.2) items → items_get key items = Some value → P value.
Proof.
  intros Hitems Hget. apply items_get_Some_elem in Hget.
  exact (proj1 (Forall_forall _ _) Hitems _ Hget).
Qed.

Lemma for_each_company_keys (body : Company.t → rng → res (Company.t * rng))
    (items items' : list (string * Company.t)) (g g' : rng) :
  for_each_company body items g = Ok (items', g') → items'.*1 = items.*1.
Proof.
  intros Hloop. apply for_each_company_inv in Hloop.
  induction Hloop as [|kc kc' rest rest' [Hkey _] _ IH]; cbn; [reflexivity|].
  by rewrite Hkey, IH.
Qed.

Lemma for_each_company_Forall (P Q : Company.t → Prop)
    (body : Company.t → rng → res (Company.t * rng))
    (items items' : list (string * Company.t)) (g g' : rng) :
  (∀ company updated g1 g2, body company g1 = Ok (updated, g2) → P company → Q updated) →
  for_each_company body items g = Ok (items', g') →
  Forall (λ kc, P kc.2) items → Forall (λ kc, Q kc.2) items'.
Proof.
  intros Hbody Hloop. apply for_each_company_inv in Hloop.
  induction Hloop as [|kc kc' rest rest' [_ (g1 & g2 & Hstep)] _ IH];
    intros Hitems; [constructor|].
  apply Forall_cons in Hitems as [Hhead Hrest]. constructor.
  - exact (Hbody _ _ _ _ Hstep Hhead).
  - exact (IH Hrest).
Qed.

(** ** What the two loops keep true of a company *)

Lemma assign_company_ok (current_quarter : Z) (company updated : Company.t) (g g' : rng) :
  assign_company company g = Ok (updated, g') →
  company_ok current_quarter company → company_ok current_quarter updated.
Proof.
  intros Hassign (Hnumbered & Hdecisions & Hactive & Hhistory).
  apply assign_company_spec in Hassign as (q & _ & Hq & ->).
  assert (Question.id q ∈ Question.id <$> QUESTION_BANK) as Hid.
  { apply list_elem_of_fmap. by exists q. }
  split; [exact Hnumbered|]. split; [exact Hdecisions|]. split.
  - intros question_id [= <-]. exact Hid.
  - apply Forall_app. split; [exact Hhistory|]. by constructor.
Qed.

Lemma close_company_spec (company updated : Company.t) (g g' : rng) :
  close_company company g = Ok (updated, g') →
  let history := history_or_empty (Company.question_history company) in
  ∃ previous question_id result,
    last (Company.financials company) = Some previous
    ∧ resolve_question_id company g = Ok (question_id, g')
    ∧ simulate_quarter previous
        (resolve_effective_decision (Company.decisions company)
           (resolve_selected_option question_id (Company.selected_option_id company)))
      = Ok result
    ∧ updated
      = {| Company.name := Company.name company;
           Company.financials := Company.financials company ++ [result];
           Company.decisions := ∅;
           Company.agent_chat := Company.agent_chat company;
           Company.active_question_id := None;
           Company.selected_option_id := None;
           Company.question_history :=
             Some (if decide (history = [] ∨ last history ≠ Some question_id)
                   then history ++ [question_id] else history) |}.
Proof.
  unfold close_company.
  destruct (last (Company.financials company)) as [previous|]; [|intros H; discriminate H].
  cbn -[simulate_quarter].
  destruct (resolve_question_id company g) as [[question_id g1]|]; [|intros H; discriminate H].
  cbn -[simulate_quarter].
  destruct (simulate_quarter _ _) as [result|] eqn:Hresult; [|intros H; discriminate H].
  cbn. intros [= <- <-]. exists previous, question_id, result.
  split; [reflexivity|]. split; [reflexivity|]. split; [exact Hresult|reflexivity].
Qed.

(** The question consulted at the close is a question of the catalog when
    the active question, if any, is one. *)
Lemma resolve_question_id_catalog (company : Company.t) (g g' : rng) (question_id : string) :
  (∀ active, Company.active_question_id company = Some active →
     active ∈ Question.id <$> QUESTION_BANK) →
  resolve_question_id company g = Ok (question_id, g') →
  question_id ∈ Question.id <$> QUESTION_BANK.
Proof.
  intros Hactive. unfold resolve_question_id.
  destruct (pick_random_question_Ok None g) as (q & Hpick & Hq).
  assert (Question.id q ∈ Question.id <$> QUESTION_BANK) as Hid.
  { apply list_elem_of_fmap. by exists q. }
  destruct (Company.active_question_id company) as [active|].
  - destruct (decide (active = "")) as [_|_].
    + rewrite Hpick. cbn. intros [= <- _]. exact Hid.
    + intros [= <- _]. by apply Hactive.
  - rewrite Hpick. cbn. intros [= <- _]. exact Hid.
Qed.

Lemma seqZ_snoc (n : Z) : (0 ≤ n)%Z → seqZ 0 (n + 1) = seqZ 0 n ++ [n].
Proof.
  intros Hn. rewrite <- (Z2Nat.id n Hn) at 1.
  replace (Z.of_nat (Z.to_nat n) + 1)%Z with (Z.of_nat (S (Z.to_nat n))) by lia.
  rewrite seqZ_S, Z2Nat.id by exact Hn. reflexivity.
Qed.

Lemma close_company_ok (current_quarter : Z) (company updated : Company.t) (g g' : rng) :
  close_company company g = Ok (updated, g') →
  (1 ≤ current_quarter)%Z →
  company_ok current_quarter company → company_ok (current_quarter + 1) updated.
Proof.
  intros Hclose Hone (Hnumbered & Hdecisions & Hactive & Hhistory).
  apply close_company_spec in Hclose
    as (previous & question_id & result & Hlast & Hquestion & Hresult & ->).
  apply (resolve_question_id_catalog _ _ _ _ Hactive) in Hquestion.
  apply simulate_quarter_inv in Hresult as (_ & _ & Hquarter & _).
  split; [|split; [by left|split; [intros ? H; discriminate H|]]].
  - change (FinancialSnapshot.quarter <$> Company.financials company ++ [result]
            = seqZ 0 (current_quarter + 1)).
    rewrite fmap_app, Hnumbered, seqZ_snoc by lia. f_equal. cbn. f_equal.
    rewrite Hquarter.
    apply (f_equal last) in Hnumbered.
    rewrite fmap_last, Hlast in Hnumbered. cbn in Hnumbered.
    replace current_quarter with (current_quarter - 1 + 1)%Z in Hnumbered by lia.
    rewrite seqZ_snoc, last_snoc in Hnumbered by lia.
    injection Hnumbered as ->. lia.
  - change (Forall (λ id, id ∈ Question.id <$> QUESTION_BANK)
              (if decide (history_or_empty (Company.question_history company) = []
                          ∨ last (history_or_empty (Company.question_history company))
                            ≠ Some question_id)
               then history_or_empty (Company.question_history company) ++ [question_id]
               else history_or_empty (Company.question_history company))).
    case_decide; [|exact Hhistory].
    apply Forall_app. split; [exact Hhistory|]. by constructor.
Qed.

(** ** What the requests keep true of the stored sessions *)

Lemma assign_quarter_questions_companies_ok
    (repository repository' : InMemorySessionRepository.t) (session_id : string)
    (g g' : rng) (session session' : Session.t) :
  SessionService.assign_quarter_questions repository session_id g
  = Ok (session', repository', g') →
  InMemorySessionRepository.get_by_id repository session_id = Some session →
  companies_ok session →
  Session.id session' = Session.id session
  ∧ InMemorySessionRepository.get_by_id repository' (Session.id session) = Some session'
  ∧ companies_ok session'.
Proof.
  intros Hassign Hsession [Hnodup Hall].
  apply assign_quarter_questions_inv in Hassign
    as (session0 & Hsession0 & Hid & _ & Hquarter & Hloop & ->).
  rewrite Hsession in Hsession0. injection Hsession0 as <-.
  split; [exact Hid|]. split.
  - unfold InMemorySessionRepository.get_by_id. cbn. apply lookup_insert_eq.
  - split.
    + rewrite (for_each_company_keys _ _ _ _ _ Hloop). exact Hnodup.
    + rewrite Hquarter.
      eapply (for_each_company_Forall (company_ok (Session.current_quarter session))
                (company_ok (Session.current_quarter session))); [|exact Hloop|exact Hall].
      intros company updated g1 g2. apply assign_company_ok.
Qed.

Lemma close_quarter_companies_ok
    (repository repository' : InMemorySessionRepository.t) (session_id : string)
    (g g' : rng) (session session' : Session.t) :
  SessionService.close_quarter repository session_id g = Ok (session', repository', g') →
  InMemorySessionRepository.get_by_id repository session_id = Some session →
  (1 ≤ Session.current_quarter session)%Z →
  companies_ok session →
  Session.id session' = Session.id session
  ∧ InMemorySessionRepository.get_by_id repository' (Session.id session) = Some session'
  ∧ companies_ok session'.
Proof.
  intros Hclose Hsession Hone [Hnodup Hall].
  apply close_quarter_inv in Hclose
    as (session0 & Hsession0 & Hid & Hquarter & _ & Hloop & ->).
  rewrite Hsession in Hsession0. injection Hsession0 as <-.
  split; [exact Hid|]. split.
  - unfold InMemorySessionRepository.get_by_id. cbn. apply lookup_insert_eq.
  - split.
    + rewrite (for_each_company_keys _ _ _ _ _ Hloop). exact Hnodup.
    + rewrite Hquarter.
      eapply (for_each_company_Forall (company_ok (Session.current_quarter session))
                (company_ok (Session.current_quarter session + 1)));
        [|exact Hloop|exact Hall].
      intros company updated g1 g2 Hbody. by apply (close_company_ok _ _ _ g1 g2).
Qed.

Lemma items_get_key {A : Type} (key : string) (value : A) (items : list (string * A)) :
  items_get key items = Some value → key ∈ items.*1.
Proof.
  intros Hget. apply items_get_Some_elem in Hget.
  apply list_elem_of_fmap. by exists (key, value).
Qed.

Lemma submit_decision_companies_ok
    (repository repository' : InMemorySessionRepository.t) (session_id company_id : string)
    (production price marketing : Qc) (session session' : Session.t) :
  Api.submit_decision repository session_id company_id production price marketing
  = Ok (session', repository') →
  InMemorySessionRepository.get_by_id repository session_id = Some session →
  companies_ok session →
  Session.id session' = Session.id session
  ∧ InMemorySessionRepository.get_by_id repository' (Session.id session) = Some session'
  ∧ companies_ok session'.
Proof.
  unfold Api.submit_decision, Api.get_session. intros Hsubmit Hsession [Hnodup Hall].
  rewrite Hsession in Hsubmit. cbn in Hsubmit.
  destruct (items_get company_id (Session.companies session)) as [company|] eqn:Hget;
    [|discriminate Hsubmit].
  injection Hsubmit as <- <-. split; [reflexivity|]. split.
  - unfold InMemorySessionRepository.get_by_id. cbn. apply lookup_insert_eq.
  - destruct (items_get_Forall _ _ _ _ Hall Hget) as (H1 & H2 & H3 & H4).
    split; unfold Api.with_companies; cbn [Session.companies Session.current_quarter].
    + rewrite items_set_keys, decide_True; [exact Hnodup|].
      by apply (items_get_key _ company).
    + apply (items_set_Forall (company_ok (Session.current_quarter session)));
        [exact Hall|].
      split; [exact H1|]. split; [right; by eexists _, _, _|]. split; [exact H3|exact H4].
Qed.

Lemma submit_answer_companies_ok
    (repository repository' : InMemorySessionRepository.t)
    (session_id company_id option_id : string) (session session' : Session.t) :
  Api.submit_answer repository session_id company_id option_id = Ok (session', repository') →
  InMemorySessionRepository.get_by_id repository session_id = Some session →
  companies_ok session →
  Session.id session' = Session.id session
  ∧ InMemorySessionRepository.get_by_id repository' (Session.id session) = Some session'
  ∧ companies_ok session'.
Proof.
  unfold Api.submit_answer, Api.get_session. intros Hsubmit Hsession [Hnodup Hall].
  rewrite Hsession in Hsubmit. cbn in Hsubmit.
  destruct (items_get company_id (Session.companies session)) as [company|] eqn:Hget;
    [|discriminate Hsubmit].
  injection Hsubmit as <- <-. split; [reflexivity|]. split.
  - unfold InMemorySessionRepository.get_by_id. cbn. apply lookup_insert_eq.
  - destruct (items_get_Forall _ _ _ _ Hall Hget) as (H1 & H2 & H3 & H4).
    split; unfold Api.with_companies; cbn [Session.companies Session.current_quarter].
    + rewrite items_set_keys, decide_True; [exact Hnodup|].
      by apply (items_get_key _ company).
    + apply (items_set_Forall (company_ok (Session.current_quarter session)));
        [exact Hall|].
      split; [exact H1|]. split; [exact H2|]. split; [exact H3|exact H4].
Qed.

(** The companies [create_session] builds from the names, before their
    first question is assigned. *)
Lemma new_companies_ok (company_names : list string) (companies : list (string * Company.t)) :
  NoDup companies.*1 →
  Forall (λ kc, company_ok 1 kc.2) companies →
  let companies' :=
    foldl (λ companies name,
             items_set (company_id_of_name name)
               {| Company.name := name;
                  Company.financials := INITIAL_FINANCIALS;
                  Company.decisions := ∅;
                  Company.agent_chat := [];
                  Company.active_question_id := None;
                  Company.selected_option_id := None;
                  Company.question_history := Some [] |}
               companies)
          companies company_names in
  NoDup companies'.*1 ∧ Forall (λ kc, company_ok 1 kc.2) companies'.
Proof.
  revert companies. induction company_names as [|name rest IH]; intros companies Hnodup Hall.
  - split; assumption.
  - cbn zeta. cbn [foldl]. apply IH.
    + by apply items_set_keys_NoDup.
    + apply (items_set_Forall (company_ok 1)); [exact Hall|].
      split; [reflexivity|]. split; [by left|]. split; [intros ? H; discriminate H|].
      constructor.
Qed.

Lemma create_session_companies_ok
    (repository repository' : InMemorySessionRepository.t) (company_names : list string)
    (session_id game_code : string) (now : Z) (g g' : rng) (session' : Session.t) :
  Api.create_session repository company_names session_id game_code now g
  = Ok (session', repository', g') →
  InMemorySessionRepository.get_by_id repository' session_id = Some session'
  ∧ companies_ok session'.
Proof.
  unfold Api.create_session, InMemorySessionRepository.save. intros Hassign.
  apply assign_quarter_questions_inv in Hassign
    as (session0 & Hsession0 & Hid & _ & Hquarter & Hloop & ->).
  unfold InMemorySessionRepository.get_by_id in Hsession0. cbn in Hsession0.
  rewrite lookup_insert_eq in Hsession0. injection Hsession0 as <-.
  cbn [Session.id Session.current_quarter Session.companies] in *.
  split.
  - unfold InMemorySessionRepository.get_by_id. cbn. apply lookup_insert_eq.
  - destruct (new_companies_ok company_names []) as [Hnodup Hall];
      [apply NoDup_nil_2|constructor|].
    split.
    + rewrite (for_each_company_keys _ _ _ _ _ Hloop). exact Hnodup.
    + rewrite Hquarter.
      eapply (for_each_company_Forall (company_ok 1) (company_ok 1));
        [|exact Hloop|exact Hall].
      intros company updated g1 g2. apply assign_company_ok.
Qed.

Lemma Api_close_quarter_companies_ok
    (repository repository' : InMemorySessionRepository.t) (session_id : string) (now : Z)
    (g g' : rng) (session session' : Session.t) :
  Api.close_quarter repository session_id now g = Ok (session', repository', g') →
  InMemorySessionRepository.get_by_id repository session_id = Some session →
  Session.id session = session_id →
  (1 ≤ Session.current_quarter session)%Z →
  companies_ok session →
  InMemorySessionRepository.get_by_id repository' session_id = Some session'
  ∧ companies_ok session'.
Proof.
  intros Hapi Hsession Hkey Hone Hok.
  apply Api_close_quarter_inv in Hapi as (closed & repository1 & g1 & Hclose & Hrest).
  destruct (close_quarter_companies_ok _ _ _ _ _ _ _ Hclose Hsession Hone Hok)
    as (Hid1 & Hstored & Hclosed).
  rewrite Hkey in Hstored, Hid1.
  destruct Hrest as [(_ & -> & -> & _)
                    |(_ & assigned & repository2 & Hassign & Hid3 & _ & Hquarter
                      & Hcompanies & ->)].
  - by split.
  - destruct (assign_quarter_questions_companies_ok _ _ _ _ _ _ _ Hassign Hstored Hclosed)
      as (Hid2 & _ & [Hnodup Hall]).
    split.
    + unfold InMemorySessionRepository.get_by_id. cbn.
      rewrite Hid2, Hid1. apply lookup_insert_eq.
    + unfold companies_ok. rewrite Hcompanies, Hquarter. by split.
Qed.

Lemma handle_preserves_companies_ok (req : request)
    (repository repository' : InMemorySessionRepository.t) (g g' : rng) :
  repository_ok repository →
  repository_companies_ok repository →
  fresh req repository →
  handle req repository g = Ok (repository', g') →
  repository_companies_ok repository'.
Proof.
  intros Hok Hinv Hfresh Hhandle session_id session Hsession.
  destruct (handle_inv _ _ _ _ _ Hok Hfresh Hhandle) as (written & Hwritten & _ & _).
  destruct (decide (target req = session_id)) as [<-|Hother].
  2: { rewrite Hwritten in Hsession.
       unfold InMemorySessionRepository.get_by_id in Hsession. cbn in Hsession.
       rewrite lookup_insert_ne in Hsession by exact Hother. exact (Hinv _ _ Hsession). }
  clear Hwritten written.
  destruct req; cbn [handle target fresh] in Hhandle, Hsession, Hfresh.
  - destruct (Api.create_session _ _ _ _ _ _) as [[[created repository1] g1]|] eqn:Hop;
      [|discriminate Hhandle].
    cbn in Hhandle. injection Hhandle as <- <-.
    destruct (create_session_companies_ok _ _ _ _ _ _ _ _ _ Hop) as [Hstored Hcompanies].
    rewrite Hstored in Hsession. injection Hsession as <-. exact Hcompanies.
  - destruct (SessionService.assign_quarter_questions _ _ _)
      as [[[assigned repository1] g1]|] eqn:Hop; [|discriminate Hhandle].
    cbn in Hhandle. injection Hhandle as <- <-.
    pose proof Hop as Hinv0.
    apply assign_quarter_questions_inv in Hinv0 as (session0 & Hsession0 & _).
    destruct (Hok _ _ Hsession0) as (Hkey & Hone & _).
    destruct (assign_quarter_questions_companies_ok _ _ _ _ _ _ _ Hop Hsession0
                (Hinv _ _ Hsession0)) as (_ & Hstored & Hcompanies).
    rewrite Hkey, Hsession in Hstored. injection Hstored as ->. exact Hcompanies.
  - destruct (Api.submit_decision _ _ _ _ _ _) as [[decided repository1]|] eqn:Hop;
      [|discriminate Hhandle].
    cbn in Hhandle. injection Hhandle as <- <-.
    pose proof Hop as Hinv0.
    apply submit_decision_inv in Hinv0 as (session0 & Hsession0 & _).
    destruct (Hok _ _ Hsession0) as (Hkey & Hone & _).
    destruct (submit_decision_companies_ok _ _ _ _ _ _ _ _ _ Hop Hsession0
                (Hinv _ _ Hsession0)) as (_ & Hstored & Hcompanies).
    rewrite Hkey, Hsession in Hstored. injection Hstored as ->. exact Hcompanies.
  - destruct (Api.submit_answer _ _ _ _) as [[answered repository1]|] eqn:Hop;
      [|discriminate Hhandle].
    cbn in Hhandle. injection Hhandle as <- <-.
    pose proof Hop as Hinv0.
    apply submit_answer_inv in Hinv0 as (session0 & Hsession0 & _).
    destruct (Hok _ _ Hsession0) as (Hkey & Hone & _).
    destruct (submit_answer_companies_ok _ _ _ _ _ _ _ Hop Hsession0
                (Hinv _ _ Hsession0)) as (_ & Hstored & Hcompanies).
    rewrite Hkey, Hsession in Hstored. injection Hstored as ->. exact Hcompanies.
  - destruct (SessionService.close_quarter _ _ _) as [[[closed repository1] g1]|] eqn:Hop;
      [|discriminate Hhandle].
    cbn in Hhandle. injection Hhandle as <- <-.
    pose proof Hop as Hinv0.
    apply close_quarter_inv in Hinv0 as (session0 & Hsession0 & _).
    destruct (Hok _ _ Hsession0) as (Hkey & Hone & _).
    destruct (close_quarter_companies_ok _ _ _ _ _ _ _ Hop Hsession0 Hone
                (Hinv _ _ Hsession0)) as (_ & Hstored & Hcompanies).
    rewrite Hkey, Hsession in Hstored. injection Hstored as ->. exact Hcompanies.
  - destruct (Api.close_quarter _ _ _ _) as [[[final repository1] g1]|] eqn:Hop;
      [|discriminate Hhandle].
    cbn in Hhandle. injection Hhandle as <- <-.
    pose proof Hop as Hinv0.
    apply Api_close_quarter_inv in Hinv0 as (closed & repository2 & g2 & Hclose & _).
    apply close_quarter_inv in Hclose as (session0 & Hsession0 & _).
    destruct (Hok _ _ Hsession0) as (Hkey & Hone & _).
    destruct (Api_close_quarter_companies_ok _ _ _ _ _ _ _ _ Hop Hsession0 Hkey Hone
                (Hinv _ _ Hsession0)) as (Hstored & Hcompanies).
    rewrite Hsession in Hstored. injection Hstored as ->. exact Hcompanies.
Qed.

(** In a reachable repository the snapshots of every company are numbered
    by the quarters, every pending decision is empty or complete, and every
    question id is one of the catalog. *)
Lemma reachable_companies_ok (repository : InMemorySessionRepository.t) :
  reachable repository → repository_companies_ok repository.
Proof.
  induction 1 as [|req repository g repository' g' Hreach IH Hfresh Hhandle].
  - intros session_id session Hsession.
    unfold InMemorySessionRepository.get_by_id in Hsession. cbn in Hsession.
    rewrite lookup_empty in Hsession. discriminate Hsession.
  - exact (handle_preserves_companies_ok req repository repository' g g'
             (reachable_ok _ Hreach) IH Hfresh Hhandle).
Qed.

(** ** Reachable repositories *)

(** X11. In every repository the requests can build, the financial history
    of a company holds one snapshot for each quarter up to the current one
    of its session: the snapshots are numbered 0, 1, 2, ... in the order of
    the list, their number is [current_quarter], and the latest one, which
    [close_quarter] reads as the previous state, is there and carries the
    number [current_quarter - 1]. *)
Theorem financial_history_is_numbered (repository : InMemorySessionRepository.t)
    (session_id : string) (session : Session.t) (company_id : string)
    (company : Company.t) :
  reachable repository →
  InMemorySessionRepository.get_by_id repository session_id = Some session →
  (company_id, company) ∈ Session.companies session →
  FinancialSnapshot.quarter <$> Company.financials company
  = seqZ 0 (Session.current_quarter session)
  ∧ Z.of_nat (length (Company.financials company)) = Session.current_quarter session
  ∧ (∀ i snapshot, Company.financials company !! i = Some snapshot →
       FinancialSnapshot.quarter snapshot = Z.of_nat i)
  ∧ (∃ latest, last (Company.financials company) = Some latest
       ∧ FinancialSnapshot.quarter latest = (Session.current_quarter session - 1)%Z).
Proof.
  intros Hreach Hsession Hin.
  destruct (reachable_companies_ok _ Hreach _ _ Hsession) as [_ Hall].
  destruct (reachable_ok _ Hreach _ _ Hsession) as (_ & Hone & _).
  pose proof (proj1 (Forall_forall _ _) Hall _ Hin) as (Hnumbered & _).
  cbn in Hnumbered.
  assert (Z.of_nat (length (Company.financials company)) = Session.current_quarter session)
    as Hlength.
  { apply (f_equal length) in Hnumbered.
    rewrite length_fmap, length_seqZ in Hnumbered. lia. }
  split; [exact Hnumbered|]. split; [exact Hlength|]. split.
  - intros i snapshot Hi. apply (f_equal (λ l, l !! i)) in Hnumbered.
    rewrite list_lookup_fmap, Hi in Hnumbered. cbn in Hnumbered.
    symmetry in Hnumbered. apply lookup_seqZ in Hnumbered as [-> _]. lia.
  - destruct (last (Company.financials company)) as [latest|] eqn:Hlast.
    2: { apply last_None in Hlast. rewrite Hlast in Hlength. cbn in Hlength. lia. }
    exists latest. split; [reflexivity|].
    apply (f_equal last) in Hnumbered.
    rewrite fmap_last, Hlast in Hnumbered. cbn in Hnumbered.
    replace (Session.current_quarter session)
      with (Session.current_quarter session - 1 + 1)%Z in Hnumbered by lia.
    rewrite seqZ_snoc, last_snoc in Hnumbered by lia.
    by injection Hnumbered.
Qed.

Lemma financial_history_is_numbered_witness :
  ∃ session company,
    InMemorySessionRepository.get_by_id (repository_after second_quarter) "s1" = Some session
    ∧ (("alpha_corp", company) ∈ Session.companies session)
    ∧ FinancialSnapshot.quarter <$> Company.financials company = [0; 1]%Z.
Proof.
  assert (reachable (repository_after second_quarter)) as Hreach.
  { let requests :=
      eval unfold second_quarter, first_quarter_played, first_quarter in second_quarter in
    reach_after requests. }
  eassert (InMemorySessionRepository.get_by_id (repository_after second_quarter) "s1"
           = Some _) as Hsession by (vm_compute; reflexivity).
  match type of Hsession with _ = Some ?s =>
    eassert (("alpha_corp", _) ∈ Session.companies s) as Hin by (apply list_elem_of_here)
  end.
  destruct (financial_history_is_numbered _ _ _ _ _ Hreach Hsession Hin) as (Hnumbered & _).
  eexists _, _. split; [exact Hsession|]. split; [exact Hin|exact Hnumbered].
Defined.

(** For a question of the catalog, no option is found exactly when the
    selected id is none of "A", "B", "C". *)
Lemma resolve_selected_option_None (question_id : string) (selected : option string) :
  question_id ∈ Question.id <$> QUESTION_BANK →
  resolve_selected_option question_id selected = None
  ↔ selected ∉ [Some "A"; Some "B"; Some "C"].
Proof.
  intros (q & -> & Hq)%list_elem_of_fmap.
  pose proof (proj2 (QUESTION_INDEX_lookup (Question.id q) q) (conj Hq eq_refl)) as Hindex.
  pose proof (proj1 (Forall_forall _ _) QUESTION_BANK_option_ids q Hq) as Hids.
  cbn beta in Hids.
  unfold resolve_selected_option. rewrite Hindex, fmap_None, list_find_None, Forall_forall.
  change [Some "A"; Some "B"; Some "C"] with (Some <$> ["A"; "B"; "C"]).
  rewrite <- Hids. split.
  - intros Hall (option_id & -> & (o & -> & Ho)%list_elem_of_fmap)%list_elem_of_fmap.
    by apply (Hall o Ho).
  - intros Hnotin o Ho Heq. apply Hnotin. rewrite <- Heq.
    apply list_elem_of_fmap_2, list_elem_of_fmap_2. exact Ho.
Qed.

Lemma decision_dict_non_empty (production price marketing : Qc) :
  decision_dict production price marketing ≠ ∅.
Proof. unfold decision_dict. apply insert_non_empty. Qed.

Lemma apply_option_impact_decision (decision : gmap string Qc) (option_ : QuestionOption.t) :
  ∃ production price marketing,
    apply_option_impact decision option_ = decision_dict production price marketing.
Proof. eexists _, _, _. unfold apply_option_impact, decision_dict. reflexivity. Qed.

(** The quarter of a company of a reachable session closes when the
    company has a pending decision or has selected one of the three
    options, and raises [TypeError] when it has neither. *)
Lemma close_company_outcome (current_quarter : Z) (company : Company.t) (g : rng) :
  (1 ≤ current_quarter)%Z →
  company_ok current_quarter company →
  (can_close company → ∃ updated g', close_company company g = Ok (updated, g'))
  ∧ (¬ can_close company → close_company company g = Raise TypeError).
Proof.
  intros Hone (Hnumbered & Hdecisions & Hactive & _).
  unfold close_company.
  destruct (last (Company.financials company)) as [previous|] eqn:Hlast.
  2: { apply last_None in Hlast. rewrite Hlast in Hnumbered.
       apply (f_equal length) in Hnumbered. rewrite length_seqZ in Hnumbered.
       cbn in Hnumbered. lia. }
  destruct (resolve_question_id_Ok company g) as (question_id & g1 & Hquestion & _).
  pose proof (resolve_question_id_catalog _ _ _ _ Hactive Hquestion) as Hcatalog.
  rewrite Hquestion. cbn -[simulate_quarter].
  pose proof (resolve_selected_option_None question_id
                (Company.selected_option_id company) Hcatalog) as Hnone.
  destruct (resolve_selected_option question_id (Company.selected_option_id company))
    as [option_|].
  - cbn -[simulate_quarter].
    destruct (apply_option_impact_decision (Company.decisions company) option_)
      as (p & pr & m & ->).
    destruct (simulate_quarter_total previous p pr m) as [result ->]. cbn. split.
    + intros _. by eexists _, _.
    + intros Hcannot. destruct Hcannot. right.
      destruct (decide (Company.selected_option_id company
                        ∈ [Some "A"; Some "B"; Some "C"])) as [Hin|Hnotin]; [exact Hin|].
      apply Hnone in Hnotin. discriminate Hnotin.
  - cbn -[simulate_quarter].
    destruct Hdecisions as [Hempty|(p & pr & m & Hdict)].
    + rewrite Hempty. cbn. split.
      * intros [Hdecided|Hselected]; [by destruct Hdecided|].
        by destruct (proj1 Hnone eq_refl).
      * reflexivity.
    + rewrite Hdict.
      destruct (simulate_quarter_total previous p pr m) as [result ->]. cbn. split.
      * intros _. by eexists _, _.
      * intros Hcannot. destruct Hcannot. left. rewrite Hdict.
        apply decision_dict_non_empty.
Qed.

Lemma for_each_company_close_outcome (current_quarter : Z)
    (items : list (string * Company.t)) (g : rng) :
  (1 ≤ current_quarter)%Z →
  Forall (λ kc, company_ok current_quarter kc.2) items →
  (Forall (λ kc, can_close kc.2) items →
   ∃ items' g', for_each_company close_company items g = Ok (items', g'))
  ∧ (¬ Forall (λ kc, can_close kc.2) items →
     for_each_company close_company items g = Raise TypeError).
Proof.
  intros Hone Hitems. revert g.
  induction Hitems as [|[company_id company] rest Hcompany _ IH]; intros g.
  - split; [intros _; by eexists _, _|intros Hnot; destruct Hnot; constructor].
  - cbn in Hcompany.
    destruct (close_company_outcome current_quarter company g Hone Hcompany)
      as [Hcloses Hraises].
    assert (Decision (can_close company)) as [Hcan|Hcannot]
      by (unfold can_close; apply _).
    + destruct (Hcloses Hcan) as (updated & g1 & Hbody).
      destruct (IH g1) as [IHcloses IHraises].
      cbn [for_each_company]. rewrite Hbody. cbn. split.
      * intros [_ Hrest]%Forall_cons. destruct (IHcloses Hrest) as (rest' & g2 & ->).
        cbn. by eexists _, _.
      * intros Hnot. rewrite IHraises; [reflexivity|].
        intros Hrest. apply Hnot. by constructor.
    + cbn [for_each_company]. rewrite (Hraises Hcannot). cbn. split.
      * intros [Hcan _]%Forall_cons. by destruct Hcannot.
      * reflexivity.
Qed.

(** X12. In every repository the requests can build, closing the quarter
    of a stored session succeeds exactly when every company of the session
    has a pending decision or has selected one of the options "A", "B",
    "C" (a company that has only answered closes on the transform of the
    empty decision); as soon as one company has neither, the method of the
    service and the endpoint both raise [TypeError]. They raise nothing
    else on a stored session: the latest snapshot that the loop indexes is
    always there. *)
Theorem close_quarter_needs_every_decision (repository : InMemorySessionRepository.t)
    (session_id : string) (session : Session.t) (now : Z) (g : rng) :
  reachable repository →
  InMemorySessionRepository.get_by_id repository session_id = Some session →
  (Forall (λ kc, can_close kc.2) (Session.companies session) →
   (∃ session' repository' g',
      SessionService.close_quarter repository session_id g
      = Ok (session', repository', g'))
   ∧ (∃ session' repository' g',
        Api.close_quarter repository session_id now g = Ok (session', repository', g')))
  ∧ (Exists (λ kc, Company.decisions kc.2 = ∅
                   ∧ Company.selected_option_id kc.2 ∉ [Some "A"; Some "B"; Some "C"])
            (Session.companies session) →
     SessionService.close_quarter repository session_id g = Raise TypeError
     ∧ Api.close_quarter repository session_id now g = Raise TypeError).
Proof.
  intros Hreach Hsession.
  pose proof (reachable_ok _ Hreach) as Hok.
  pose proof (reachable_companies_ok _ Hreach) as Hinv.
  destruct (Hok _ _ Hsession) as (Hkey & Hone & _).
  destruct (Hinv _ _ Hsession) as [Hnodup Hall].
  destruct (for_each_company_close_outcome _ (Session.companies session) g Hone Hall)
    as [Hcloses Hraises].
  split.
  - intros Hcan. destruct (Hcloses Hcan) as (updated & g1 & Hloop).
    assert (∃ session' repository',
              SessionService.close_quarter repository session_id g
              = Ok (session', repository', g1)) as (closed & repository1 & Hclose).
    { unfold SessionService.close_quarter. rewrite Hsession, Hloop. cbn. by eexists _, _. }
    split; [by exists closed, repository1, g1|].
    unfold Api.close_quarter. rewrite Hclose. cbn.
    destruct (decide (Session.game_status closed ≠ "Finished")) as [Hopen|Hfinished].
    + destruct (close_quarter_companies_ok _ _ _ _ _ _ _ Hclose Hsession Hone (Hinv _ _ Hsession))
        as (_ & Hstored & _).
      rewrite Hkey in Hstored.
      destruct (assign_quarter_questions_Ok repository1 session_id g1)
        as (assigned & repository2 & g2 & ->); [by eexists|].
      cbn. by eexists _, _, _.
    + cbn. by eexists _, _, _.
  - intros Hsome.
    assert (SessionService.close_quarter repository session_id g = Raise TypeError) as Hclose.
    { unfold SessionService.close_quarter. rewrite Hsession, Hraises; [reflexivity|].
      intros Hcan. apply Exists_exists in Hsome as (kc & Hin & Hempty & Hnotin).
      destruct (proj1 (Forall_forall _ _) Hcan kc Hin) as [Hdecided|Hselected].
      - by destruct Hdecided.
      - by destruct Hnotin. }
    split; [exact Hclose|].
    unfold Api.close_quarter. rewrite Hclose. reflexivity.
Qed.

Lemma close_quarter_needs_every_decision_witness :
  ∃ session session' repository' g',
    InMemorySessionRepository.get_by_id (repository_after first_quarter_played) "s1"
    = Some session
    ∧ Forall (λ kc, can_close kc.2) (Session.companies session)
    ∧ Api.close_quarter (repository_after first_quarter_played) "s1" 0
        (rng_after first_quarter_played)
      = Ok (session', repository', g').
Proof.
  assert (reachable (repository_after first_quarter_played)) as Hreach.
  { let requests :=
      eval unfold first_quarter_played, first_quarter in first_quarter_played in
    reach_after requests. }
  eassert (InMemorySessionRepository.get_by_id (repository_after first_quarter_played) "s1"
           = Some _) as Hsession by (vm_compute; reflexivity).
  match type of Hsession with _ = Some ?s =>
    assert (Forall (λ kc, can_close kc.2) (Session.companies s)) as Hcan
  end.
  { apply Forall_cons_2; [right; apply list_elem_of_here|].
    apply Forall_cons_2; [|apply Forall_nil_2].
    left. intros Hempty. apply (f_equal (λ decision, decision !! "production")) in Hempty.
    vm_compute in Hempty. discriminate Hempty. }
  destruct (close_quarter_needs_every_decision _ _ _ 0%Z (rng_after first_quarter_played)
              Hreach Hsession) as [Hcloses _].
  destruct (Hcloses Hcan) as (_ & session' & repository' & g' & Hapi).
  eexists _, session', repository', g'.
  split; [exact Hsession|]. split; [exact Hcan|exact Hapi].
Defined.

(** X13. In every repository the requests can build, the active question
    of a company is a question of the catalog: [get_question] answers for
    its id with the question of that id, which has the options "A", "B",
    "C"; and so does every id of the question history of the company. *)
Theorem session_questions_are_catalog_questions (repository : InMemorySessionRepository.t)
    (session_id : string) (session : Session.t) (company_id : string)
    (company : Company.t) :
  reachable repository →
  InMemorySessionRepository.get_by_id repository session_id = Some session →
  (company_id, company) ∈ Session.companies session →
  (∀ question_id, Company.active_question_id company = Some question_id →
     ∃ q, Api.get_question question_id = Ok q
       ∧ Question.id q = question_id
       ∧ QuestionOption.id <$> Question.options q = ["A"; "B"; "C"])
  ∧ Forall (λ question_id, ∃ q, Api.get_question question_id = Ok q
                              ∧ Question.id q = question_id)
      (history_or_empty (Company.question_history company)).
Proof.
  intros Hreach Hsession Hin.
  destruct (reachable_companies_ok _ Hreach _ _ Hsession) as [_ Hall].
  pose proof (proj1 (Forall_forall _ _) Hall _ Hin) as (_ & _ & Hactive & Hhistory).
  cbn in Hactive, Hhistory.
  assert (∀ question_id, question_id ∈ Question.id <$> QUESTION_BANK →
            ∃ q, Api.get_question question_id = Ok q
              ∧ Question.id q = question_id
              ∧ QuestionOption.id <$> Question.options q = ["A"; "B"; "C"]) as Hfetch.
  { intros question_id (q & -> & Hq)%list_elem_of_fmap. exists q.
    unfold Api.get_question.
    rewrite (proj2 (QUESTION_INDEX_lookup (Question.id q) q) (conj Hq eq_refl)).
    split; [reflexivity|]. split; [reflexivity|].
    exact (proj1 (Forall_forall _ _) QUESTION_BANK_option_ids q Hq). }
  split.
  - intros question_id Hid. apply Hfetch. by apply Hactive.
  - eapply Forall_impl; [exact Hhistory|].
    intros question_id Hid. destruct (Hfetch question_id Hid) as (q & Hq & Hqid & _).
    by exists q.
Qed.

Lemma session_questions_are_catalog_questions_witness :
  ∃ session company question_id q,
    InMemorySessionRepository.get_by_id (repository_after first_quarter) "s1" = Some session
    ∧ (("alpha_corp", company) ∈ Session.companies session)
    ∧ Company.active_question_id company = Some question_id
    ∧ Api.get_question question_id = Ok q.
Proof.
  assert (reachable (repository_after first_quarter)) as Hreach.
  { let requests := eval unfold first_quarter in first_quarter in reach_after requests. }
  eassert (InMemorySessionRepository.get_by_id (repository_after first_quarter) "s1"
           = Some _) as Hsession by (vm_compute; reflexivity).
  match type of Hsession with _ = Some ?s =>
    eassert (("alpha_corp", _) ∈ Session.companies s) as Hin by (apply list_elem_of_here)
  end.
  destruct (session_questions_are_catalog_questions _ _ _ _ _ Hreach Hsession Hin)
    as (Hactive & _).
  edestruct (Hactive _ eq_refl) as (q & Hq & _).
  eexists _, _, _, q. split; [exact Hsession|]. split; [exact Hin|].
  split; [reflexivity|exact Hq].
Defined.

(** ** The endpoints on one session *)

(** X14. [get_session], [submit_decision] and [submit_answer] raise for
    two reasons only: the session id is not in the repository, which gives
    the HTTP error 404 "Session not found", or the session has no company
    of the given id, which gives 404 "Company '...' not found in session".
    The values submitted are not examined: no production, price, marketing
    budget or option id is refused. *)
Theorem endpoints_raise_404_for_unknown_ids (repository : InMemorySessionRepository.t)
    (session_id company_id option_id : string) (production price marketing : Qc)
    (e : exn) :
  (Api.get_session repository session_id = Raise e
   ↔ InMemorySessionRepository.get_by_id repository session_id = None
     ∧ e = HTTPException 404 "Session not found")
  ∧ (Api.submit_decision repository session_id company_id production price marketing
     = Raise e
     ↔ (InMemorySessionRepository.get_by_id repository session_id = None
        ∧ e = HTTPException 404 "Session not found")
       ∨ ∃ session,
           InMemorySessionRepository.get_by_id repository session_id = Some session
           ∧ items_get company_id (Session.companies session) = None
           ∧ e = HTTPException 404
                   ("Company '" +:+ company_id +:+ "' not found in session"))
  ∧ (Api.submit_answer repository session_id company_id option_id = Raise e
     ↔ (InMemorySessionRepository.get_by_id repository session_id = None
        ∧ e = HTTPException 404 "Session not found")
       ∨ ∃ session,
           InMemorySessionRepository.get_by_id repository session_id = Some session
           ∧ items_get company_id (Session.companies session) = None
           ∧ e = HTTPException 404
                   ("Company '" +:+ company_id +:+ "' not found in session")).
Proof.
  unfold Api.submit_decision, Api.submit_answer, Api.get_session,
    Api.company_not_found, Api.http_404.
  destruct (InMemorySessionRepository.get_by_id repository session_id) as [session|];
    cbn;
    [destruct (items_get company_id (Session.companies session)) as [company|] eqn:Hget|].
  - split; [|split]; split; intros H; try discriminate H.
    + destruct H as [H _]. discriminate H.
    + destruct H as [[H _]|(s & Hs & H & _)]; [discriminate H|].
      injection Hs as <-. rewrite Hget in H. discriminate H.
    + destruct H as [[H _]|(s & Hs & H & _)]; [discriminate H|].
      injection Hs as <-. rewrite Hget in H. discriminate H.
  - split; [|split]; split; intros H; try discriminate H.
    + destruct H as [H _]. discriminate H.
    + injection H as <-. right. by exists session.
    + destruct H as [[H _]|(s & _ & _ & ->)]; [discriminate H|reflexivity].
    + injection H as <-. right. by exists session.
    + destruct H as [[H _]|(s & _ & _ & ->)]; [discriminate H|reflexivity].
  - split; [|split]; split; intros H.
    + injection H as <-. by split.
    + destruct H as [_ ->]. reflexivity.
    + injection H as <-. left. by split.
    + destruct H as [[_ ->]|(s & H & _)]; [reflexivity|discriminate H].
    + injection H as <-. left. by split.
    + destruct H as [[_ ->]|(s & H & _)]; [reflexivity|discriminate H].
Qed.

(** X15. [submit_decision] on a company of a stored session always
    succeeds, whatever the three numbers are, and what it stores is what
    [get_session] reads back: the session under its id, with the pending
    decision of that company replaced by the three fields submitted.
    Nothing else changes: not the other fields of the company, not the
    other companies or their order, not the fields of the session (the time
    of the last update included), not the other sessions. *)
Theorem submit_decision_is_stored (repository : InMemorySessionRepository.t)
    (session_id company_id : string) (production price marketing : Qc)
    (session : Session.t) (company : Company.t) :
  InMemorySessionRepository.get_by_id repository session_id = Some session →
  items_get company_id (Session.companies session) = Some company →
  ∃ session' repository',
    Api.submit_decision repository session_id company_id production price marketing
    = Ok (session', repository')
    ∧ Api.get_session repository' (Session.id session) = Ok session'
    ∧ (∀ other, other ≠ Session.id session →
         InMemorySessionRepository.get_by_id repository' other
         = InMemorySessionRepository.get_by_id repository other)
    ∧ Session.id session' = Session.id session
    ∧ Session.game_code session' = Session.game_code session
    ∧ Session.game_status session' = Session.game_status session
    ∧ Session.current_quarter session' = Session.current_quarter session
    ∧ Session.last_update_time session' = Session.last_update_time session
    ∧ (Session.companies session').*1 = (Session.companies session).*1
    ∧ items_get company_id (Session.companies session')
      = Some {| Company.name := Company.name company;
                Company.financials := Company.financials company;
                Company.decisions := decision_dict production price marketing;
                Company.agent_chat := Company.agent_chat company;
                Company.active_question_id := Company.active_question_id company;
                Company.selected_option_id := Company.selected_option_id company;
                Company.question_history := Company.question_history company |}
    ∧ (∀ other, other ≠ company_id →
         items_get other (Session.companies session')
         = items_get other (Session.companies session)).
Proof.
  intros Hsession Hget. unfold Api.submit_decision, Api.get_session.
  rewrite Hsession. cbn. rewrite Hget. eexists _, _. split; [reflexivity|].
  unfold Api.with_companies, InMemorySessionRepository.get_by_id. cbn. split.
  { by rewrite lookup_insert_eq. }
  split.
  { intros other Hother. apply lookup_insert_ne. congruence. }
  do 5 (split; [reflexivity|]). split.
  { rewrite items_set_keys, decide_True; [reflexivity|]. by apply (items_get_key _ company). }
  split; [apply items_get_set|].
  intros other Hother. apply items_get_set_ne. congruence.
Qed.

Lemma submit_decision_is_stored_witness :
  ∃ session' repository' company',
    Api.submit_decision (repository_after first_quarter) "s1" "beta_inc"
      (num 1200) (num 48) (num 2500)
    = Ok (session', repository')
    ∧ items_get "beta_inc" (Session.companies session') = Some company'
    ∧ Company.decisions company' = decision_dict (num 1200) (num 48) (num 2500).
Proof.
  eassert (InMemorySessionRepository.get_by_id (repository_after first_quarter) "s1"
           = Some _) as Hsession by (vm_compute; reflexivity).
  match type of Hsession with _ = Some ?s =>
    eassert (items_get "beta_inc" (Session.companies s) = Some _) as Hget
      by (vm_compute; reflexivity)
  end.
  destruct (submit_decision_is_stored _ _ _ (num 1200) (num 48) (num 2500) _ _
              Hsession Hget)
    as (session' & repository' & Hsubmit & _ & _ & _ & _ & _ & _ & _ & _ & Hcompany & _).
  eexists session', repository', _.
  split; [exact Hsubmit|]. split; [exact Hcompany|reflexivity].
Defined.

(** X16. [submit_answer] on a company of a stored session always
    succeeds and stores the option id as the selected option of the
    company, for [get_session] to read back. The id is not compared with
    the options of the active question: any string is stored. Nothing else
    changes: not the pending decision or the other fields of the company,
    not the other companies or their order, not the fields of the session,
    not the other sessions. *)
Theorem submit_answer_is_stored (repository : InMemorySessionRepository.t)
    (session_id company_id option_id : string)
    (session : Session.t) (company : Company.t) :
  InMemorySessionRepository.get_by_id repository session_id = Some session →
  items_get company_id (Session.companies session) = Some company →
  ∃ session' repository',
    Api.submit_answer repository session_id company_id option_id
    = Ok (session', repository')
    ∧ Api.get_session repository' (Session.id session) = Ok session'
    ∧ (∀ other, other ≠ Session.id session →
         InMemorySessionRepository.get_by_id repository' other
         = InMemorySessionRepository.get_by_id repository other)
    ∧ Session.id session' = Session.id session
    ∧ Session.game_code session' = Session.game_code session
    ∧ Session.game_status session' = Session.game_status session
    ∧ Session.current_quarter session' = Session.current_quarter session
    ∧ Session.last_update_time session' = Session.last_update_time session
    ∧ (Session.companies session').*1 = (Session.companies session).*1
    ∧ items_get company_id (Session.companies session')
      = Some {| Company.name := Company.name company;
                Company.financials := Company.financials company;
                Company.decisions := Company.decisions company;
                Company.agent_chat := Company.agent_chat company;
                Company.active_question_id := Company.active_question_id company;
                Company.selected_option_id := Some option_id;
                Company.question_history := Company.question_history company |}
    ∧ (∀ other, other ≠ company_id →
         items_get other (Session.companies session')
         = items_get other (Session.companies session)).
Proof.
  intros Hsession Hget. unfold Api.submit_answer, Api.get_session.
  rewrite Hsession. cbn. rewrite Hget. eexists _, _. split; [reflexivity|].
  unfold Api.with_companies, InMemorySessionRepository.get_by_id. cbn. split.
  { by rewrite lookup_insert_eq. }
  split.
  { intros other Hother. apply lookup_insert_ne. congruence. }
  do 5 (split; [reflexivity|]). split.
  { rewrite items_set_keys, decide_True; [reflexivity|]. by apply (items_get_key _ company). }
  split; [apply items_get_set|].
  intros other Hother. apply items_get_set_ne. congruence.
Qed.

Lemma submit_answer_is_stored_witness :
  ∃ session' repository' company',
    Api.submit_answer (repository_after first_quarter) "s1" "alpha_corp" "Z"
    = Ok (session', repository')
    ∧ items_get "alpha_corp" (Session.companies session') = Some company'
    ∧ Company.selected_option_id company' = Some "Z".
Proof.
  eassert (InMemorySessionRepository.get_by_id (repository_after first_quarter) "s1"
           = Some _) as Hsession by (vm_compute; reflexivity).
  match type of Hsession with _ = Some ?s =>
    eassert (items_get "alpha_corp" (Session.companies s) = Some _) as Hget
      by (vm_compute; reflexivity)
  end.
  destruct (submit_answer_is_stored _ _ _ "Z" _ _ Hsession Hget)
    as (session' & repository' & Hsubmit & _ & _ & _ & _ & _ & _ & _ & _ & Hcompany & _).
  eexists session', repository', _.
  split; [exact Hsubmit|]. split; [exact Hcompany|reflexivity].
Defined.

(** ** Creating a session *)




